(** * mockfactory.catalog: partitioned files and distributed catalogs

    A shallow embedding of [mockfactory/catalog.py].  An SPMD program is
    modelled by its "world": the list of the per-rank objects, the object of
    rank [r] at index [r]; a collective call is a function on the world.
    Python exceptions are values of [exn], and every function that can raise
    lives in the [result] monad.  [Deadlock] is no exception: it stands for
    a call that does not return, the ranks being in different collective
    calls. *)

From stdpp Require Import base numbers list strings gmap fin_maps.
From Stdlib Require Import ZArith Lia Ascii.

Local Open Scope Z_scope.

(** ** Exceptions and the result monad *)

Inductive exn : Type :=
| ValueError (msg : string)
| KeyError (msg : string)
| NameError (name : string)
| AttributeError (attr : string)
| SyntaxError (msg : string)
| TypeError (msg : string)
| IndexError (msg : string)
| UnboundLocalError (name : string)
| IOError (msg : string)
| AssertionError
| Deadlock.

Inductive result (T : Type) : Type :=
| Ok (v : T)
| Raise (e : exn).
Arguments Ok {T} v.
Arguments Raise {T} e.

#[global] Instance result_ret : MRet result := fun _ v => Ok v.
#[global] Instance result_bind : MBind result := fun _ _ f m =>
  match m with Ok v => f v | Raise e => Raise e end.
#[global] Instance result_fmap : FMap result := fun _ _ f m =>
  match m with Ok v => Ok (f v) | Raise e => Raise e end.

(** A [for] loop whose body may raise and that threads one variable. *)
Fixpoint foldM {S X : Type} (body : S -> X -> result S) (s : S) (l : list X)
  : result S :=
  match l with
  | [] => Ok s
  | x :: l' => s' ← body s x; foldM body s' l'
  end.

(** A list comprehension [[x for x in l if keep(x)]] whose test may raise. *)
Fixpoint filterM {X : Type} (keep : X -> result bool) (l : list X)
  : result (list X) :=
  match l with
  | [] => Ok []
  | x :: l' =>
      b ← keep x; k ← filterM keep l';
      Ok (if b : bool then x :: k else k)
  end.

(** ** The Python and numpy primitives the module uses *)
Module py.

(** [l[i]] for an index that is never negative here. *)
Definition getitem {T : Type} (l : list T) (i : nat) : result T :=
  match l !! i with
  | Some x => Ok x
  | None => Raise (IndexError "index out of range")
  end.

(** [range(a, b)]. *)
Definition range (a b : nat) : list nat := seq a (b - a).

(** [sum(l)]. *)
Definition sum (l : list Z) : Z := foldr Z.add 0 l.

(** [np.cumsum(l)]: the inclusive prefix sums. *)
Fixpoint cumsum_from (acc : Z) (l : list Z) : list Z :=
  match l with
  | [] => []
  | x :: l' => (acc + x) :: cumsum_from (acc + x) l'
  end.
Definition cumsum (l : list Z) : list Z := cumsum_from 0 l.

(** [np.searchsorted(a, v, side='left')] on a sorted array: the first index
    [i] with [v <= a[i]], [len(a)] when there is none. *)
Fixpoint searchsorted_left (a : list Z) (v : Z) : nat :=
  match a with
  | [] => 0%nat
  | x :: a' => if decide (x < v) then S (searchsorted_left a' v) else 0%nat
  end.

(** The object [slice(start, stop, step)]; [None] is Python's [None]. *)
Record slice : Type := Slice {
  sl_start : option Z;
  sl_stop : option Z;
  sl_step : option Z
}.

(** The constructor [slice] applied to the unpacked [args]: one to three
    arguments. *)
Definition slice_new (args : list (option Z)) : result slice :=
  match args with
  | [b] => Ok (Slice None b None)
  | [a; b] => Ok (Slice a b None)
  | [a; b; c] => Ok (Slice a b c)
  | _ => Raise (TypeError "slice expected at least 1 argument and at most 3")
  end.

(** How a slice bound [i] is read against a length [n] when the step is
    missing: a negative bound counts from the end, and both are clipped. *)
Definition slice_index (n i : Z) : Z :=
  if decide (i < 0) then Z.max (i + n) 0 else Z.min i n.

(** [l[a:b]] for the slice [slice(a, b)]. *)
Definition getslice {T : Type} (a b : Z) (l : list T) : list T :=
  let n := Z.of_nat (length l) in
  let a' := slice_index n a in
  let b' := slice_index n b in
  take (Z.to_nat (b' - a')) (drop (Z.to_nat a') l).

(** [np.concatenate(arrays, axis=0)]: at least one array is needed. *)
Definition concatenate {T : Type} (arrays : list (list T)) : result (list T) :=
  match arrays with
  | [] => Raise (ValueError "need at least one array to concatenate")
  | _ => Ok (concat arrays)
  end.

(** The dict display [{**a, **b}], and [a.update(b)]: the keys of both,
    with the value of [b] where both have one. *)
Definition dict_merge {T : Type} (a b : gmap string T) : gmap string T := b ∪ a.

(** [d[k]] on a dict. *)
Definition dict_getitem {T : Type} (d : gmap string T) (k : string)
  : result T :=
  match d !! k with
  | Some v => Ok v
  | None => Raise (KeyError k)
  end.

(** [d[k]] on the items of a dict. *)
Fixpoint assoc {T : Type} (k : string) (items : list (string * T)) : option T :=
  match items with
  | [] => None
  | (k', v) :: items' => if decide (k' = k) then Some v else assoc k items'
  end.

(** [b is not None] for a bool [b]: a bool is never [None]. *)
Definition bool_is_not_None (b : bool) : bool := true.

(** [str.replace(old, new)] for a one-character [old]. *)
Fixpoint replace (old : ascii) (new : string) (s : string) : string :=
  match s with
  | EmptyString => EmptyString
  | String c s' =>
      if decide (c = old) then new +:+ replace old new s'
      else String c (replace old new s')
  end.

(** [c in s] for a character [c]. *)
Fixpoint contains (c : ascii) (s : string) : bool :=
  match s with
  | EmptyString => false
  | String c' s' => if decide (c' = c) then true else contains c s'
  end.

(** [str.lower()] on ASCII letters. *)
Definition lower_ascii (c : ascii) : ascii :=
  let n := nat_of_ascii c in
  if decide (65 <= n <= 90)%nat then ascii_of_nat (n + 32) else c.
Fixpoint lower (s : string) : string :=
  match s with
  | EmptyString => EmptyString
  | String c s' => String (lower_ascii c) (lower s')
  end.

(** [np.arange(n)]. *)
Definition arange (n : Z) : list Z := Z.of_nat <$> seq 0 (Z.to_nat n).

(** [l.remove(x)]: the first [x] leaves the list; [ValueError] when the
    list has none. *)
Fixpoint list_remove (x : string) (l : list string) : result (list string) :=
  match l with
  | [] => Raise (ValueError "list.remove(x): x not in list")
  | y :: l' =>
      if decide (y = x) then Ok l'
      else l'' ← list_remove x l'; Ok (y :: l'')
  end.


(** [s.endswith(suffix)]. *)
Definition endswith (s suffix : string) : bool :=
  bool_decide ((String.length suffix <= String.length s)%nat
               ∧ String.substring (String.length s - String.length suffix)
                   (String.length suffix) s = suffix).

(** [x == y] on two elements of an array, as numpy compares them: the test
    need not be reflexive ([nan == nan] is false).  [eq_shapes] is what
    [np.all(a == b)] gives for two arrays whose lengths differ, neither
    being 1: [False], with a warning, before numpy 1.25, and a
    [ValueError] since. *)
Class ArrayEq (A : Type) : Type := {
  elem_eq : A -> A -> bool;
  eq_shapes : result bool
}.

(** [np.all(a == b)] on two arrays: element by element when the lengths
    are the same; an array of one element is compared with every element
    of the other. *)
Definition all_eq {A : Type} {array_eq : ArrayEq A} (a b : list A)
  : result bool :=
  if decide (length a = length b)
  then Ok (forallb (fun xy => elem_eq xy.1 xy.2) (zip a b))
  else match a, b with
       | [x], _ => Ok (forallb (fun y => elem_eq x y) b)
       | _, [y] => Ok (forallb (fun x => elem_eq x y) a)
       | _, _ => eq_shapes
       end.

End py.

(** ** The collective substrate *)
Module mpi.

(** Modelled from the spec: [mockfactory/mpi.py] is not among the sources.
    [gather_array] "gathers the named column from all processes ...
    preserving rank order (lower rank first)". *)
Definition gather_array {T : Type} (locals : list (list T)) : list T :=
  concat locals.

(** Modelled from the spec: [scatter_array] is not among the sources; it
    "re-scatter[s] the result evenly across processes", "by even
    partition".  The spec does not say which rows a rank receives: the
    blocks [[r*n//P, (r+1)*n//P)] here are one even partition, and what is
    proved of the catalogs uses only that there is one piece for each
    rank and that the pieces, gathered, are the array. *)
Definition scatter_array {T : Type} (P : nat) (a : list T) : list (list T) :=
  let n := Z.of_nat (length a) in
  (fun r : nat =>
     let lo := Z.of_nat r * n / Z.of_nat P in
     let hi := (Z.of_nat r + 1) * n / Z.of_nat P in
     take (Z.to_nat (hi - lo)) (drop (Z.to_nat lo) a)) <$> seq 0 P.

(** Modelled from the spec: [bcast(value, root)] hands the root's value to
    each of the [P] ranks. *)
Definition bcast {T : Type} (P : nat) (v : T) : list T := replicate P v.

(** Modelled from the spec: [allgather(x)] gives every rank the list of all
    ranks' values, in rank order. *)
Definition allgather {T : Type} (xs : list T) : list T := xs.

(** Modelled from the spec: [allreduce(x)], the "all-reduce" of the
    substrate with its operation "sum": every rank receives the sum of the
    values of all ranks. *)
Definition allreduce (xs : list Z) : Z := py.sum xs.

(** Modelled from the spec: processes "must invoke the same collective in
    the same order, or the system deadlocks".  The outcome of a call in
    which the ranks are in different collective calls. *)
Definition collective_mismatch {T : Type} : result T := Raise Deadlock.

(** The communicator as one rank sees it: [mpicomm.rank], [mpicomm.size]. *)
Record comm : Type := Comm { rank : nat; size : nat }.

End mpi.

(** ** [class BaseFile]: a file split over several physical files *)
Module BaseFile.
Section defs.
Context {A V : Type}.

(** The dict [_read_file_header] returns: [size], [columns], the optional
    [attrs], and the keys a format adds (the FITS extension), in order. *)
Record FileHeader : Type := {
  h_size : Z;
  h_columns : list string;
  h_attrs : option (gmap string V);
  h_extra : list (string * V)
}.

(** The methods a file handler implements ([FitsFile], [HDF5File],
    [BinaryFile]); [_read_file_slice filename column a b] reads the rows
    [slice(a, b)]. *)
Class Codec : Type := {
  _read_file_header : string -> result FileHeader;
  _read_file_slice : string -> string -> Z -> Z -> result (list A)
}.

(** The attributes [_read_header] sets. *)
Record header : Type := {
  csizes : list Z;
  columns : list string;
  csize : Z;
  start : Z;
  stop : Z;
  size : Z
}.

(** One rank's handle; [hdr] is [None] until the header is read
    ([hasattr(self, 'csizes')] is false). *)
Record t : Type := {
  filenames : list string;
  attrs : gmap string V;
  extra : gmap string V;
  mpicomm : mpi.comm;
  mpiroot : nat;
  hdr : option header
}.

(** [self.mpiroot], for the methods that have a parameter [mpiroot]. *)
Definition self_mpiroot (self : t) : nat := mpiroot self.

Definition is_mpi_root (self : t) : bool :=
  bool_decide (mpi.rank (mpicomm self) = mpiroot self).

(** The variables of the loop of [_read_header]. *)
Record hloop : Type := {
  l_csizes : list Z;
  l_columns : option (list string);
  l_attrs : gmap string V;
  l_names : option (list string);
  l_extra : gmap string V
}.

(** The state the root broadcasts. *)
Record bstate : Type := {
  b_csizes : list Z;
  b_columns : list string;
  b_attrs : gmap string V;
  b_extra : gmap string V
}.

Context `{Codec}.

(** The body of [for filename in self.filenames]. *)
Definition header_step (s : hloop) (filename : string) : result hloop :=
  di ← _read_file_header filename;
  let csizes := l_csizes s ++ [h_size di] in
  columns ← match l_columns s with
             | None => Ok (h_columns di)
             | Some cols =>
                 if forallb (fun c => bool_decide (c ∈ cols)) (h_columns di)
                 then Ok cols
                 else Raise (ValueError (filename +:+ " does not contain columns"))
             end;
  let attrs := py.dict_merge (default ∅ (h_attrs di)) (l_attrs s) in
  let names := match l_names s with
               | None => (h_extra di).*1
               | Some names => names
               end in
  extra ← foldM (fun ex name =>
                   match py.assoc name (h_extra di) with
                   | Some v => Ok (<[name := v]> ex)
                   | None => Raise (KeyError name)
                   end) (l_extra s) names;
  Ok {| l_csizes := csizes; l_columns := Some columns; l_attrs := attrs;
        l_names := Some names; l_extra := extra |}.

(** [_read_header], the part under [if self.is_mpi_root()]. *)
Definition _read_header_root (self : t) : result bstate :=
  s ← foldM header_step
        {| l_csizes := []; l_columns := None; l_attrs := attrs self;
           l_names := None; l_extra := extra self |}
        (filenames self);
  match l_names s, l_columns s with
  | Some names, Some cols =>
      Ok {| b_csizes := l_csizes s; b_columns := cols; b_attrs := l_attrs s;
            b_extra := filter (fun kv => kv.1 ∈ names) (l_extra s) |}
  | _, _ => Raise (TypeError "can only concatenate list (not NoneType) to list")
  end.

(** [_read_header], from [self.__dict__.update(...)] on: what each rank
    does with the broadcast state.  [//] is floor division, and a
    communicator has at least one rank. *)
Definition _read_header_bind (state : bstate) (self : t) : t :=
  let rank := Z.of_nat (mpi.rank (mpicomm self)) in
  let nprocs := Z.of_nat (mpi.size (mpicomm self)) in
  let csize := py.sum (b_csizes state) in
  let start := rank * csize / nprocs in
  let stop := (rank + 1) * csize / nprocs in
  {| filenames := filenames self;
     attrs := b_attrs state;
     extra := b_extra state ∪ extra self;
     mpicomm := mpicomm self;
     mpiroot := mpiroot self;
     hdr := Some {| csizes := b_csizes state; columns := b_columns state;
                    csize := csize; start := start; stop := stop;
                    size := stop - start |} |}.

(** [_read_header] on the world: the root reads the headers, every rank
    binds the broadcast state. *)
Definition _read_header (W : list t) : result (list t) :=
  match W with
  | [] => Ok []
  | root :: _ =>
      state ← _read_header_root root;
      Ok (zip_with _read_header_bind (mpi.bcast (length W) state) W)
  end.

(** [__init__] on the [P] ranks of a communicator, called alike on each. *)
Definition __init__ (P : nat) (filename : list string)
    (attrs : option (gmap string V)) (mode : string) : result (list t) :=
  let mode := py.lower mode in
  if bool_decide (mode ∈ ["r"; "w"; "rw"; ""]) then
    let W := (fun r => {| filenames := filename; attrs := default ∅ attrs;
                          extra := ∅; mpicomm := mpi.Comm r P; mpiroot := 0;
                          hdr := None |}) <$> seq 0 P in
    if py.contains "r" mode then _read_header W else Ok W
  else Raise (ValueError "mode must be one of ['r', 'w', 'rw', '']").

(** The body of the loop of [read] for the file number [ifile]. *)
Definition read_file (self : t) (h : header) (cumsizes : list Z)
    (column : string) (ifile : nat) : result (list A) :=
  cumstart ← (if decide (ifile = 0%nat) then Ok 0
              else py.getitem cumsizes (ifile - 1));
  n ← py.getitem (csizes h) ifile;
  filename ← py.getitem (filenames self) ifile;
  _read_file_slice filename column
    (Z.max (start h - cumstart) 0) (Z.min (stop h - cumstart) n).

(** [read], once the header is there. *)
Definition read_local (self : t) (h : header) (column : string)
  : result (list A) :=
  let cumsizes := py.cumsum (csizes h) in
  let ifile_start := py.searchsorted_left cumsizes (start h) in
  let ifile_stop := py.searchsorted_left cumsizes (stop h) in
  toret ← mapM (read_file self h cumsizes column)
               (py.range ifile_start (ifile_stop + 1));
  py.concatenate toret.

(** [read] on the world: the header is read first where it is missing; the
    result is the handles and each rank's array. *)
Definition read (W : list t) (column : string)
  : result (list t * list (list A)) :=
  W' ← (if forallb (fun self => bool_decide (is_Some (hdr self))) W
        then Ok W else _read_header W);
  arrays ← mapM (fun self =>
                   match hdr self with
                   | Some h => read_local self h column
                   | None => Raise (AttributeError "csizes")
                   end) W';
  Ok (W', arrays).

(** The [data] argument of [write] on one rank: [None], an array of rows,
    or a dict of columns in insertion order. *)
Inductive wdata : Type :=
| WNone
| WArray (a : list A)
| WDict (d : list (string * list A)).

Definition isinstance_dict (data : wdata) : bool :=
  match data with WDict _ => true | _ => false end.

(** [write], up to [if isdict:]: [isdict] and the local data of each rank.
    With [mpiroot], [isdict] is the root's; the dict branch iterates over
    the name [colums], which is bound nowhere; the array branch scatters
    from [self.mpiroot]. *)
Definition write_scatter (self_mpiroot : nat) (datas : list wdata)
    (mpiroot : option nat) : result (list (bool * wdata)) :=
  match mpiroot with
  | None => Ok ((fun data => (isinstance_dict data, data)) <$> datas)
  | Some root =>
      rdata ← py.getitem datas root;
      let isdict := isinstance_dict rdata in
      if isdict then Raise (NameError "colums")
      else
        data ← py.getitem datas self_mpiroot;
        match data with
        | WArray a =>
            Ok ((fun piece => (isdict, WArray piece))
                  <$> mpi.scatter_array (length datas) a)
        | _ => Raise (TypeError "scatter_array needs an array on the root")
        end
  end.

(** [write], the statements that set [size]. *)
Definition write_size (local : bool * wdata) : result Z :=
  let '(isdict, data) := local in
  if isdict then
    match data with
    | WDict [] => Raise (UnboundLocalError "size")
    | WDict ((_, col) :: _) => Ok (Z.of_nat (length col))
    | _ => Raise (TypeError "not a dict")
    end
  else
    match data with
    | WArray a => Ok (Z.of_nat (length a))
    | WDict d => Ok (Z.of_nat (length d))
    | WNone => Raise (TypeError "object of type 'NoneType' has no len()")
    end.

(** [write], the rows one rank gives to the file of range
    [[start, stop)]: [slice(0, 0)] unless the rank is between
    [irank_start] and [irank_stop]. *)
Definition write_rows (sizes cumsizes : list Z) (rank : nat)
    (start stop : Z) : result (Z * Z) :=
  let irank_start := py.searchsorted_left cumsizes start in
  let irank_stop := py.searchsorted_left cumsizes stop in
  if decide (irank_start <= rank <= irank_stop)%nat then
    cumstart ← (if decide (rank = 0%nat) then Ok 0
                else py.getitem cumsizes (rank - 1));
    n ← py.getitem sizes rank;
    Ok (Z.max (start - cumstart) 0, Z.min (stop - cumstart) n)
  else Ok (0, 0).

(** [write], the value [tmp] of one rank.  The array branch reads the name
    [sl], which is bound nowhere.  [tmp] is kept as its columns: packing
    them into a structured array ([_dict_to_array], when the handler wants
    one) changes the container, not the rows. *)
Definition write_tmp (local : bool * wdata) (rows : Z * Z)
  : result (list (string * list A)) :=
  let '(isdict, data) := local in
  if isdict then
    match data with
    | WDict d =>
        Ok ((fun '(name, col) => (name, py.getslice rows.1 rows.2 col)) <$> d)
    | _ => Raise (TypeError "not a dict")
    end
  else Raise (NameError "sl").

(** The handler's [_write_file_slice(filename, data)], which every rank
    calls with its own [data]: on the world, a function of the file name,
    of the [data] of the ranks in rank order, and of the state [D] of what
    the handler writes to, that gives this state after the call.  What a
    handler does with the [data] of the ranks (the handlers of the module
    gather them, and the one for HDF5 may open the file anew for each
    column) is its own, and is left open; [BaseFile]'s own raises
    [NotImplementedError]. *)
Class Writer (D : Type) : Type := {
  _write_file_slice : string -> list (list (string * list A)) -> D -> result D
}.

Context {D : Type} {handler : Writer D}.

(** [write] on the world: [datas] is the [data] argument of each rank, and
    [d] the state of the handler; the result is this state after the
    calls of [_write_file_slice], one for each file name.  [csize],
    [start] and [stop] are numpy integers of 64 bits in the code and
    integers here: they agree as long as [nfiles * csize] is below
    [2^63]. *)
Definition write (W : list t) (datas : list wdata) (mpiroot : option nat)
    (d : D) : result D :=
  self ← py.getitem W 0;
  locals ← write_scatter (self_mpiroot self) datas mpiroot;
  sizes ← mapM write_size locals;
  let sizes := mpi.allgather sizes in
  let cumsizes := py.cumsum sizes in
  csize ← match last cumsizes with
           | Some c => Ok c
           | None => Raise (IndexError "index -1 is out of bounds")
           end;
  let nfiles := Z.of_nat (length (filenames self)) in
  foldM (fun d '(ifile, filename) =>
           let start := Z.of_nat ifile * csize / nfiles in
           let stop := (Z.of_nat ifile + 1) * csize / nfiles in
           tmps ← mapM (fun '(rank, local) =>
                          rows ← write_rows sizes cumsizes rank start stop;
                          write_tmp local rows)
                       (zip (seq 0 (length locals)) locals);
           _write_file_slice filename tmps d)
        d (zip (seq 0 (length (filenames self))) (filenames self)).

End defs.
Arguments FileHeader : clear implicits.
Arguments Codec : clear implicits.
Arguments Writer : clear implicits.
Arguments t : clear implicits.
Arguments hloop : clear implicits.
Arguments bstate : clear implicits.
Arguments wdata : clear implicits.
End BaseFile.

(** ** [class BaseCatalog]: a dictionary of columns, one part per rank *)
Module BaseCatalog.
Section defs.
Context {A V : Type} `{EqDecision A} `{BaseFile.Codec A V}.
Context {array_eq : py.ArrayEq A}.
Context {D : Type} {handler : BaseFile.Writer A D}.

(** What a column name is bound to: an array of rows, or [None] (as
    [copy] leaves it for a column that only the source has). *)
Inductive value : Type :=
| PyNone
| Array (a : list A).

(** One rank's catalog: [self.data], [self.attrs], and the attribute
    [_source], [None] when the object has no such attribute. *)
Record t : Type := {
  data : gmap string value;
  attrs : gmap string V;
  _source : option (BaseFile.t V)
}.

(** [__init__], with [columns] left to its default. *)
Definition __init__ (data : option (gmap string value))
    (attrs : option (gmap string V)) : t :=
  {| data := default ∅ data; attrs := default ∅ attrs; _source := None |}.

Definition has_source (self : t) : bool :=
  bool_decide (is_Some (_source self)).

Definition set (self : t) (column : string) (item : value) : t :=
  {| data := <[column := item]> (data self); attrs := attrs self;
     _source := _source self |}.

(** The outcome of [get]: what it returns or raises, the catalog after the
    call, and the columns it read from the source. *)
Record got : Type := {
  returned : result value;
  after : t;
  source_reads : list string
}.

(** [get], the statements that read [*args] and [**kwargs]: the default,
    if one is given. *)
Definition get_default (args : list value) (kwargs : list (string * value))
  : result (option value) :=
  default ← match args with
             | [] => Ok None
             | [d] => Ok (Some d)
             | _ => Raise (SyntaxError "Too many arguments!")
             end;
  match kwargs with
  | [] => Ok default
  | [_] =>
      match py.assoc "default" kwargs with
      | Some d => Ok (Some d)
      | None => Raise (KeyError "default")
      end
  | _ => Raise (SyntaxError "Too many arguments!")
  end.

(** [get], the last three lines. *)
Definition get_missing (column : string) (default : option value)
  : result value :=
  match default with
  | Some d => Ok d
  | None => Raise (KeyError ("Column " +:+ column +:+ " does not exist"))
  end.

Definition get (self : t) (column : string) (args : list value)
    (kwargs : list (string * value)) : got :=
  match get_default args kwargs with
  | Raise e => {| returned := Raise e; after := self; source_reads := [] |}
  | Ok default =>
      match data self !! column with
      | Some v => {| returned := Ok v; after := self; source_reads := [] |}
      | None =>
          match _source self with
          | None =>
              {| returned := get_missing column default; after := self;
                 source_reads := [] |}
          | Some source =>
              match BaseFile.hdr source with
              | None =>
                  {| returned := Raise (AttributeError "columns");
                     after := self; source_reads := [] |}
              | Some h =>
                  if bool_decide (column ∈ BaseFile.columns h) then
                    match BaseFile.read_local source h column with
                    | Ok a =>
                        {| returned := Ok (Array a);
                           after := set self column (Array a);
                           source_reads := [column] |}
                    | Raise e =>
                        {| returned := Raise e; after := self;
                           source_reads := [column] |}
                    end
                  else
                    {| returned := get_missing column default;
                       after := self; source_reads := [] |}
              end
          end
      end
  end.

(** [self[name]] for a string [name]. *)
Definition __getitem__ (self : t) (name : string) : result value :=
  returned (get self name [] []).

(** [len(x)] for a column value. *)
Definition len (v : value) : result Z :=
  match v with
  | Array a => Ok (Z.of_nat (length a))
  | PyNone => Raise (TypeError "object of type 'NoneType' has no len()")
  end.

(** [__len__].  [self.has_source] is a bool, so the test
    [self.has_source is not None] always holds.  [keys[0]] is the first
    key of the mapping as the map lists its keys, where a dict lists the
    key that was set first: the two lengths differ only for a catalog
    whose columns do not have one length. *)
Definition __len__ (self : t) : result Z :=
  let keys := (map_to_list (data self)).*1 in
  match keys with
  | [] =>
      if py.bool_is_not_None (has_source self) then
        match _source self with
        | None => Raise (AttributeError "_source")
        | Some source =>
            match BaseFile.hdr source with
            | None => Raise (AttributeError "size")
            | Some h => Ok (BaseFile.size h)
            end
        end
      else Ok 0
  | key :: _ => v ← __getitem__ self key; len v
  end.

(** The [include] and [exclude] arguments of [columns]: one pattern or a
    list of patterns. *)
Inductive patterns : Type :=
| Pattern (p : string)
| Patterns (ps : list string).

Definition as_list (p : patterns) : list string :=
  match p with Pattern p => [p] | Patterns ps => ps end.

Definition toregex (name : string) : string :=
  py.replace "*" "(.*)" (py.replace "." "\." name).

(** [re.match(pattern, s)]: the module does not import [re], so reading
    the name raises. *)
Definition re_match (pattern s : string) : result bool :=
  Raise (NameError "re").

(** The two loops over the patterns and the columns: [toret] collects the
    columns for which the match is ([keep] true) or is not ([keep] false)
    there. *)
Definition select (keep : bool) (pats : list string) (allcols : list string)
  : result (list string) :=
  foldM (fun toret pat =>
           let pat := toregex pat in
           foldM (fun toret col =>
                    m ← re_match pat col;
                    Ok (if bool_decide (m = keep) then toret ++ [col]
                        else toret))
                 toret allcols)
        [] pats.

(** [set(source.columns)], empty when there is no source. *)
Definition source_columns (self : t) : result (gset string) :=
  match _source self with
  | None => Ok ∅
  | Some source =>
      match BaseFile.hdr source with
      | None => Raise (AttributeError "columns")
      | Some h => Ok (list_to_set (BaseFile.columns h))
      end
  end.

(** [columns], the part under [if self.is_mpi_root()]. *)
Definition columns_root (self : t) (include exclude : option patterns)
  : result (list string) :=
  source_columns ← source_columns self;
  let allcols := elements (dom (data self) ∪ source_columns) in
  allcols ← match include with
             | None => Ok allcols
             | Some include => select true (as_list include) allcols
             end;
  match exclude with
  | None => Ok allcols
  | Some exclude => select false (as_list exclude) allcols
  end.

(** [columns] on the world: the root computes the list and broadcasts it;
    the result is the list every rank returns. *)
Definition columns (W : list t) (include exclude : option patterns)
  : result (list string) :=
  match W with
  | [] => Ok []
  | root :: _ => columns_root root include exclude
  end.

Definition as_array (v : value) : result (list A) :=
  match v with
  | Array a => Ok a
  | PyNone => Raise (TypeError "None is not an array")
  end.

(** [cget] on the world: the column of every rank, gathered in rank
    order; the result is the array where it is delivered (the root, or
    every rank). *)
Definition cget (W : list t) (column : string) : result (list A) :=
  locals ← mapM (fun self => v ← __getitem__ self column; as_array v) W;
  Ok (mpi.gather_array locals).

(** [copy] on one rank, for the list of columns [columns()] gave. *)
Definition copy_local (columns : list string) (self : t) : t :=
  {| data := list_to_map
               ((fun col => (col, default PyNone (data self !! col)))
                  <$> columns);
     attrs := attrs self;
     _source := _source self |}.

Definition copy (W : list t) (columns_arg : option (list string))
  : result (list t) :=
  cols ← match columns_arg with
          | None => columns W None None
          | Some cols => Ok cols
          end;
  Ok (copy_local cols <$> W).

(** [new[column] = pieces[rank]] on every rank. *)
Definition set_column (column : string) (pieces : list (list A))
    (W : list t) : list t :=
  zip_with (fun self piece => set self column (Array piece)) W pieces.

(** [cslice]: [sl] is built and not used. *)
Definition cslice (W : list t) (args : list (option Z)) : result (list t) :=
  sl ← py.slice_new args;
  new ← copy W None;
  cols ← columns W None None;
  foldM (fun new col =>
           self_value ← cget W col;
           Ok (set_column col (mpi.scatter_array (length W) self_value) new))
        new cols.

(** [concatenate], the two lines that build [attrs], on the rank [r]. *)
Definition concatenate_attrs (others : list (list t)) (r : nat)
  : gmap string V :=
  foldl (fun merged other =>
           match other !! r with
           | Some self => py.dict_merge merged (attrs self)
           | None => merged
           end) ∅ others.

Definition with_attrs (self : t) (attrs : gmap string V) : t :=
  {| data := data self; attrs := attrs; _source := _source self |}.

(** [concatenate], the body of the loop that checks the arguments.  Two
    worlds are on the same communicator when they have the same number of
    ranks. *)
Definition concatenate_check (new : list t) (new_columns : list string)
    (other : list t) : result unit :=
  other_columns ← columns other None None;
  if bool_decide (length new ≠ length other) then Raise AssertionError
  else if bool_decide (new_columns ≠ []) && bool_decide (other_columns ≠ [])
          && bool_decide (list_to_set other_columns
                          ≠@{gset string} list_to_set new_columns)
  then Raise (ValueError "Cannot extend samples as columns do not match")
  else Ok ().

(** [concatenate], the body of [for column in new_columns]. *)
Definition concatenate_column (others : list (list t)) (keep_order : bool)
    (new : list t) (column : string) : result (list t) :=
  if keep_order then
    columns ← mapM (fun other => cget other column) others;
    full ← py.concatenate columns;
    Ok (set_column column (mpi.scatter_array (length new) full) new)
  else
    locals ← mapM (fun rank =>
                     arrays ← mapM (fun other =>
                                      self ← py.getitem other rank;
                                      v ← returned (get self column [] []);
                                      as_array v) others;
                     py.concatenate arrays)
                  (seq 0 (length new));
    Ok (set_column column locals new).

Definition concatenate (others : list (list t)) (keep_order : bool)
  : result (list t) :=
  match others with
  | [] => Raise (ValueError "Provide at least one instance.")
  | _ =>
      let attrs := concatenate_attrs others in
      others ← filterM (fun other =>
                          cols ← columns other None None;
                          Ok (bool_decide (cols ≠ []))) others;
      first ← py.getitem others 0;
      new ← copy first None;
      let new := imap (fun r self => with_attrs self (attrs r)) new in
      new_columns ← columns new None None;
      _ ← foldM (fun _ other => concatenate_check new new_columns other)
                () others;
      foldM (concatenate_column others keep_order) new new_columns
  end.

(** [__eq__], the loop over the columns.  Every rank calls [cget] for the
    two catalogs, but only the root compares, and only the root leaves the
    loop at the first column that differs.  When a column follows and
    there is another rank, that rank goes on to [self[col]] and the
    gather of [cget] for the next column while the root is in [bcast]. *)
Fixpoint eq_columns (W other : list t) (cols : list string) : result bool :=
  match cols with
  | [] => Ok true
  | col :: cols' =>
      self_value ← cget W col;
      other_value ← cget other col;
      same ← py.all_eq self_value other_value;
      if same : bool then eq_columns W other cols'
      else
        match cols' with
        | [] => Ok false
        | next :: _ =>
            if bool_decide (length W <= 1)%nat then Ok false
            else
              _ ← mapM (fun self => v ← __getitem__ self next; as_array v)
                       (drop 1 W);
              mpi.collective_mismatch
        end
  end.

(** [__eq__] on the world, for two catalogs of the class; the result is
    the bool the root broadcasts.  Two worlds are on the same communicator
    when they have the same number of ranks. *)
Definition __eq__ (W other : list t) : result bool :=
  self_columns ← columns W None None;
  other_columns ← columns other None None;
  if bool_decide (list_to_set other_columns
                  ≠@{gset string} list_to_set self_columns)
  then Ok false
  else if bool_decide (length W ≠ length other) then Raise AssertionError
  else eq_columns W other self_columns.

(** The state [save] writes: [data] with the gathered columns, and
    [attrs]. *)
Record state : Type := {
  st_data : gmap string (list A);
  st_attrs : gmap string V
}.

(** The file [np.save(filename, ...)] writes: numpy appends [.npy] to a
    file name that does not end with it. *)
Definition np_save_filename (filename : string) : string :=
  if py.endswith filename ".npy" then filename else filename +:+ ".npy".

(** [save]: [disk] maps a file name to the state saved there. *)
Definition save (W : list t) (filename : string) (disk : gmap string state)
  : result (gmap string state) :=
  self ← py.getitem W 0;
  cols ← columns W None None;
  data ← foldM (fun data name =>
                  a ← cget W name; Ok (<[name := a]> data)) ∅ cols;
  Ok (<[np_save_filename filename
        := {| st_data := data; st_attrs := attrs self |}]> disk).

(** [from_state], for the state [load] builds. *)
Definition from_state (data : gmap string value) (st : state) : t :=
  {| data := data; attrs := st_attrs st; _source := None |}.

(** [np.load(filename, allow_pickle=True)[()]]. *)
Definition np_load (filename : string) (disk : gmap string state)
  : result state :=
  match disk !! filename with
  | Some st => Ok st
  | None => Raise (IOError ("No such file: " +:+ filename))
  end.

(** [load] on a communicator of [M] ranks. *)
Definition load (M : nat) (filename : string) (disk : gmap string state)
  : result (list t) :=
  st ← np_load filename disk;
  let data := st_data st in
  let columns := (map_to_list data).*1 in
  datas ← foldM (fun datas name =>
                   a ← py.dict_getitem data name;
                   Ok (zip_with (fun d piece => <[name := Array piece]> d)
                                datas (mpi.scatter_array M a)))
                (replicate M (∅ : gmap string value)) columns;
  Ok ((fun d => from_state d st) <$> (datas : list (gmap string value))).

(** [__contains__]: the columns of the mapping only. *)
Definition __contains__ (self : t) (column : string) : bool :=
  bool_decide (is_Some (data self !! column)).

(** The property [size]. *)
Definition size (self : t) : result Z := __len__ self.

(** The property [csize] on the world: the local lengths, added up; the
    result is the number every rank receives. *)
Definition csize (W : list t) : result Z :=
  sizes ← mapM __len__ W;
  Ok (mpi.allreduce sizes).

(** [cindices] on the world: what every rank returns or raises.
    [sizes[:1]] keeps the size of rank 0 only. *)
Definition cindices (W : list t) : list (result (list Z)) :=
  imap (fun rank self =>
          sizes ← mapM __len__ W;
          let sizes := mpi.allgather sizes in
          let sizes := [0] ++ py.cumsum (take 1 sizes) in
          offset ← py.getitem sizes rank;
          n ← __len__ self;
          Ok ((fun i => offset + i) <$> py.arange n)) W.

(** [self._source.columns.remove(name)]. *)
Definition source_remove (source : BaseFile.t V) (name : string)
  : result (BaseFile.t V) :=
  match BaseFile.hdr source with
  | None => Raise (AttributeError "columns")
  | Some h =>
      cols ← py.list_remove name (BaseFile.columns h);
      Ok {| BaseFile.filenames := BaseFile.filenames source;
            BaseFile.attrs := BaseFile.attrs source;
            BaseFile.extra := BaseFile.extra source;
            BaseFile.mpicomm := BaseFile.mpicomm source;
            BaseFile.mpiroot := BaseFile.mpiroot source;
            BaseFile.hdr :=
              Some {| BaseFile.csizes := BaseFile.csizes h;
                      BaseFile.columns := cols;
                      BaseFile.csize := BaseFile.csize h;
                      BaseFile.start := BaseFile.start h;
                      BaseFile.stop := BaseFile.stop h;
                      BaseFile.size := BaseFile.size h |} |}
  end.

(** [__delitem__]: the catalog after [del self[name]].  As in [__len__],
    the test [self.has_source is not None] always holds. *)
Definition __delitem__ (self : t) (name : string) : result t :=
  match data self !! name with
  | Some _ =>
      Ok {| data := delete name (data self); attrs := attrs self;
            _source := _source self |}
  | None =>
      if py.bool_is_not_None (has_source self) then
        match _source self with
        | None => Raise (AttributeError "_source")
        | Some source =>
            source ← source_remove source name;
            Ok {| data := data self; attrs := attrs self;
                  _source := Some source |}
        end
      else Raise (KeyError "Column {} not found")
  end.

(** [v.copy()] for a column value. *)
Definition array_copy (v : value) : result value :=
  match v with
  | Array a => Ok (Array a)
  | PyNone => Raise (AttributeError "copy")
  end.

(** [deepcopy] on one rank, for the columns [copy] was given: [self[col]]
    reads from the source a column that is not in the mapping, and [self]
    keeps it.  The result is the copy, and [self] after the call. *)
Definition deepcopy_local (columns : list string) (self : t)
  : result (t * t) :=
  let new := copy_local columns self in
  out ← foldM (fun (acc : t * gmap string value) col =>
                 let got := get acc.1 col [] [] in
                 v ← returned got;
                 v' ← array_copy v;
                 Ok (after got, <[col := v']> acc.2))
              (self, ∅) (map_to_list (data new)).*1;
  Ok ({| data := out.2; attrs := attrs new; _source := _source new |}, out.1).

Definition deepcopy (W : list t) (columns_arg : option (list string))
  : result (list (t * t)) :=
  cols ← match columns_arg with
          | None => columns W None None
          | Some cols => Ok cols
          end;
  mapM (deepcopy_local cols) W.

(** [extend]: the catalog [self] becomes. *)
Definition extend (W other : list t) (keep_order : bool) : result (list t) :=
  concatenate [W; other] keep_order.

(** [load_hdf5]: the catalog over the files [filename],
    which the handler opens for reading; no column is read. *)
Definition load_hdf5 (P : nat) (filename : list string) : result (list t) :=
  source ← BaseFile.__init__ (A := A) P filename None "r";
  Ok ((fun source => {| data := ∅; attrs := BaseFile.attrs source;
                        _source := Some source |})
        <$> (source : list (BaseFile.t V))).

(** The dict [{name: self[name] for name in self.columns()}] of one rank;
    a column bound to [None] has no rows to write. *)
Definition columns_dict (cols : list string) (self : t)
  : result (list (string * list A)) :=
  mapM (fun name => v ← __getitem__ self name; a ← as_array v; Ok (name, a))
       cols.

(** [save_hdf5]: the handler is made for the one file, not opened, and
    writes the dict of all columns as each rank holds it; [d] is the
    state of the handler. *)
Definition save_hdf5 (W : list t) (filename : string) (d : D) : result D :=
  source ← BaseFile.__init__ (A := A) (length W) [filename] None "";
  cols ← columns W None None;
  datas ← mapM (columns_dict cols) W;
  BaseFile.write source (BaseFile.WDict <$> datas) None d.

End defs.
Arguments value : clear implicits.
Arguments t : clear implicits.
Arguments got : clear implicits.
Arguments state : clear implicits.
End BaseCatalog.

(** ** [class HDF5File], the reading methods, on an in-memory disk *)
Module HDF5File.
Section defs.
Context {A V : Type}.

(** The group of one file: its datasets in key order, and its attributes. *)
Record group : Type := {
  datasets : list (string * list A);
  grp_attrs : gmap string V
}.

Definition h5py_File (disk : gmap string group) (filename : string)
  : result group :=
  match disk !! filename with
  | Some grp => Ok grp
  | None => Raise (IOError ("Unable to open file: " +:+ filename))
  end.

Definition dataset (grp : group) (name : string) : result (list A) :=
  match py.assoc name (datasets grp) with
  | Some col => Ok col
  | None => Raise (KeyError name)
  end.

Definition _read_file_header (disk : gmap string group) (filename : string)
  : result (BaseFile.FileHeader V) :=
  grp ← h5py_File disk filename;
  let columns := (datasets grp).*1 in
  first ← py.getitem (datasets grp) 0;
  let size := Z.of_nat (length first.2) in
  if forallb (fun kv => bool_decide (Z.of_nat (length kv.2) = size))
             (datasets grp)
  then Ok {| BaseFile.h_size := size; BaseFile.h_columns := columns;
             BaseFile.h_attrs := Some (grp_attrs grp);
             BaseFile.h_extra := [] |}
  else Raise (IOError "Column has different length").

Definition _read_file_slice (disk : gmap string group)
    (filename column : string) (a b : Z) : result (list A) :=
  grp ← h5py_File disk filename;
  col ← dataset grp column;
  Ok (py.getslice a b col).

Definition codec (disk : gmap string group) : BaseFile.Codec A V :=
  {| BaseFile._read_file_header := _read_file_header disk;
     BaseFile._read_file_slice := _read_file_slice disk |}.

End defs.
Arguments group : clear implicits.
End HDF5File.

(** ** Small worlds, for the statements that run the code *)
Module Examples.

(** Three files of 10, 7 and 5 rows with one column [X]: the rows
    0, 1, ..., 21 of the whole. *)
Definition file_a : HDF5File.group Z string :=
  {| HDF5File.datasets := [("X", [0; 1; 2; 3; 4; 5; 6; 7; 8; 9])];
     HDF5File.grp_attrs := {["run" := "a"]} |}.
Definition file_b : HDF5File.group Z string :=
  {| HDF5File.datasets := [("X", [10; 11; 12; 13; 14; 15; 16])];
     HDF5File.grp_attrs := {["run" := "b"; "seed" := "7"]} |}.
Definition file_c : HDF5File.group Z string :=
  {| HDF5File.datasets := [("X", [17; 18; 19; 20; 21])];
     HDF5File.grp_attrs := {["seed" := "9"]} |}.
Definition disk3 : gmap string (HDF5File.group Z string) :=
  {["a.h5" := file_a; "b.h5" := file_b; "c.h5" := file_c]}.
Definition names3 : list string := ["a.h5"; "b.h5"; "c.h5"].

(** Two files of 10 rows each. *)
Definition file_d : HDF5File.group Z string :=
  {| HDF5File.datasets := [("X", [10; 11; 12; 13; 14; 15; 16; 17; 18; 19])];
     HDF5File.grp_attrs := ∅ |}.
Definition disk2 : gmap string (HDF5File.group Z string) :=
  {["a.h5" := file_a; "d.h5" := file_d]}.
Definition names2 : list string := ["a.h5"; "d.h5"].

(** The handles of a file on [P] ranks, before the header is read. *)
Definition handles (P : nat) (names : list string)
  : list (BaseFile.t string) :=
  (fun r => {| BaseFile.filenames := names; BaseFile.attrs := ∅;
               BaseFile.extra := ∅; BaseFile.mpicomm := mpi.Comm r P;
               BaseFile.mpiroot := 0; BaseFile.hdr := None |}) <$> seq 0 P.

(** The handles of the three files on two ranks, header read. *)
Definition opened3 : list (BaseFile.t string) :=
  match BaseFile._read_header (H := HDF5File.codec disk3) (handles 2 names3)
  with
  | Ok W => W
  | Raise _ => []
  end.

(** The handles of the two files on two ranks, header read. *)
Definition opened2 : list (BaseFile.t string) :=
  match BaseFile._read_header (H := HDF5File.codec disk2) (handles 2 names2)
  with
  | Ok W => W
  | Raise _ => []
  end.

(** The column [X] of the three files, file by file. *)
Definition blocks3 : list (list Z) :=
  [[0; 1; 2; 3; 4; 5; 6; 7; 8; 9]; [10; 11; 12; 13; 14; 15; 16];
   [17; 18; 19; 20; 21]].

(** A catalog of three rows on two ranks, columns [x] and [y]: ranks 0
    holds two rows and rank 1 one. *)
Definition cat3 : list (BaseCatalog.t Z string) :=
  [ {| BaseCatalog.data := {["x" := BaseCatalog.Array [1; 2];
                             "y" := BaseCatalog.Array [10; 20]]};
       BaseCatalog.attrs := ∅; BaseCatalog._source := None |};
    {| BaseCatalog.data := {["x" := BaseCatalog.Array [3];
                             "y" := BaseCatalog.Array [30]]};
       BaseCatalog.attrs := ∅; BaseCatalog._source := None |} ].

(** The same catalog with another value in the column [y], and with
    another value in the column [x]. *)
Definition cat3_y : list (BaseCatalog.t Z string) :=
  [ {| BaseCatalog.data := {["x" := BaseCatalog.Array [1; 2];
                             "y" := BaseCatalog.Array [10; 21]]};
       BaseCatalog.attrs := ∅; BaseCatalog._source := None |};
    {| BaseCatalog.data := {["x" := BaseCatalog.Array [3];
                             "y" := BaseCatalog.Array [30]]};
       BaseCatalog.attrs := ∅; BaseCatalog._source := None |} ].
Definition cat3_x : list (BaseCatalog.t Z string) :=
  [ {| BaseCatalog.data := {["x" := BaseCatalog.Array [1; 2];
                             "y" := BaseCatalog.Array [10; 20]]};
       BaseCatalog.attrs := ∅; BaseCatalog._source := None |};
    {| BaseCatalog.data := {["x" := BaseCatalog.Array [4];
                             "y" := BaseCatalog.Array [30]]};
       BaseCatalog.attrs := ∅; BaseCatalog._source := None |} ].

(** The catalog of rank 0 over the three files, nothing read yet, as
    [load_hdf5] makes it. *)
Definition backed3 : BaseCatalog.t Z string :=
  {| BaseCatalog.data := ∅; BaseCatalog.attrs := ∅;
     BaseCatalog._source := opened3 !! 0%nat |}.

(** The columns of [cat3], as [columns()] lists them. *)
Definition cols3 : list string :=
  match BaseCatalog.columns cat3 None None with
  | Ok cols => cols
  | Raise _ => []
  end.

(** Two catalogs with one column [v] on two ranks: five rows 0..4, and
    three rows 10..12. *)
Definition cat_a : list (BaseCatalog.t Z string) :=
  [ {| BaseCatalog.data := {["v" := BaseCatalog.Array [0; 1; 2]]};
       BaseCatalog.attrs := {["run" := "a"; "seed" := "7"]};
       BaseCatalog._source := None |};
    {| BaseCatalog.data := {["v" := BaseCatalog.Array [3; 4]]};
       BaseCatalog.attrs := {["run" := "a"; "seed" := "7"]};
       BaseCatalog._source := None |} ].
Definition cat_b : list (BaseCatalog.t Z string) :=
  [ {| BaseCatalog.data := {["v" := BaseCatalog.Array [10]]};
       BaseCatalog.attrs := {["run" := "b"]};
       BaseCatalog._source := None |};
    {| BaseCatalog.data := {["v" := BaseCatalog.Array [11; 12]]};
       BaseCatalog.attrs := {["run" := "b"]};
       BaseCatalog._source := None |} ].

(** The handler of a disk with no file, for the catalogs without source. *)
Definition no_disk : BaseFile.Codec Z string := HDF5File.codec ∅.

(** A file with a column [Y] that the file [a.h5] has not. *)
Definition file_e : HDF5File.group Z string :=
  {| HDF5File.datasets := [("X", [10; 11]); ("Y", [0; 0])];
     HDF5File.grp_attrs := ∅ |}.
Definition disk_e : gmap string (HDF5File.group Z string) :=
  {["a.h5" := file_a; "e.h5" := file_e]}.

(** A catalog of six rows on three ranks, one column [x]. *)
Definition cat6 : list (BaseCatalog.t Z string) :=
  [ {| BaseCatalog.data := {["x" := BaseCatalog.Array [1; 2]]};
       BaseCatalog.attrs := ∅; BaseCatalog._source := None |};
    {| BaseCatalog.data := {["x" := BaseCatalog.Array [3]]};
       BaseCatalog.attrs := ∅; BaseCatalog._source := None |};
    {| BaseCatalog.data := {["x" := BaseCatalog.Array [4; 5; 6]]};
       BaseCatalog.attrs := ∅; BaseCatalog._source := None |} ].

(** Two files that hold the five rows of a column [X], two and three. *)
Definition file_w1 : HDF5File.group Z string :=
  {| HDF5File.datasets := [("X", [1; 2])]; HDF5File.grp_attrs := ∅ |}.
Definition file_w2 : HDF5File.group Z string :=
  {| HDF5File.datasets := [("X", [3; 4; 5])]; HDF5File.grp_attrs := ∅ |}.
Definition disk_w : gmap string (HDF5File.group Z string) :=
  {["a.h5" := file_w1; "b.h5" := file_w2]}.

(** A handler that keeps the calls of [_write_file_slice] in order. *)
Definition log_writer
  : BaseFile.Writer Z (list (string * list (list (string * list Z)))) :=
  {| BaseFile._write_file_slice := fun filename tmps log =>
       Ok (log ++ [(filename, tmps)]) |}.

(** [==] on integers, with a numpy that raises on arrays of two
    lengths. *)
Definition Z_eq : py.ArrayEq Z :=
  {| py.elem_eq := Z.eqb;
     py.eq_shapes :=
       Raise (ValueError "operands could not be broadcast together") |}.

(** [==] on floats, [None] standing for NaN. *)
Definition float_eq : py.ArrayEq (option Z) :=
  {| py.elem_eq := fun x y =>
       match x, y with
       | Some a, Some b => Z.eqb a b
       | _, _ => false
       end;
     py.eq_shapes :=
       Raise (ValueError "operands could not be broadcast together") |}.

Definition no_float_disk : BaseFile.Codec (option Z) string :=
  HDF5File.codec ∅.

(** A catalog on one rank with a column that holds a NaN. *)
Definition cat_nan : list (BaseCatalog.t (option Z) string) :=
  [ {| BaseCatalog.data := {["x" := BaseCatalog.Array [Some 1; None]]};
       BaseCatalog.attrs := ∅; BaseCatalog._source := None |} ].

(** A catalog without column on two ranks. *)
Definition cat_empty : list (BaseCatalog.t Z string) :=
  [ {| BaseCatalog.data := ∅; BaseCatalog.attrs := {["run" := "e"]};
       BaseCatalog._source := None |};
    {| BaseCatalog.data := ∅; BaseCatalog.attrs := {["run" := "e"]};
       BaseCatalog._source := None |} ].

End Examples.

(** * Statements *)

(** ** What the theorems say about worlds *)
Module Spec.
Section defs.
Context {A V : Type} `{EqDecision A} `{BaseFile.Codec A V}.

(** The handles of a world carry the communicator of that world: the
    handle at index [r] has rank [r], and the size is the number of
    handles. *)
Definition comm_ok (W : list (BaseFile.t V)) : Prop :=
  ∀ r self, W !! r = Some self ->
    BaseFile.mpicomm self = mpi.Comm r (length W).

(** The attribute [size] of a handle, 0 before the header is read. *)
Definition local_size (self : BaseFile.t V) : Z :=
  from_option BaseFile.size 0 (BaseFile.hdr self).

(** The rows [[start, stop)] of an array. *)
Definition rows {T : Type} (start stop : Z) (l : list T) : list T :=
  take (Z.to_nat stop - Z.to_nat start) (drop (Z.to_nat start) l).

(** The number of rows before the block number [i] of an array cut into
    blocks. *)
Definition offset {T : Type} (blocks : list (list T)) (i : nat) : Z :=
  Z.of_nat (length (concat (take i blocks))).

(** The row counts of the blocks. *)
Definition lens {T : Type} (blocks : list (list T)) : list Z :=
  (fun l => Z.of_nat (length l)) <$> blocks.

(** The files [filenames] hold the column [column] as [blocks], one block
    per file: the header of a file reports the row count of its block, and
    a slice read inside the block returns those rows. *)
Definition column_stored (filenames : list string) (column : string)
    (blocks : list (list A)) : Prop :=
  Forall2 (fun filename block =>
             (∃ di, BaseFile._read_file_header filename = Ok di
                    ∧ BaseFile.h_size di = Z.of_nat (length block))
             ∧ ∀ a b, 0 <= a -> a <= b -> b <= Z.of_nat (length block) ->
                 BaseFile._read_file_slice filename column a b
                 = Ok (rows a b block))
          filenames blocks.

(** The catalog has a source, and the source declares the column. *)
Definition source_declares (self : BaseCatalog.t A V) (column : string)
  : Prop :=
  ∃ source h, BaseCatalog._source self = Some source
              ∧ BaseFile.hdr source = Some h
              ∧ column ∈ BaseFile.columns h.

(** The source of the catalog, if it has one, was opened for reading. *)
Definition source_opened (self : BaseCatalog.t A V) : Prop :=
  ∀ source, BaseCatalog._source self = Some source ->
            is_Some (BaseFile.hdr source).

(** The rows of a column that one rank holds, [self[column]]; no row when
    that raises or is [None]. *)
Definition local_column (column : string) (self : BaseCatalog.t A V)
  : list A :=
  match BaseCatalog.__getitem__ self column with
  | Ok (BaseCatalog.Array a) => a
  | _ => []
  end.

(** The rows of a column of all ranks, in rank order. *)
Definition gathered (column : string) (W : list (BaseCatalog.t A V))
  : list A :=
  concat (local_column column <$> W).

(** A catalog on a communicator with the columns [cols]: there is a rank,
    [columns()] returns [cols], and every rank can get every column as an
    array. *)
Definition catalog_with (W : list (BaseCatalog.t A V)) (cols : list string)
  : Prop :=
  W ≠ []
  ∧ BaseCatalog.columns W None None = Ok cols
  ∧ ∀ self c, self ∈ W -> c ∈ cols ->
      ∃ a, BaseCatalog.__getitem__ self c = Ok (BaseCatalog.Array a).

(** The equality of two stores: the same set of columns, and for every
    column the same gathered values. *)
Definition store_eq (W1 W2 : list (BaseCatalog.t A V)) : Prop :=
  ∃ cols1 cols2,
    BaseCatalog.columns W1 None None = Ok cols1
    ∧ BaseCatalog.columns W2 None None = Ok cols2
    ∧ list_to_set cols1 =@{gset string} list_to_set cols2
    ∧ ∀ c, c ∈ cols1 ->
        ∃ g, BaseCatalog.cget W1 c = Ok g ∧ BaseCatalog.cget W2 c = Ok g.

(** The state [save] writes: every column, gathered. *)
Definition saved_data (W : list (BaseCatalog.t A V)) (cols : list string)
  : gmap string (list A) :=
  foldl (fun d name => <[name := gathered name W]> d) ∅ cols.

(** What rank [r] of [M] holds after [load]: for every saved column, its
    piece of the column. *)
Definition loaded_data (M : nat) (data : gmap string (list A)) (r : nat)
  : gmap string (BaseCatalog.value A) :=
  foldl (fun d name =>
           <[name := BaseCatalog.Array
                       (default [] (mpi.scatter_array M
                                      (default [] (data !! name)) !! r))]> d)
        ∅ (map_to_list data).*1.

(** The catalog [concatenate] starts from: the copy of the first argument,
    with the merged attributes. *)
Definition concatenate_start (others : list (list (BaseCatalog.t A V)))
    (cols : list string) (first : list (BaseCatalog.t A V))
  : list (BaseCatalog.t A V) :=
  imap (fun r self =>
          BaseCatalog.with_attrs self (BaseCatalog.concatenate_attrs others r))
       (BaseCatalog.copy_local cols <$> first).

(** What one rank holds of a column after a concatenation that moves no
    row: its rows of the first catalog, then its rows of the second. *)
Definition local_concat (column : string) (WA WB : list (BaseCatalog.t A V))
  : list (list A) :=
  zip_with (fun sA sB => local_column column sA ++ local_column column sB)
           WA WB.

(** The column [name] of a dict of columns; no row when the dict does not
    have it. *)
Definition dict_column (name : string) (d : list (string * list A)) : list A :=
  default [] (py.assoc name d).

(** The dicts the ranks give to [write], scattered: there is a rank, the
    dicts have the same keys [names], at least one, and the columns of one
    rank have the same number of rows. *)
Definition scattered_dicts (names : list string)
    (locals : list (list (string * list A))) : Prop :=
  names ≠ [] ∧ locals ≠ []
  ∧ Forall (fun d => d.*1 = names
                     ∧ ∃ n, Forall (fun col => length col = n) d.*2) locals.

(** What rank [r] writes of its dict [d] to the file of range
    [[start, stop)], given the row counts of the ranks. *)
Definition scattered_tmp (sizes : list Z) (start stop : Z) (r : nat)
    (d : list (string * list A)) : list (string * list A) :=
  match BaseFile.write_rows sizes (py.cumsum sizes) r start stop with
  | Ok rows => (fun '(name, col) => (name, py.getslice rows.1 rows.2 col)) <$> d
  | Raise _ => []
  end.

(** The first value among the options of a list. *)
Fixpoint first_some {T : Type} (l : list (option T)) : option T :=
  match l with
  | [] => None
  | Some x :: _ => Some x
  | None :: l' => first_some l'
  end.

End defs.

Section files.
Context {A V : Type}.

(** A file goes with the first one of a list when it has no column that
    the first has not, and its header has every other key of the header
    of the first. *)
Definition goes_with (di0 di : BaseFile.FileHeader V) : Prop :=
  (∀ c, c ∈ BaseFile.h_columns di -> c ∈ BaseFile.h_columns di0)
  ∧ (∀ name, name ∈ (BaseFile.h_extra di0).*1 ->
             name ∈ (BaseFile.h_extra di).*1).

(** The HDF5 files [filenames] of a disk hold the column [column] as
    [blocks], one block per file: every file is there, its dataset
    [column] is its block, all its datasets have the length of the block,
    and it has no dataset that the first file has not. *)
Definition hdf5_stored (disk : gmap string (HDF5File.group A V))
    (filenames : list string) (column : string) (blocks : list (list A))
  : Prop :=
  Forall2 (fun filename block =>
             ∃ grp, disk !! filename = Some grp
                    ∧ py.assoc column (HDF5File.datasets grp) = Some block
                    ∧ Forall (fun kv => length kv.2 = length block)
                             (HDF5File.datasets grp)
                    ∧ ∀ filename0 grp0,
                        filenames !! 0%nat = Some filename0 ->
                        disk !! filename0 = Some grp0 ->
                        ∀ c, c ∈ (HDF5File.datasets grp).*1 ->
                             c ∈ (HDF5File.datasets grp0).*1)
          filenames blocks.

End files.

Section catalogs.
Context {A V : Type} `{EqDecision A} `{BaseFile.Codec A V}.

(** The mapping of the catalog holds the column [column] as an array, and
    holds nothing but arrays of the length of this one. *)
Definition in_memory (column : string) (self : BaseCatalog.t A V) : Prop :=
  ∃ a, BaseCatalog.data self !! column = Some (BaseCatalog.Array a)
       ∧ ∀ c v, BaseCatalog.data self !! c = Some v ->
           ∃ b, v = BaseCatalog.Array b ∧ length b = length a.

(** [columns()] returns, with a column at least: the test of
    [concatenate] for the catalogs it keeps. *)
Definition has_columns (W : list (BaseCatalog.t A V)) : bool :=
  match BaseCatalog.columns W None None with
  | Ok (_ :: _) => true
  | _ => false
  end.

(** Catalogs on one communicator with the columns [cols], in any order. *)
Definition catalogs_with (Ws : list (list (BaseCatalog.t A V)))
    (cols : list string) (P : nat) : Prop :=
  Forall (fun W => length W = P
                   ∧ ∃ colsW, catalog_with W colsW
                              ∧ list_to_set colsW
                                =@{gset string} list_to_set cols) Ws.

End catalogs.

Section handlers.
Context {A D : Type} {handler : BaseFile.Writer A D}.

(** Calls [_write_file_slice(filename, data)] made one after the other:
    [calls] gives for each call the file name and the [data] of the
    ranks in rank order, and [d] is the state of the handler before the
    first. *)
Definition write_file_slices
    (calls : list (string * list (list (string * list A)))) (d : D)
  : result D :=
  foldM (fun d '(filename, tmps) => BaseFile._write_file_slice filename tmps d)
        d calls.

End handlers.

Section calls.
Context {A : Type}.

(** The rows of a column in the [data] the ranks give to the handler in
    one call, in rank order. *)
Definition handed (column : string) (tmps : list (list (string * list A)))
  : list A :=
  concat (dict_column column <$> tmps).

(** The calls of [get] with at most one default: [get(column)],
    [get(column, d)], [get(column, default=d)] and
    [get(column, d0, default=d)]. *)
Inductive get_call : Type :=
| GetPlain
| GetPositional (d : BaseCatalog.value A)
| GetKeyword (d : BaseCatalog.value A)
| GetBoth (d0 d : BaseCatalog.value A).

Definition call_args (call : get_call) : list (BaseCatalog.value A) :=
  match call with
  | GetPlain | GetKeyword _ => []
  | GetPositional d => [d]
  | GetBoth d0 _ => [d0]
  end.

Definition call_kwargs (call : get_call)
  : list (string * BaseCatalog.value A) :=
  match call with
  | GetPlain | GetPositional _ => []
  | GetKeyword d | GetBoth _ d => [("default", d)]
  end.

(** The default the caller gave, if any. *)
Definition call_default (call : get_call) : option (BaseCatalog.value A) :=
  match call with
  | GetPlain => None
  | GetPositional d | GetKeyword d | GetBoth _ d => Some d
  end.

End calls.
Arguments get_call : clear implicits.
End Spec.

(** * Proofs *)

(** ** The result monad *)
Section result_lemmas.
Context {X Y : Type}.

Lemma mapM_Ok_fmap (f : X -> result Y) (g : X -> Y) (l : list X) :
  (∀ x, x ∈ l -> f x = Ok (g x)) -> mapM f l = Ok (g <$> l).
Proof.
  induction l as [|x l IH]; intros Hf; [done|].
  cbn. rewrite (Hf x) by left. cbn.
  rewrite IH; [done|]. intros y Hy. apply Hf. by right.
Qed.

Lemma foldM_Ok_foldl (body : Y -> X -> result Y) (step : Y -> X -> Y)
    (l : list X) (s : Y) :
  (∀ s x, x ∈ l -> body s x = Ok (step s x)) ->
  foldM body s l = Ok (foldl step s l).
Proof.
  revert s. induction l as [|x l IH]; intros s Hb; [done|].
  cbn. rewrite (Hb s x) by left. cbn. apply IH.
  intros s' y Hy. apply Hb. by right.
Qed.
End result_lemmas.

(** ** Sums, prefix sums and the boundary search *)
Section arithmetic.

Lemma sum_app (l k : list Z) : py.sum (l ++ k) = py.sum l + py.sum k.
Proof. unfold py.sum. induction l as [|x l IH]; cbn; lia. Qed.

Lemma sum_nonneg (l : list Z) : Forall (fun n => 0 <= n) l -> 0 <= py.sum l.
Proof. unfold py.sum. induction 1 as [|x l Hx _ IH]; cbn in *; lia. Qed.

(** The sizes of [n] consecutive even blocks add up to the last boundary. *)
Lemma sum_blocks (total P : Z) (n : nat) :
  py.sum ((fun r : nat => (Z.of_nat r + 1) * total / P
                          - Z.of_nat r * total / P) <$> seq 0 n)
  = Z.of_nat n * total / P.
Proof.
  induction n as [|n IH]; [done|].
  rewrite seq_S, fmap_app, sum_app, IH. cbn.
  replace (Z.of_nat (S n)) with (Z.of_nat n + 1) by lia. lia.
Qed.

Lemma block_mono (total P a b : Z) :
  0 <= total -> 0 < P -> a <= b -> a * total / P <= b * total / P.
Proof. intros. apply Z.div_le_mono; [lia|nia]. Qed.

Lemma block_last (total P : Z) : 0 < P -> P * total / P = total.
Proof. intros. rewrite Z.mul_comm. apply Z.div_mul. lia. Qed.

End arithmetic.

(** ** [BaseFile._read_header] *)
Section read_header.
Context {A V : Type} `{!BaseFile.Codec A V}.

Lemma bind_Ok_inv {X Y : Type} (m : result X) (f : X -> result Y) (y : Y) :
  m ≫= f = Ok y -> ∃ x, m = Ok x ∧ f x = Ok y.
Proof. destruct m as [x|e]; cbn; [eauto|done]. Qed.

Lemma bind_Ok {X Y : Type} (x : X) (f : X -> result Y) : Ok x ≫= f = f x.
Proof. done. Qed.

(** One turn of the loop reads one header, appends its size, and merges
    its attributes under those already there. *)
Lemma header_step_Ok (s s' : BaseFile.hloop V) (filename : string) :
  BaseFile.header_step s filename = Ok s' ->
  ∃ di, BaseFile._read_file_header filename = Ok di
        ∧ BaseFile.l_csizes s' = BaseFile.l_csizes s ++ [BaseFile.h_size di]
        ∧ BaseFile.l_attrs s'
          = py.dict_merge (default ∅ (BaseFile.h_attrs di))
                          (BaseFile.l_attrs s)
        ∧ is_Some (BaseFile.l_columns s') ∧ is_Some (BaseFile.l_names s').
Proof.
  unfold BaseFile.header_step. intros Hs.
  apply bind_Ok_inv in Hs as (di & Hdi & Hs).
  apply bind_Ok_inv in Hs as (cols & _ & Hs).
  apply bind_Ok_inv in Hs as (ex & _ & Hs).
  injection Hs as <-. exists di. cbn. eauto.
Qed.

Lemma header_loop_Ok (filenames : list string) (s s' : BaseFile.hloop V) :
  foldM BaseFile.header_step s filenames = Ok s' ->
  ∃ his,
    Forall2 (fun fn di => BaseFile._read_file_header fn = Ok di) filenames his
    ∧ BaseFile.l_csizes s'
      = BaseFile.l_csizes s ++ (BaseFile.h_size <$> his)
    ∧ BaseFile.l_attrs s'
      = foldl (fun merged di =>
                 py.dict_merge (default ∅ (BaseFile.h_attrs di)) merged)
              (BaseFile.l_attrs s) his.
Proof.
  revert s. induction filenames as [|fn fns IH]; intros s Hs; cbn in Hs.
  - injection Hs as <-. exists []. by rewrite app_nil_r.
  - apply bind_Ok_inv in Hs as (s1 & H1 & Hs).
    apply header_step_Ok in H1 as (di & Hdi & Hsz & Hat & _).
    apply IH in Hs as (his & Hall & Hsz' & Hat').
    exists (di :: his). split; [by constructor|].
    rewrite Hsz', Hat', Hsz, Hat. cbn. by rewrite <- app_assoc.
Qed.

(** What the root broadcasts: the row counts of the files, in order. *)
Lemma read_header_root_Ok (root : BaseFile.t V) (state : BaseFile.bstate V) :
  BaseFile._read_header_root root = Ok state ->
  ∃ his,
    Forall2 (fun fn di => BaseFile._read_file_header fn = Ok di)
            (BaseFile.filenames root) his
    ∧ BaseFile.b_csizes state = BaseFile.h_size <$> his
    ∧ BaseFile.b_attrs state
      = foldl (fun merged di =>
                 py.dict_merge (default ∅ (BaseFile.h_attrs di)) merged)
              (BaseFile.attrs root) his.
Proof.
  unfold BaseFile._read_header_root. intros Hs.
  apply bind_Ok_inv in Hs as (s & Hloop & Hs).
  apply header_loop_Ok in Hloop as (his & Hall & Hsz & Hat).
  destruct (BaseFile.l_names s), (BaseFile.l_columns s); try done.
  injection Hs as <-. exists his. cbn. eauto.
Qed.

Lemma zip_with_bcast {X Y Z' : Type} (f : X -> Y -> Z') (x : X) (l : list Y) :
  zip_with f (mpi.bcast (length l) x) l = f x <$> l.
Proof. unfold mpi.bcast. induction l as [|y l IH]; cbn; [done|]. by f_equal. Qed.

Lemma read_header_fmap (W W' : list (BaseFile.t V)) (root : BaseFile.t V) :
  W !! 0%nat = Some root ->
  BaseFile._read_header W = Ok W' ->
  ∃ state, BaseFile._read_header_root root = Ok state
           ∧ W' = BaseFile._read_header_bind state <$> W.
Proof.
  intros Hroot HW. unfold BaseFile._read_header in HW.
  destruct W as [|root' W0]; [done|]. injection Hroot as ->.
  apply bind_Ok_inv in HW as (state & Hst & HW).
  rewrite zip_with_bcast in HW. injection HW as <-.
  by exists state.
Qed.

End read_header.

Section partition.
Context {A V : Type} `{!BaseFile.Codec A V}.

(** The header one rank binds, in terms of its place in the world. *)
Lemma read_header_bind_at (W : list (BaseFile.t V)) (state : BaseFile.bstate V)
    (r : nat) (self : BaseFile.t V) :
  Spec.comm_ok W -> W !! r = Some self ->
  let total := py.sum (BaseFile.b_csizes state) in
  let P := Z.of_nat (length W) in
  BaseFile.hdr (BaseFile._read_header_bind state self)
  = Some {| BaseFile.csizes := BaseFile.b_csizes state;
            BaseFile.columns := BaseFile.b_columns state;
            BaseFile.csize := total;
            BaseFile.start := Z.of_nat r * total / P;
            BaseFile.stop := (Z.of_nat r + 1) * total / P;
            BaseFile.size := (Z.of_nat r + 1) * total / P
                             - Z.of_nat r * total / P |}.
Proof.
  intros Hcomm Hr. unfold BaseFile._read_header_bind.
  by rewrite (Hcomm r self Hr).
Qed.

Lemma local_sizes_blocks (W : list (BaseFile.t V)) (state : BaseFile.bstate V) :
  Spec.comm_ok W ->
  Spec.local_size <$> (BaseFile._read_header_bind state <$> W)
  = (fun r : nat =>
       (Z.of_nat r + 1) * py.sum (BaseFile.b_csizes state) / Z.of_nat (length W)
       - Z.of_nat r * py.sum (BaseFile.b_csizes state) / Z.of_nat (length W))
      <$> seq 0 (length W).
Proof.
  intros Hcomm. apply list_eq. intros r.
  rewrite !list_lookup_fmap.
  destruct (W !! r) as [self|] eqn:Hr.
  - rewrite lookup_seq_lt by (by eapply lookup_lt_Some).
    unfold Spec.local_size. cbn. by rewrite (Hcomm r self Hr).
  - rewrite lookup_seq_ge; [done|]. by apply lookup_ge_None.
Qed.

(** The header every rank holds after [_read_header]: the row counts the
    files report, and the interval of the rank. *)
Lemma read_header_intervals (W W' : list (BaseFile.t V)) (root : BaseFile.t V) :
  W !! 0%nat = Some root ->
  Spec.comm_ok W ->
  BaseFile._read_header W = Ok W' ->
  ∃ sizes : list Z,
    Forall2 (fun fn n => ∃ di, BaseFile._read_file_header fn = Ok di
                               ∧ BaseFile.h_size di = n)
            (BaseFile.filenames root) sizes
    ∧ length W' = length W
    ∧ ∀ (r : nat) self, W' !! r = Some self ->
        ∃ h, BaseFile.hdr self = Some h
             ∧ BaseFile.csizes h = sizes
             ∧ BaseFile.csize h = py.sum sizes
             ∧ BaseFile.start h
               = Z.of_nat r * py.sum sizes / Z.of_nat (length W)
             ∧ BaseFile.stop h
               = (Z.of_nat r + 1) * py.sum sizes / Z.of_nat (length W)
             ∧ BaseFile.size h = BaseFile.stop h - BaseFile.start h.
Proof.
  intros Hroot Hcomm HW.
  destruct (read_header_fmap W W' root Hroot HW) as (state & Hstate & ->).
  destruct (read_header_root_Ok root state Hstate) as (his & Hhis & Hsz & _).
  exists (BaseFile.b_csizes state). split; [|split].
  - rewrite Hsz. apply Forall2_fmap_r.
    eapply Forall2_impl; [exact Hhis|]. cbn. eauto.
  - by rewrite length_fmap.
  - intros r self Hr. rewrite list_lookup_fmap in Hr.
    destruct (W !! r) as [self0|] eqn:Hr0; [|done]. injection Hr as <-.
    eexists. split; [by apply read_header_bind_at|]. by cbn.
Qed.

(** C1: after [_read_header] on a world of P >= 1 ranks, rank r holds the
    interval [r*total//P, (r+1)*total//P) of the total of the files' row
    counts; the first block starts at 0, each block ends where the next
    starts, the last ends at the total; when the row counts are not
    negative the blocks do not overlap; and the local sizes add up to the
    total. *)
Theorem read_header_blocks (W W' : list (BaseFile.t V)) (root : BaseFile.t V) :
  W !! 0%nat = Some root ->
  Spec.comm_ok W ->
  BaseFile._read_header W = Ok W' ->
  ∃ sizes : list Z,
    Forall2 (fun fn n => ∃ di, BaseFile._read_file_header fn = Ok di
                               ∧ BaseFile.h_size di = n)
            (BaseFile.filenames root) sizes
    ∧ length W' = length W
    ∧ (∀ (r : nat) self, W' !! r = Some self ->
         ∃ h, BaseFile.hdr self = Some h
              ∧ BaseFile.csizes h = sizes
              ∧ BaseFile.csize h = py.sum sizes
              ∧ BaseFile.start h
                = Z.of_nat r * py.sum sizes / Z.of_nat (length W)
              ∧ BaseFile.stop h
                = (Z.of_nat r + 1) * py.sum sizes / Z.of_nat (length W)
              ∧ BaseFile.size h = BaseFile.stop h - BaseFile.start h)
    ∧ (∀ self h, W' !! 0%nat = Some self -> BaseFile.hdr self = Some h ->
         BaseFile.start h = 0)
    ∧ (∀ (r : nat) self next h h',
         W' !! r = Some self -> W' !! S r = Some next ->
         BaseFile.hdr self = Some h -> BaseFile.hdr next = Some h' ->
         BaseFile.stop h = BaseFile.start h')
    ∧ (∀ self h, W' !! (length W - 1)%nat = Some self ->
         BaseFile.hdr self = Some h -> BaseFile.stop h = py.sum sizes)
    ∧ (Forall (fun n => 0 <= n) sizes ->
       ∀ (r r' : nat) self self' h h',
         (r < r')%nat -> W' !! r = Some self -> W' !! r' = Some self' ->
         BaseFile.hdr self = Some h -> BaseFile.hdr self' = Some h' ->
         BaseFile.start h <= BaseFile.stop h
         ∧ BaseFile.stop h <= BaseFile.start h')
    ∧ py.sum (Spec.local_size <$> W') = py.sum sizes.
Proof.
  intros Hroot Hcomm HW.
  destruct (read_header_fmap W W' root Hroot HW) as (state & Hstate & ->).
  destruct (read_header_root_Ok root state Hstate) as (his & Hhis & Hsz & _).
  assert (HP : 0 < Z.of_nat (length W)).
  { apply lookup_lt_Some in Hroot. lia. }
  assert (Hat : ∀ (r : nat) self,
             (BaseFile._read_header_bind state <$> W) !! r = Some self ->
             ∃ self0, W !! r = Some self0
                      ∧ self = BaseFile._read_header_bind state self0).
  { intros r self Hr. rewrite list_lookup_fmap in Hr.
    destruct (W !! r) as [self0|]; [|done]. injection Hr as <-. eauto. }
  assert (Hnn : Forall (fun n => 0 <= n) (BaseFile.b_csizes state) ->
                0 <= py.sum (BaseFile.b_csizes state)).
  { apply sum_nonneg. }
  exists (BaseFile.b_csizes state).
  split; [|split; [|split; [|split; [|split; [|split; [|split]]]]]].
  - rewrite Hsz. apply Forall2_fmap_r.
    eapply Forall2_impl; [exact Hhis|]. cbn. eauto.
  - by rewrite length_fmap.
  - intros r self Hr. destruct (Hat r self Hr) as (self0 & Hr0 & ->).
    eexists. split; [by apply read_header_bind_at|]. by cbn.
  - intros self h Hr Hh. destruct (Hat _ _ Hr) as (self0 & Hr0 & ->).
    rewrite (read_header_bind_at W state _ self0 Hcomm Hr0) in Hh.
    injection Hh as <-. by cbn.
  - intros r self next h h' Hr Hr' Hh Hh'.
    destruct (Hat _ _ Hr) as (self0 & Hr0 & ->).
    destruct (Hat _ _ Hr') as (next0 & Hr0' & ->).
    rewrite (read_header_bind_at W state _ self0 Hcomm Hr0) in Hh.
    rewrite (read_header_bind_at W state _ next0 Hcomm Hr0') in Hh'.
    injection Hh as <-. injection Hh' as <-. cbn. f_equal. lia.
  - intros self h Hr Hh. destruct (Hat _ _ Hr) as (self0 & Hr0 & ->).
    rewrite (read_header_bind_at W state _ self0 Hcomm Hr0) in Hh.
    injection Hh as <-. cbn.
    replace (Z.of_nat (length W - 1) + 1) with (Z.of_nat (length W)) by lia.
    by apply block_last.
  - intros Hpos r r' self self' h h' Hlt Hr Hr' Hh Hh'.
    destruct (Hat _ _ Hr) as (self0 & Hr0 & ->).
    destruct (Hat _ _ Hr') as (self1 & Hr1 & ->).
    rewrite (read_header_bind_at W state _ self0 Hcomm Hr0) in Hh.
    rewrite (read_header_bind_at W state _ self1 Hcomm Hr1) in Hh'.
    injection Hh as <-. injection Hh' as <-. cbn.
    split; apply block_mono; auto; lia.
  - rewrite local_sizes_blocks by done. rewrite sum_blocks.
    by apply block_last.
Qed.

End partition.

Section partition_examples.
Import Examples.

Lemma comm_ok_handles (P : nat) (names : list string) :
  Spec.comm_ok (handles P names).
Proof.
  intros r self Hr. unfold handles in *.
  rewrite list_lookup_fmap in Hr.
  destruct (seq 0 P !! r) as [r'|] eqn:Hseq; [|done].
  apply lookup_seq in Hseq as [-> _]. injection Hr as <-.
  cbn. by rewrite length_fmap, length_seq.
Qed.

Lemma read_header_blocks_witness :
  BaseFile._read_header (H := HDF5File.codec disk3) (handles 2 names3)
  = Ok opened3
  ∧ py.sum (Spec.local_size <$> opened3) = 22.
Proof.
  assert (Hrun : BaseFile._read_header (H := HDF5File.codec disk3)
                   (handles 2 names3) = Ok opened3) by (vm_compute; reflexivity).
  split; [exact Hrun|].
  destruct (read_header_blocks (H := HDF5File.codec disk3)
              (handles 2 names3) opened3
              {| BaseFile.filenames := names3; BaseFile.attrs := ∅;
                 BaseFile.extra := ∅; BaseFile.mpicomm := mpi.Comm 0 2;
                 BaseFile.mpiroot := 0; BaseFile.hdr := None |}
              eq_refl (comm_ok_handles 2 names3) Hrun)
    as (sizes & _ & _ & Hblocks & _ & _ & _ & _ & Hsum).
  rewrite Hsum.
  destruct (Hblocks 0%nat _ eq_refl) as (h & Hh & _ & Hcsize & _).
  rewrite <- Hcsize. vm_compute in Hh. injection Hh as <-. reflexivity.
Defined.

End partition_examples.

(** ** Merging dictionaries *)
Section merges.
Context {T : Type}.

Lemma lookup_dict_merge (a b : gmap string T) (k : string) :
  py.dict_merge a b !! k = Spec.first_some [b !! k; a !! k].
Proof.
  unfold py.dict_merge. rewrite lookup_union.
  destruct (b !! k), (a !! k); done.
Qed.

Lemma first_some_app (l k : list (option T)) :
  Spec.first_some (l ++ k)
  = Spec.first_some [Spec.first_some l; Spec.first_some k].
Proof.
  induction l as [|[x|] l IH]; cbn.
  - by destruct (Spec.first_some k).
  - done.
  - rewrite IH. cbn. by destruct (Spec.first_some l).
Qed.

(** Merging each new dictionary under what is there: the first wins. *)
Lemma lookup_merge_under {X : Type} (f : X -> gmap string T) (l : list X)
    (init : gmap string T) (k : string) :
  foldl (fun merged x => py.dict_merge (f x) merged) init l !! k
  = Spec.first_some (init !! k :: ((fun x => f x !! k) <$> l)).
Proof.
  revert init. induction l as [|x l IH]; intros init; cbn.
  - by destruct (init !! k).
  - rewrite IH, lookup_dict_merge. cbn. by destruct (init !! k), (f x !! k).
Qed.

(** Merging each new dictionary over what is there: the last wins. *)
Lemma lookup_merge_over {X : Type} (f : X -> option (gmap string T))
    (l : list X) (init : gmap string T) (k : string) :
  foldl (fun merged x =>
           match f x with
           | Some d => py.dict_merge merged d
           | None => merged
           end) init l !! k
  = Spec.first_some (rev ((fun x => f x ≫= (.!! k)) <$> l) ++ [init !! k]).
Proof.
  revert init. induction l as [|x l IH]; intros init; cbn.
  - by destruct (init !! k).
  - rewrite IH, <- app_assoc, !first_some_app. f_equal. f_equal. cbn.
    destruct (f x) as [d|]; cbn.
    + rewrite lookup_dict_merge. cbn. by destruct (d !! k), (init !! k).
    + by destruct (init !! k).
Qed.

End merges.

(** ** Catalogs: one rank *)
Section catalog_local.
Context {A V : Type} `{!EqDecision A} `{!BaseFile.Codec A V}.
Implicit Types (self : BaseCatalog.t A V) (v : BaseCatalog.value A).

Lemma get_hit self (column : string) v :
  BaseCatalog.data self !! column = Some v ->
  BaseCatalog.get self column [] []
  = {| BaseCatalog.returned := Ok v; BaseCatalog.after := self;
       BaseCatalog.source_reads := [] |}.
Proof. intros Hd. unfold BaseCatalog.get. cbn. by rewrite Hd. Qed.

Lemma getitem_hit self (column : string) v :
  BaseCatalog.data self !! column = Some v ->
  BaseCatalog.__getitem__ self column = Ok v.
Proof.
  intros Hd. unfold BaseCatalog.__getitem__. by rewrite (get_hit _ _ v).
Qed.

(** Setting columns one after the other: a column that was set holds the
    value given for it, the others are untouched. *)
Lemma foldl_set_data (val : string -> BaseCatalog.value A)
    (cols : list string) self (c : string) :
  BaseCatalog.data
    (foldl (fun s x => BaseCatalog.set s x (val x)) self cols) !! c
  = if decide (c ∈ cols) then Some (val c) else BaseCatalog.data self !! c.
Proof.
  revert self. induction cols as [|x cols IH]; intros self; cbn.
  - case_decide as Hc; [|done]. by apply elem_of_nil in Hc.
  - rewrite IH. destruct (decide (c ∈ cols)) as [Hin|Hnin].
    + rewrite decide_True; [done|]. by right.
    + cbn. destruct (decide (c = x)) as [->|Hne].
      * rewrite lookup_insert_eq. rewrite decide_True; [done|]. by left.
      * rewrite lookup_insert_ne by done. rewrite decide_False; [done|].
        intros Hc. apply elem_of_cons in Hc as [?|?]; done.
Qed.

End catalog_local.

(** ** Worlds: a loop that updates every rank with its piece *)
Section world_loops.
Context {S Pc X : Type}.

Lemma foldl_zip_with_length (u : X -> S -> Pc -> S) (pieces : X -> list Pc)
    (xs : list X) (W : list S) :
  (∀ x, x ∈ xs -> length (pieces x) = length W) ->
  length (foldl (fun W x => zip_with (u x) W (pieces x)) W xs) = length W.
Proof.
  revert W. induction xs as [|x xs IH]; intros W Hlen; cbn; [done|].
  assert (Hx : length (zip_with (u x) W (pieces x)) = length W).
  { rewrite length_zip_with, Hlen by left. lia. }
  rewrite IH; [done|]. intros y Hy. rewrite Hx. apply Hlen. by right.
Qed.

Lemma foldl_zip_with_lookup (u : X -> S -> Pc -> S) (pieces : X -> list Pc)
    (pc : X -> Pc) (xs : list X) (W : list S) (r : nat) (s : S) :
  (∀ x, x ∈ xs -> pieces x !! r = Some (pc x)) ->
  W !! r = Some s ->
  foldl (fun W x => zip_with (u x) W (pieces x)) W xs !! r
  = Some (foldl (fun s x => u x s (pc x)) s xs).
Proof.
  revert W s. induction xs as [|x xs IH]; intros W s Hpc Hr; cbn; [done|].
  apply IH.
  - intros y Hy. apply Hpc. by right.
  - rewrite lookup_zip_with, Hr. cbn. rewrite Hpc by left. done.
Qed.

(** A loop whose body may raise, under an invariant that makes it
    succeed. *)
Lemma foldM_Ok_invariant (Inv : S -> Prop) (body : S -> X -> result S)
    (step : S -> X -> S) (l : list X) (s : S) :
  Inv s ->
  (∀ s x, Inv s -> x ∈ l -> body s x = Ok (step s x) ∧ Inv (step s x)) ->
  foldM body s l = Ok (foldl step s l) ∧ Inv (foldl step s l).
Proof.
  revert s. induction l as [|x l IH]; intros s Hs Hb; [done|].
  cbn. destruct (Hb s x Hs) as [-> Hs']; [by left|]. cbn.
  apply IH; [done|]. intros s' y HI Hy. apply Hb; [done|by right].
Qed.

End world_loops.

(** ** Rows of an array cut into blocks *)
Section slices.
Context {T : Type}.
Implicit Types (l : list T) (blocks : list (list T)).

Lemma rows_app l1 l2 (s e : Z) :
  Spec.rows s e (l1 ++ l2)
  = Spec.rows s e l1
    ++ Spec.rows (s - Z.of_nat (length l1)) (e - Z.of_nat (length l1)) l2.
Proof.
  unfold Spec.rows. rewrite drop_app, take_app, length_drop.
  f_equal. f_equal; [lia|f_equal; lia].
Qed.

Lemma rows_nil_before l (s e : Z) :
  Z.of_nat (length l) <= s -> Spec.rows s e l = [].
Proof.
  intros. unfold Spec.rows. rewrite drop_ge by lia. by rewrite take_nil.
Qed.

Lemma rows_nil_after l (s e : Z) : e <= 0 -> Spec.rows s e l = [].
Proof.
  intros. unfold Spec.rows. by replace (Z.to_nat e - Z.to_nat s)%nat with 0%nat by lia.
Qed.

(** Clipping the bounds to the array changes nothing. *)
Lemma rows_clip l (s e : Z) :
  Spec.rows (Z.max s 0) (Z.min e (Z.of_nat (length l))) l = Spec.rows s e l.
Proof.
  unfold Spec.rows.
  replace (Z.to_nat (Z.max s 0)) with (Z.to_nat s) by lia.
  destruct (decide (e <= Z.of_nat (length l))).
  - by replace (Z.min e (Z.of_nat (length l))) with e by lia.
  - rewrite !take_ge; [done| |]; rewrite length_drop; lia.
Qed.

(** [l[a:b]] for bounds inside the array. *)
Lemma getslice_rows l (a b : Z) :
  0 <= a -> a <= b -> b <= Z.of_nat (length l) ->
  py.getslice a b l = Spec.rows a b l.
Proof.
  intros. unfold py.getslice, py.slice_index, Spec.rows.
  rewrite !decide_False by lia.
  f_equal; [lia|f_equal; lia].
Qed.

Lemma offset_app_l blocks l (i : nat) :
  (i <= length blocks)%nat -> Spec.offset (blocks ++ [l]) i = Spec.offset blocks i.
Proof. intros. unfold Spec.offset. by rewrite take_app_le. Qed.

(** Cutting [[s, e)] out of each block, moved to the block's place, and
    putting the pieces together gives the rows [[s, e)] of the whole. *)
Lemma rows_blocks blocks (s e : Z) :
  concat ((fun i => Spec.rows (s - Spec.offset blocks i) (e - Spec.offset blocks i)
                      (default [] (blocks !! i)))
            <$> seq 0 (length blocks))
  = Spec.rows s e (concat blocks).
Proof.
  induction blocks as [|l blocks IH] using rev_ind.
  { cbn. unfold Spec.rows. by rewrite drop_nil, take_nil. }
  rewrite length_app, Nat.add_1_r, seq_S, fmap_app, !concat_app. cbn.
  rewrite app_nil_r, rows_app, <- IH. f_equal.
  - f_equal. apply list_fmap_ext. intros j i Hi%lookup_seq.
    destruct Hi as [-> Hi]. cbn.
    rewrite offset_app_l by lia. by rewrite lookup_app_l by lia.
  - rewrite lookup_app_r, Nat.sub_diag by lia. cbn.
    unfold Spec.offset. by rewrite take_app_length, app_nil_r.
Qed.

End slices.

(** ** Prefix sums and the boundary search over blocks *)
Section boundaries.
Context {T : Type}.
Implicit Types (blocks : list (list T)).

Lemma offset_0 blocks : Spec.offset blocks 0 = 0.
Proof. done. Qed.

Lemma offset_S blocks (i : nat) l :
  blocks !! i = Some l ->
  Spec.offset blocks (S i) = Spec.offset blocks i + Z.of_nat (length l).
Proof.
  intros Hi. unfold Spec.offset. rewrite (take_S_r _ _ _ Hi), concat_app.
  cbn. rewrite app_nil_r, length_app. lia.
Qed.

Lemma offset_mono blocks (i j : nat) :
  (i <= j)%nat -> Spec.offset blocks i <= Spec.offset blocks j.
Proof.
  induction 1 as [|j Hij IH]; [lia|].
  destruct (blocks !! j) as [l|] eqn:Hj.
  - rewrite (offset_S _ _ _ Hj). lia.
  - unfold Spec.offset in *. apply lookup_ge_None in Hj.
    rewrite (take_ge blocks j) in IH by lia.
    by rewrite (take_ge blocks (S j)) by lia.
Qed.

Lemma offset_total blocks :
  Spec.offset blocks (length blocks) = py.sum (Spec.lens blocks).
Proof.
  unfold Spec.offset, Spec.lens, py.sum. rewrite firstn_all.
  induction blocks as [|l blocks IH]; cbn; [done|].
  rewrite length_app. lia.
Qed.

Lemma cumsum_from_lookup blocks (acc : Z) (i : nat) :
  (i < length blocks)%nat ->
  py.cumsum_from acc (Spec.lens blocks) !! i
  = Some (acc + Spec.offset blocks (S i)).
Proof.
  revert acc i. induction blocks as [|l blocks IH]; intros acc i Hi;
    cbn in Hi; [lia|].
  destruct i as [|i]; cbn.
  - f_equal. unfold Spec.offset. cbn. rewrite app_nil_r. lia.
  - rewrite IH by lia. f_equal. unfold Spec.offset. cbn.
    rewrite !length_app. cbn. lia.
Qed.

Lemma cumsum_lookup blocks (i : nat) :
  (i < length blocks)%nat ->
  py.cumsum (Spec.lens blocks) !! i = Some (Spec.offset blocks (S i)).
Proof. intros. unfold py.cumsum. by rewrite cumsum_from_lookup. Qed.

Lemma length_cumsum_from (acc : Z) (l : list Z) :
  length (py.cumsum_from acc l) = length l.
Proof. revert acc. induction l as [|x l IH]; intros acc; cbn; [done|]. by rewrite IH. Qed.

Lemma length_cumsum_lens blocks :
  length (py.cumsum (Spec.lens blocks)) = length blocks.
Proof. unfold py.cumsum, Spec.lens. by rewrite length_cumsum_from, length_fmap. Qed.

Lemma cumsum_lookup_inv blocks (i : nat) (x : Z) :
  py.cumsum (Spec.lens blocks) !! i = Some x ->
  (i < length blocks)%nat ∧ x = Spec.offset blocks (S i).
Proof.
  intros Hi. assert (i < length blocks)%nat as Hlt.
  { apply lookup_lt_Some in Hi. by rewrite length_cumsum_lens in Hi. }
  split; [done|]. rewrite cumsum_lookup in Hi by done. by injection Hi.
Qed.

(** The boundary search stops at the first element that is not below
    [v]. *)
Lemma searchsorted_left_below (a : list Z) (v : Z) (i : nat) :
  (i < py.searchsorted_left a v)%nat -> ∃ x, a !! i = Some x ∧ x < v.
Proof.
  revert i. induction a as [|x a IH]; intros i Hi; cbn in Hi; [lia|].
  destruct (decide (x < v)); [|lia].
  destruct i as [|i]; cbn; [eauto|]. apply IH. lia.
Qed.

Lemma searchsorted_left_at (a : list Z) (v x : Z) :
  a !! py.searchsorted_left a v = Some x -> v <= x.
Proof.
  induction a as [|y a IH]; cbn; [done|].
  destruct (decide (y < v)); cbn; [done|]. intros [= ->]. lia.
Qed.

(** On the prefix sums of blocks, which never decrease, every boundary
    from the one found on is at least [v]. *)
Lemma searchsorted_left_above blocks (v : Z) (i : nat) :
  (py.searchsorted_left (py.cumsum (Spec.lens blocks)) v <= i)%nat ->
  (i < length blocks)%nat ->
  v <= Spec.offset blocks (S i).
Proof.
  intros Hle Hi.
  destruct (py.cumsum (Spec.lens blocks)
              !! py.searchsorted_left (py.cumsum (Spec.lens blocks)) v)
    as [x|] eqn:Hx.
  - pose proof (searchsorted_left_at _ _ _ Hx) as Hv.
    apply cumsum_lookup_inv in Hx as [_ ->].
    assert (Hm := offset_mono blocks
                    (S (py.searchsorted_left (py.cumsum (Spec.lens blocks)) v))
                    (S i)).
    lia.
  - apply lookup_ge_None in Hx. rewrite length_cumsum_lens in Hx. lia.
Qed.

Lemma searchsorted_left_offset_below blocks (v : Z) (i : nat) :
  (i < py.searchsorted_left (py.cumsum (Spec.lens blocks)) v)%nat ->
  Spec.offset blocks (S i) < v.
Proof.
  intros Hi. apply searchsorted_left_below in Hi as (x & Hx & Hlt).
  by apply cumsum_lookup_inv in Hx as [_ <-].
Qed.

Lemma searchsorted_left_mono (a : list Z) (v w : Z) :
  v <= w -> (py.searchsorted_left a v <= py.searchsorted_left a w)%nat.
Proof.
  intros. induction a as [|y a IH]; cbn; [lia|].
  repeat case_decide; lia.
Qed.

(** The search for a bound that is not above the total stays inside the
    list of blocks. *)
Lemma searchsorted_left_inside blocks (v : Z) :
  blocks ≠ [] -> v <= py.sum (Spec.lens blocks) ->
  (py.searchsorted_left (py.cumsum (Spec.lens blocks)) v < length blocks)%nat.
Proof.
  intros Hne Hv.
  destruct (decide (py.searchsorted_left (py.cumsum (Spec.lens blocks)) v
                    < length blocks)%nat) as [|Hge]; [done|].
  assert (0 < length blocks)%nat by (destruct blocks; [done|cbn; lia]).
  pose proof (searchsorted_left_offset_below blocks v (length blocks - 1)
                ltac:(lia)) as Hlt.
  replace (S (length blocks - 1)) with (length blocks) in Hlt by lia.
  rewrite offset_total in Hlt. lia.
Qed.

End boundaries.

(** ** The blocks that meet an interval *)
Section interval.
Context {T : Type}.
Implicit Types (blocks : list (list T)).

Lemma concat_fmap_nil {X : Type} (f : X -> list T) (l : list X) :
  (∀ x, x ∈ l -> f x = []) -> concat (f <$> l) = [].
Proof.
  induction l as [|x l IH]; intros Hf; cbn; [done|].
  rewrite (Hf x) by left. cbn. apply IH. intros y Hy. apply Hf. by right.
Qed.

(** A block before the first one found holds no row of the interval. *)
Lemma rows_before_start blocks (s e : Z) (i : nat) :
  (i < py.searchsorted_left (py.cumsum (Spec.lens blocks)) s)%nat ->
  Spec.rows (s - Spec.offset blocks i) (e - Spec.offset blocks i)
    (default [] (blocks !! i)) = [].
Proof.
  intros Hi. pose proof (searchsorted_left_offset_below blocks s i Hi) as Hlt.
  destruct (blocks !! i) as [l|] eqn:Hl; cbn.
  - rewrite (offset_S _ _ _ Hl) in Hlt. apply rows_nil_before. lia.
  - apply rows_nil_before. cbn. apply lookup_ge_None in Hl.
    unfold Spec.offset in *. rewrite take_ge in Hlt by lia.
    rewrite take_ge by lia. lia.
Qed.

(** A block after the last one found holds no row of the interval. *)
Lemma rows_after_stop blocks (s e : Z) (i : nat) :
  (py.searchsorted_left (py.cumsum (Spec.lens blocks)) e < i)%nat ->
  Spec.rows (s - Spec.offset blocks i) (e - Spec.offset blocks i)
    (default [] (blocks !! i)) = [].
Proof.
  intros Hi. destruct (blocks !! i) as [l|] eqn:Hl; cbn.
  - apply rows_nil_after. destruct i as [|i]; [lia|].
    pose proof (searchsorted_left_above blocks e i ltac:(lia)) as Hle.
    apply lookup_lt_Some in Hl. lia.
  - unfold Spec.rows. by rewrite drop_nil, take_nil.
Qed.

(** The bounds the loops of [read] and [write] compute for a block
    between the two found are bounds inside the block. *)
Lemma rows_bounds_inside blocks (s e : Z) (i : nat) l :
  0 <= s -> s <= e ->
  (py.searchsorted_left (py.cumsum (Spec.lens blocks)) s <= i)%nat ->
  (i <= py.searchsorted_left (py.cumsum (Spec.lens blocks)) e)%nat ->
  blocks !! i = Some l ->
  0 <= Z.max (s - Spec.offset blocks i) 0
  ∧ Z.max (s - Spec.offset blocks i) 0
    <= Z.min (e - Spec.offset blocks i) (Z.of_nat (length l))
  ∧ Z.min (e - Spec.offset blocks i) (Z.of_nat (length l))
    <= Z.of_nat (length l).
Proof.
  intros Hs Hse Hlo Hhi Hl.
  pose proof (searchsorted_left_above blocks s i Hlo
                (lookup_lt_Some _ _ _ Hl)) as Hle.
  rewrite (offset_S _ _ _ Hl) in Hle.
  assert (Spec.offset blocks i <= e) as He.
  { destruct i as [|i]; [by rewrite offset_0; lia|].
    pose proof (searchsorted_left_offset_below blocks e i ltac:(lia)). lia. }
  lia.
Qed.

(** The pieces of the blocks between the two found make the rows of the
    interval. *)
Lemma rows_range blocks (s e : Z) :
  blocks ≠ [] -> s <= e -> e <= py.sum (Spec.lens blocks) ->
  let lo := py.searchsorted_left (py.cumsum (Spec.lens blocks)) s in
  let hi := py.searchsorted_left (py.cumsum (Spec.lens blocks)) e in
  (lo <= hi)%nat ∧ (hi < length blocks)%nat
  ∧ concat ((fun i => Spec.rows (s - Spec.offset blocks i)
                        (e - Spec.offset blocks i) (default [] (blocks !! i)))
              <$> py.range lo (hi + 1))
    = Spec.rows s e (concat blocks).
Proof.
  intros Hne Hse He lo hi.
  assert (Hlohi : (lo <= hi)%nat) by (by apply searchsorted_left_mono).
  assert (Hhi : (hi < length blocks)%nat)
    by (by apply searchsorted_left_inside).
  split; [done|]. split; [done|].
  rewrite <- (rows_blocks blocks s e). unfold py.range.
  replace (length blocks)
    with (lo + ((hi + 1 - lo) + (length blocks - (hi + 1))))%nat by lia.
  rewrite !seq_app, !fmap_app, !concat_app.
  rewrite (concat_fmap_nil _ (seq 0 lo)).
  2:{ intros i Hi%elem_of_seq. apply rows_before_start. fold lo. lia. }
  rewrite (concat_fmap_nil _ (seq _ (length blocks - (hi + 1)))).
  2:{ intros i Hi%elem_of_seq. apply rows_after_stop. fold hi. lia. }
  cbn. by rewrite app_nil_r.
Qed.

End interval.

(** ** [BaseFile.read] *)
Section read.
Context {A V : Type} `{!BaseFile.Codec A V}.

Lemma offset_strict {T : Type} (blocks : list (list T)) (i j : nat) :
  Forall (fun l => l ≠ []) blocks ->
  (i < j)%nat -> (j <= length blocks)%nat ->
  Spec.offset blocks i < Spec.offset blocks j.
Proof.
  intros Hpos. induction 1 as [|j Hij IH]; intros Hj.
  - destruct (lookup_lt_is_Some_2 blocks i ltac:(lia)) as [l Hl].
    rewrite (offset_S _ _ _ Hl).
    assert (l ≠ []) by exact (Forall_lookup_1 _ _ _ _ Hpos Hl).
    destruct l; [done|cbn; lia].
  - destruct (lookup_lt_is_Some_2 blocks j ltac:(lia)) as [l Hl].
    rewrite (offset_S _ _ _ Hl). specialize (IH ltac:(lia)). lia.
Qed.

(** A bound that is the end of a block, none of them empty, is sent to
    that block: the one that ends there, before the one that starts
    there. *)
Lemma searchsorted_left_boundary {T : Type} (blocks : list (list T)) (i : nat) :
  Forall (fun l => l ≠ []) blocks ->
  (i < length blocks)%nat ->
  py.searchsorted_left (py.cumsum (Spec.lens blocks))
    (Spec.offset blocks (S i)) = i.
Proof.
  intros Hpos Hi.
  set (k := py.searchsorted_left _ _).
  destruct (decide (i < k)%nat) as [Hlt|Hge].
  { pose proof (searchsorted_left_offset_below blocks _ i Hlt). lia. }
  destruct (decide (k < i)%nat) as [Hlt|]; [|lia].
  pose proof (searchsorted_left_above blocks (Spec.offset blocks (S i)) k
                ltac:(fold k; lia) ltac:(lia)).
  pose proof (offset_strict blocks (S k) (S i) Hpos ltac:(lia) ltac:(lia)).
  lia.
Qed.

Lemma column_stored_lens (filenames : list string) (column : string)
    (blocks : list (list A)) (sizes : list Z) :
  Spec.column_stored filenames column blocks ->
  Forall2 (fun fn n => ∃ di, BaseFile._read_file_header fn = Ok di
                             ∧ BaseFile.h_size di = n) filenames sizes ->
  sizes = Spec.lens blocks.
Proof.
  unfold Spec.column_stored, Spec.lens. intros Hst. revert sizes.
  induction Hst as [|fn blk fns blks [(di & Hdi & Hsz) _] _ IH];
    intros sizes Hs; inversion Hs as [|? n ? ns (di' & Hdi' & Hn) Hns]; subst;
    [done|].
  cbn. f_equal; [congruence|]. by apply IH.
Qed.

(** One rank reads the rows of its interval. *)
Lemma read_local_rows (self : BaseFile.t V) (h : BaseFile.header)
    (column : string) (blocks : list (list A)) :
  Spec.column_stored (BaseFile.filenames self) column blocks ->
  BaseFile.csizes h = Spec.lens blocks ->
  blocks ≠ [] ->
  0 <= BaseFile.start h -> BaseFile.start h <= BaseFile.stop h ->
  BaseFile.stop h <= py.sum (Spec.lens blocks) ->
  BaseFile.read_local self h column
  = Ok (Spec.rows (BaseFile.start h) (BaseFile.stop h) (concat blocks)).
Proof.
  intros Hst Hsz Hne Hs Hse He. unfold BaseFile.read_local. rewrite Hsz.
  destruct (rows_range blocks _ _ Hne Hse He) as (Hlohi & Hhi & Hrows).
  set (lo := py.searchsorted_left _ (BaseFile.start h)) in *.
  set (hi := py.searchsorted_left _ (BaseFile.stop h)) in *.
  rewrite (mapM_Ok_fmap _
             (fun i => Spec.rows (BaseFile.start h - Spec.offset blocks i)
                         (BaseFile.stop h - Spec.offset blocks i)
                         (default [] (blocks !! i)))).
  - cbn. rewrite <- Hrows. unfold py.range.
    replace (hi + 1 - lo)%nat with (S (hi - lo)) by lia. done.
  - intros i Hi. unfold py.range in Hi. apply elem_of_seq in Hi.
    destruct (lookup_lt_is_Some_2 blocks i ltac:(lia)) as [l Hl].
    destruct (Forall2_lookup_r _ _ _ _ _ Hst Hl)
      as (fn & Hfn & _ & Hslice).
    unfold BaseFile.read_file.
    assert (Hcum : (if decide (i = 0%nat) then Ok 0
                    else py.getitem (py.cumsum (Spec.lens blocks)) (i - 1))
                   = Ok (Spec.offset blocks i)).
    { destruct i as [|i]; [done|]. rewrite decide_False by lia.
      unfold py.getitem. rewrite cumsum_lookup by lia.
      by replace (S (S i - 1)) with (S i) by lia. }
    rewrite Hcum. cbn. unfold py.getitem. rewrite Hsz.
    unfold Spec.lens at 1. rewrite list_lookup_fmap, Hl. cbn.
    rewrite Hfn. cbn.
    destruct (rows_bounds_inside blocks _ _ i l Hs Hse ltac:(fold lo; lia)
                ltac:(fold hi; lia) Hl) as (H0 & H1 & H2).
    rewrite Hslice by done. by rewrite rows_clip.
Qed.

End read.

Section read_world.
Context {A V : Type} `{!BaseFile.Codec A V}.

Lemma forallb_true_intro {X : Type} (f : X -> bool) (l : list X) :
  (∀ x, x ∈ l -> f x = true) -> forallb f l = true.
Proof.
  induction l as [|x l IH]; intros Hf; cbn; [done|].
  rewrite (Hf x) by left. apply IH. intros y Hy. apply Hf. by right.
Qed.

Lemma read_header_root_files (root : BaseFile.t V) (state : BaseFile.bstate V) :
  BaseFile._read_header_root root = Ok state -> BaseFile.filenames root ≠ [].
Proof.
  unfold BaseFile._read_header_root. intros Hs Hnil. rewrite Hnil in Hs.
  by cbn in Hs.
Qed.

(** C2, as amended: every rank reads exactly the rows [start, stop) of the
    files put end to end, when the files hold the column as the blocks
    their headers announce; and the lower-bound search sends a bound that
    is the end of a file (none of them empty) to that file, the one
    before the file that starts at the bound. *)
Theorem read_rows (W W' : list (BaseFile.t V)) (root : BaseFile.t V)
    (column : string) (blocks : list (list A)) :
  W !! 0%nat = Some root ->
  Spec.comm_ok W ->
  Forall (fun self => BaseFile.filenames self = BaseFile.filenames root) W ->
  BaseFile._read_header W = Ok W' ->
  Spec.column_stored (BaseFile.filenames root) column blocks ->
  ∃ arrays,
    BaseFile.read W' column = Ok (W', arrays)
    ∧ length arrays = length W
    ∧ ∀ (r : nat) self, W' !! r = Some self ->
        ∃ h, BaseFile.hdr self = Some h
             ∧ BaseFile.csizes h = Spec.lens blocks
             ∧ BaseFile.start h
               = Z.of_nat r * py.sum (Spec.lens blocks) / Z.of_nat (length W)
             ∧ BaseFile.stop h
               = (Z.of_nat r + 1) * py.sum (Spec.lens blocks)
                 / Z.of_nat (length W)
             ∧ arrays !! r
               = Some (Spec.rows (BaseFile.start h) (BaseFile.stop h)
                         (concat blocks))
             ∧ (Forall (fun l => l ≠ []) blocks ->
                ∀ (i : nat) (v : Z),
                  py.cumsum (BaseFile.csizes h) !! i = Some v ->
                  py.searchsorted_left (py.cumsum (BaseFile.csizes h)) v = i).
Proof.
  intros Hroot Hcomm Hnames HW Hst.
  destruct (read_header_intervals W W' root Hroot Hcomm HW)
    as (sizes & Hsizes & Hlen & Hblocks).
  destruct (read_header_fmap W W' root Hroot HW) as (state & Hstate & HW').
  pose proof (read_header_root_files root state Hstate) as Hfiles.
  pose proof (column_stored_lens _ _ _ _ Hst Hsizes) as ->.
  assert (Hne : blocks ≠ []).
  { intros ->. inversion Hst as [Hnil|]. by rewrite <- Hnil in Hfiles. }
  assert (HP : 0 < Z.of_nat (length W)).
  { apply lookup_lt_Some in Hroot. lia. }
  assert (Htot : 0 <= py.sum (Spec.lens blocks)).
  { rewrite <- offset_total. unfold Spec.offset. lia. }
  set (g := fun self : BaseFile.t V =>
              match BaseFile.hdr self with
              | Some h => Spec.rows (BaseFile.start h) (BaseFile.stop h)
                            (concat blocks)
              | None => []
              end).
  assert (Hread : ∀ (r : nat) self, W' !! r = Some self ->
            ∃ h, BaseFile.hdr self = Some h
                 ∧ BaseFile.read_local self h column = Ok (g self)).
  { intros r self Hr. destruct (Hblocks r self Hr)
      as (h & Hh & Hcs & _ & Hstart & Hstop & _).
    exists h. split; [done|]. unfold g. rewrite Hh.
    assert (Hrlt : (r < length W)%nat).
    { rewrite <- Hlen. by eapply lookup_lt_Some. }
    apply read_local_rows; try done.
    - rewrite HW', list_lookup_fmap in Hr.
      destruct (W !! r) as [self0|] eqn:Hr0; [|done]. injection Hr as <-.
      cbn. rewrite (Forall_lookup_1 _ _ _ _ Hnames Hr0). done.
    - rewrite Hstart. apply Z.div_pos; lia.
    - rewrite Hstart, Hstop. apply block_mono; lia.
    - rewrite Hstop.
      rewrite <- (block_last (py.sum (Spec.lens blocks)) (Z.of_nat (length W)))
        at 2 by done.
      apply block_mono; lia. }
  exists (g <$> W'). split; [|split].
  - unfold BaseFile.read. rewrite forallb_true_intro.
    2:{ intros self [r Hr]%list_elem_of_lookup.
        destruct (Hread r self Hr) as (h & -> & _). done. }
    cbn. rewrite (mapM_Ok_fmap _ g); [done|].
    intros self [r Hr]%list_elem_of_lookup.
    by destruct (Hread r self Hr) as (h & -> & ->).
  - by rewrite length_fmap.
  - intros r self Hr.
    destruct (Hblocks r self Hr) as (h & Hh & Hcs & _ & Hstart & Hstop & _).
    exists h. split; [done|]. split; [done|]. split; [done|].
    split; [done|]. split.
    + rewrite list_lookup_fmap, Hr. cbn. unfold g. by rewrite Hh.
    + intros Hpos i v Hv. rewrite Hcs in *.
      apply cumsum_lookup_inv in Hv as [Hi ->].
      by apply searchsorted_left_boundary.
Qed.

End read_world.

Section read_examples.
Import Examples.

(** What [HDF5File] reads from a dataset: the rows of the slice. *)
Lemma hdf5_read_file_slice {A V : Type} (disk : gmap string (HDF5File.group A V))
    (filename column : string) (grp : HDF5File.group A V) (col : list A)
    (a b : Z) :
  disk !! filename = Some grp ->
  py.assoc column (HDF5File.datasets grp) = Some col ->
  0 <= a -> a <= b -> b <= Z.of_nat (length col) ->
  BaseFile._read_file_slice (Codec := HDF5File.codec disk) filename column a b
  = Ok (Spec.rows a b col).
Proof.
  intros Hdisk Hcol Ha Hab Hb. cbn.
  unfold HDF5File._read_file_slice, HDF5File.h5py_File, HDF5File.dataset.
  rewrite Hdisk. cbn. rewrite Hcol. cbn. by rewrite getslice_rows.
Qed.

Lemma column_stored3 :
  Spec.column_stored (H := HDF5File.codec disk3) names3 "X" blocks3.
Proof.
  repeat constructor;
    try (eexists; split; [vm_compute; reflexivity|reflexivity]);
    intros a b Ha Hab Hb;
    (eapply hdf5_read_file_slice; [vm_compute; reflexivity|reflexivity|..]);
    done.
Qed.

Lemma handles_filenames (P : nat) (names : list string) root :
  handles P names !! 0%nat = Some root ->
  Forall (fun self => BaseFile.filenames self = BaseFile.filenames root)
         (handles P names).
Proof.
  unfold handles. intros Hroot. rewrite list_lookup_fmap in Hroot.
  destruct (seq 0 P !! 0%nat); [|done]. injection Hroot as <-.
  apply Forall_fmap, Forall_forall. done.
Qed.

(** The scenario of the specification: files of 10, 7 and 5 rows on two
    ranks; rank 0 reads the rows [0, 11), all of the first file and the
    first row of the second, and rank 1 the rows [11, 22). *)
Lemma read_rows_witness :
  BaseFile.read (H := HDF5File.codec disk3) opened3 "X"
  = Ok (opened3, [[0; 1; 2; 3; 4; 5; 6; 7; 8; 9; 10];
                  [11; 12; 13; 14; 15; 16; 17; 18; 19; 20; 21]]).
Proof.
  assert (Hrun : BaseFile._read_header (H := HDF5File.codec disk3)
                   (handles 2 names3) = Ok opened3) by (vm_compute; reflexivity).
  destruct (read_rows (H := HDF5File.codec disk3) (handles 2 names3) opened3
              _ "X" blocks3 eq_refl (comm_ok_handles 2 names3)
              (handles_filenames 2 names3 _ eq_refl) Hrun column_stored3)
    as (arrays & Hread & Hlen & Hrows).
  rewrite Hread. f_equal. f_equal.
  destruct (Hrows 0%nat _ eq_refl) as (h0 & Hh0 & _ & _ & _ & Ha0 & _).
  destruct (Hrows 1%nat _ eq_refl) as (h1 & Hh1 & _ & _ & _ & Ha1 & _).
  vm_compute in Hh0. injection Hh0 as <-.
  vm_compute in Hh1. injection Hh1 as <-.
  destruct arrays as [|x0 [|x1 [|x2 arrays]]]; try done.
  cbn in Ha0, Ha1. injection Ha0 as ->. injection Ha1 as ->.
  reflexivity.
Defined.

(** Two files of 10 rows on two ranks: rank 1 starts at row 10, the end
    of the first file and the start of the second.  The search sends it
    to the first file, number 0, which is read for no row; it is not sent
    to the file that starts at row 10, number 1. *)
Lemma read_boundary_counterexample :
  BaseFile._read_header (H := HDF5File.codec disk2) (handles 2 names2)
  = Ok opened2
  ∧ ∃ self h,
      opened2 !! 1%nat = Some self
      ∧ BaseFile.hdr self = Some h
      ∧ BaseFile.start h = 10
      ∧ py.cumsum (BaseFile.csizes h) = [10; 20]
      ∧ py.searchsorted_left (py.cumsum (BaseFile.csizes h))
          (BaseFile.start h) = 0%nat
      ∧ py.searchsorted_left (py.cumsum (BaseFile.csizes h))
          (BaseFile.start h) ≠ 1%nat
      ∧ BaseFile.read_file (H := HDF5File.codec disk2) self h
          (py.cumsum (BaseFile.csizes h)) "X" 0 = Ok [].
Proof.
  split; [vm_compute; reflexivity|].
  eexists _, _. split; [reflexivity|]. split; [reflexivity|].
  repeat split; try (vm_compute; reflexivity).
  vm_compute. discriminate.
Qed.

End read_examples.

(** ** Where the code stops short: [write], [cslice], [columns], [__len__] *)
Section defects.
Import Examples.

(** C3: [write] of a single array, scattered over one rank, to one file
    raises [NameError] on the name [sl]; [write] of a dict held by the
    root rank 0 of two raises [NameError] on the name [colums]; both
    with any handler, which is not called. *)
Lemma write_array_and_root_dict_raise {D : Type}
    (handler : BaseFile.Writer Z D) (d : D) :
  BaseFile.write (handles 1 ["out.npy"]) [BaseFile.WArray [1; 2; 3]] None d
  = Raise (NameError "sl")
  ∧ BaseFile.write (handles 2 ["out.npy"])
      [BaseFile.WDict [("X", [1; 2; 3])]; BaseFile.WNone] (Some 0%nat) d
    = Raise (NameError "colums").
Proof. split; vm_compute; reflexivity. Qed.

(** C4: [cslice(0, 1)] of the catalog of three rows returns all three
    rows of the column [x], not the first one; and no argument changes
    what [cslice] returns. *)
Lemma cslice_ignores_slice :
  (∃ new, BaseCatalog.cslice (H := no_disk) cat3 [Some 0; Some 1] = Ok new
          ∧ BaseCatalog.cget (H := no_disk) new "x" = Ok [1; 2; 3]
          ∧ BaseCatalog.cget (H := no_disk) cat3 "x" = Ok [1; 2; 3]
          ∧ take 1 [1; 2; 3] = [1])
  ∧ ∀ (W : list (BaseCatalog.t Z string)) start stop start' stop',
      BaseCatalog.cslice (H := no_disk) W [start; stop]
      = BaseCatalog.cslice (H := no_disk) W [start'; stop'].
Proof.
  split.
  - eexists. split; [vm_compute; reflexivity|].
    repeat split; vm_compute; reflexivity.
  - intros W start stop start' stop'. reflexivity.
Qed.

(** C9: [columns(include='x')] on the catalog with the columns [x] and
    [y] raises [NameError] on the name [re]. *)
Lemma columns_pattern_raises :
  BaseCatalog.columns cat3 (Some (BaseCatalog.Pattern "x")) None
  = Raise (NameError "re")
  ∧ BaseCatalog.columns cat3 None (Some (BaseCatalog.Patterns ["y"]))
    = Raise (NameError "re").
Proof. split; vm_compute; reflexivity. Qed.

(** C10: the length of a catalog made empty, with no source, raises
    [AttributeError] on [_source]. *)
Lemma len_empty_detached_raises :
  BaseCatalog.__len__ (H := no_disk) (BaseCatalog.__init__ None None)
  = Raise (AttributeError "_source").
Proof. vm_compute. reflexivity. Qed.

End defects.

(** ** [BaseCatalog.get] *)
Section get.
Context {A V : Type} `{!EqDecision A} `{!BaseFile.Codec A V}.
Implicit Types (self : BaseCatalog.t A V) (v : BaseCatalog.value A).

Lemma get_missing_KeyError (column : string)
    (default : option (BaseCatalog.value A)) :
  BaseCatalog.get_missing column default
  = Raise (KeyError ("Column " +:+ column +:+ " does not exist"))
  <-> default = None.
Proof. destruct default; cbn; split; congruence. Qed.

(** C7: for the calls [get(column)], [get(column, d)],
    [get(column, default=d)] and [get(column, d0, default=d)]: [get]
    returns the stored value of a column of the mapping; otherwise, for
    a column the source declares, it reads the column, stores it, and
    returns it, and the next [get] returns the stored value with no
    read; otherwise it returns the default [d] of the call, if the call
    has one; and it raises the [KeyError] of a missing column exactly
    when the column is in neither and the call has no default.  A call
    with two positional defaults or two keywords raises [SyntaxError],
    and a keyword that is not [default] raises the [KeyError] of that
    keyword, whatever the catalog holds. *)
Theorem get_cases self (column : string) (call : Spec.get_call A) :
  Spec.source_opened self ->
  (∀ source h, BaseCatalog._source self = Some source ->
               BaseFile.hdr source = Some h ->
               BaseFile.read_local source h column
               ≠ Raise (KeyError ("Column " +:+ column +:+ " does not exist"))) ->
  let args := Spec.call_args call in
  let kwargs := Spec.call_kwargs call in
  let out := BaseCatalog.get self column args kwargs in
  (∀ v, BaseCatalog.data self !! column = Some v ->
        BaseCatalog.returned out = Ok v
        ∧ BaseCatalog.after out = self
        ∧ BaseCatalog.source_reads out = [])
  ∧ (∀ source h a,
       BaseCatalog.data self !! column = None ->
       BaseCatalog._source self = Some source ->
       BaseFile.hdr source = Some h ->
       column ∈ BaseFile.columns h ->
       BaseFile.read_local source h column = Ok a ->
       BaseCatalog.returned out = Ok (BaseCatalog.Array a)
       ∧ BaseCatalog.data (BaseCatalog.after out) !! column
         = Some (BaseCatalog.Array a)
       ∧ BaseCatalog.source_reads out = [column]
       ∧ BaseCatalog.get (BaseCatalog.after out) column args kwargs
         = {| BaseCatalog.returned := Ok (BaseCatalog.Array a);
              BaseCatalog.after := BaseCatalog.after out;
              BaseCatalog.source_reads := [] |})
  ∧ (∀ d, BaseCatalog.data self !! column = None ->
          ¬ Spec.source_declares self column ->
          Spec.call_default call = Some d ->
          BaseCatalog.returned out = Ok d
          ∧ BaseCatalog.after out = self
          ∧ BaseCatalog.source_reads out = [])
  ∧ (BaseCatalog.returned out
     = Raise (KeyError ("Column " +:+ column +:+ " does not exist"))
     <-> BaseCatalog.data self !! column = None
         ∧ ¬ Spec.source_declares self column
         ∧ Spec.call_default call = None)
  ∧ (∀ (args' : list (BaseCatalog.value A))
       (kwargs' : list (string * BaseCatalog.value A)),
       ((1 < length args')%nat ∨ (1 < length kwargs')%nat ->
        BaseCatalog.returned (BaseCatalog.get self column args' kwargs')
        = Raise (SyntaxError "Too many arguments!"))
       ∧ (∀ (k : string) d, (length args' <= 1)%nat ->
            kwargs' = [(k, d)] -> k ≠ "default" ->
            BaseCatalog.returned (BaseCatalog.get self column args' kwargs')
            = Raise (KeyError "default"))).
Proof.
  intros Hopen Hread args kwargs out.
  assert (Hdef : BaseCatalog.get_default args kwargs
                 = Ok (Spec.call_default call))
    by (by destruct call).
  subst out. unfold BaseCatalog.get.
  rewrite Hdef. split; [|split; [|split; [|split]]].
  - intros v ->. done.
  - intros source h a -> Hsrc Hh Hcol Ha. rewrite Hsrc, Hh.
    rewrite bool_decide_eq_true_2 by done. rewrite Ha. cbn.
    rewrite lookup_insert_eq. done.
  - intros d -> Hnot ->.
    destruct (BaseCatalog._source self) as [source|] eqn:Hsrc; [|done].
    destruct (Hopen source Hsrc) as [h Hh]. rewrite Hh.
    rewrite bool_decide_eq_false_2; [done|].
    intros Hcol. apply Hnot. by exists source, h.
  - destruct (BaseCatalog.data self !! column) as [v|] eqn:Hd.
    { cbn. split; [done|]. by intros [? _]. }
    destruct (BaseCatalog._source self) as [source|] eqn:Hsrc.
    + destruct (Hopen source Hsrc) as [h Hh]. rewrite Hh.
      destruct (decide (column ∈ BaseFile.columns h)) as [Hcol|Hcol].
      * rewrite bool_decide_eq_true_2 by done.
        split.
        -- intros Hret. exfalso. apply (Hread source h eq_refl Hh).
           destruct (BaseFile.read_local source h column); cbn in Hret;
             [done|by injection Hret as ->].
        -- intros (_ & Hnot & _). exfalso. apply Hnot. by exists source, h.
      * rewrite bool_decide_eq_false_2 by done. cbn.
        rewrite get_missing_KeyError. split; [|by intros (_ & _ & ->)].
        intros ->. split; [done|]. split; [|done].
        intros (source' & h' & Hs' & Hh' & Hcol').
        rewrite Hsrc in Hs'. injection Hs' as <-.
        rewrite Hh in Hh'. by injection Hh' as <-.
    + cbn. rewrite get_missing_KeyError. split; [|by intros (_ & _ & ->)].
      intros ->. split; [done|]. split; [|done].
      intros (source' & h' & Hs' & _). by rewrite Hsrc in Hs'.
  - intros args' kwargs'. split.
    + intros Hmany.
      assert (Hd : BaseCatalog.get_default args' kwargs'
                   = Raise (SyntaxError "Too many arguments!")).
      { unfold BaseCatalog.get_default.
        destruct args' as [|a0 [|a1 args']];
          destruct kwargs' as [|k0 [|k1 kwargs']]; cbn in *;
          try done; try lia; destruct Hmany; lia. }
      by rewrite Hd.
    + intros k d Hlen -> Hk.
      assert (Hd : BaseCatalog.get_default args' [(k, d)]
                   = Raise (KeyError "default")).
      { unfold BaseCatalog.get_default.
        destruct args' as [|a0 [|a1 args']]; cbn in *; try lia;
          by rewrite decide_False. }
      by rewrite Hd.
Qed.

End get.

Section get_examples.
Import Examples.

(** The catalog over the three files: [get] of the column [X] reads the
    rows of the rank; [get] of a column [Z] that is nowhere, called with
    a default, returns the default, and called without, raises. *)
Lemma get_cases_witness :
  BaseCatalog.returned
    (BaseCatalog.get (H := HDF5File.codec disk3) backed3 "X" [] [])
  = Ok (BaseCatalog.Array [0; 1; 2; 3; 4; 5; 6; 7; 8; 9; 10])
  ∧ BaseCatalog.returned
      (BaseCatalog.get (H := HDF5File.codec disk3) backed3 "Z"
         [BaseCatalog.Array [7]] [])
    = Ok (BaseCatalog.Array [7])
  ∧ BaseCatalog.returned
      (BaseCatalog.get (H := HDF5File.codec disk3) backed3 "Z"
         [] [("default", BaseCatalog.PyNone)])
    = Ok BaseCatalog.PyNone
  ∧ BaseCatalog.returned
      (BaseCatalog.get (H := HDF5File.codec disk3) backed3 "Z" [] [])
    = Raise (KeyError "Column Z does not exist").
Proof.
  assert (Hsrc : ∃ source h,
             BaseCatalog._source backed3 = Some source
             ∧ BaseFile.hdr source = Some h
             ∧ BaseFile.columns h = ["X"]
             ∧ BaseFile.read_local (H := HDF5File.codec disk3) source h "X"
               = Ok [0; 1; 2; 3; 4; 5; 6; 7; 8; 9; 10]
             ∧ BaseFile.read_local (H := HDF5File.codec disk3) source h "Z"
               ≠ Raise (KeyError "Column Z does not exist")).
  { eexists _, _. split; [reflexivity|]. split; [reflexivity|].
    split; [reflexivity|]. split; [vm_compute; reflexivity|].
    vm_compute. discriminate. }
  destruct Hsrc as (source & h & Hsource & Hh & Hcols & Hread & HreadZ).
  assert (Hopen : Spec.source_opened backed3).
  { intros source' Hs'. rewrite Hsource in Hs'. injection Hs' as <-. eauto. }
  assert (HnoZ : ¬ Spec.source_declares backed3 "Z").
  { intros (source' & h' & Hs' & Hh' & Hc').
    rewrite Hsource in Hs'. injection Hs' as <-.
    rewrite Hh in Hh'. injection Hh' as <-. rewrite Hcols in Hc'.
    by apply list_elem_of_singleton in Hc'. }
  assert (HZ : ∀ source' h', BaseCatalog._source backed3 = Some source' ->
             BaseFile.hdr source' = Some h' ->
             BaseFile.read_local (H := HDF5File.codec disk3) source' h' "Z"
             ≠ Raise (KeyError ("Column " +:+ "Z" +:+ " does not exist"))).
  { intros source' h' Hs' Hh'. rewrite Hsource in Hs'. injection Hs' as <-.
    rewrite Hh in Hh'. by injection Hh' as <-. }
  split; [|split; [|split]].
  - destruct (get_cases (H := HDF5File.codec disk3) backed3 "X"
                Spec.GetPlain Hopen) as (_ & Hsecond & _).
    + intros source' h' Hs' Hh'. rewrite Hsource in Hs'. injection Hs' as <-.
      rewrite Hh in Hh'. injection Hh' as <-. by rewrite Hread.
    + assert (HX : "X" ∈ BaseFile.columns h) by (rewrite Hcols; by left).
      exact (proj1 (Hsecond source h _ eq_refl Hsource Hh HX Hread)).
  - destruct (get_cases (H := HDF5File.codec disk3) backed3 "Z"
                (Spec.GetPositional (BaseCatalog.Array [7])) Hopen HZ)
      as (_ & _ & Hdefault & _).
    exact (proj1 (Hdefault _ eq_refl HnoZ eq_refl)).
  - destruct (get_cases (H := HDF5File.codec disk3) backed3 "Z"
                (Spec.GetKeyword BaseCatalog.PyNone) Hopen HZ)
      as (_ & _ & Hdefault & _).
    exact (proj1 (Hdefault _ eq_refl HnoZ eq_refl)).
  - destruct (get_cases (H := HDF5File.codec disk3) backed3 "Z"
                Spec.GetPlain Hopen HZ) as (_ & _ & _ & Hraise & _).
    by apply Hraise.
Defined.

End get_examples.

(** ** Scatter and gather *)
Section scatter_gather.
Context {T : Type}.

Lemma rows_rows (l : list T) (i j k : Z) :
  0 <= i -> i <= j -> j <= k ->
  Spec.rows i j l ++ Spec.rows j k l = Spec.rows i k l.
Proof.
  intros Hi Hij Hjk. unfold Spec.rows.
  replace (drop (Z.to_nat j) l)
    with (drop (Z.to_nat j - Z.to_nat i) (drop (Z.to_nat i) l))
    by (rewrite drop_drop; f_equal; lia).
  rewrite take_take_drop. f_equal. lia.
Qed.

Lemma rows_all (l : list T) : Spec.rows 0 (Z.of_nat (length l)) l = l.
Proof.
  unfold Spec.rows. change (Z.to_nat 0) with 0%nat. rewrite drop_0.
  apply take_ge. lia.
Qed.

(** Consecutive intervals, put end to end, make one interval. *)
Lemma concat_consecutive_rows (bnd : nat -> Z) (l : list T) (n : nat) :
  0 <= bnd 0%nat ->
  (∀ r, bnd r <= bnd (S r)) ->
  concat ((fun r => Spec.rows (bnd r) (bnd (S r)) l) <$> seq 0 n)
  = Spec.rows (bnd 0%nat) (bnd n) l.
Proof.
  intros H0 Hmono.
  assert (Hle : ∀ m, bnd 0%nat <= bnd m).
  { induction m as [|m IH]; [lia|]. specialize (Hmono m). lia. }
  induction n as [|n IH].
  - cbn. unfold Spec.rows. by rewrite Nat.sub_diag.
  - rewrite seq_S, fmap_app, concat_app, IH. cbn. rewrite app_nil_r.
    apply rows_rows; [done|apply Hle|apply Hmono].
Qed.

Lemma scatter_array_length (P : nat) (a : list T) :
  length (mpi.scatter_array P a) = P.
Proof. unfold mpi.scatter_array. by rewrite length_fmap, length_seq. Qed.

Lemma scatter_array_lookup (P : nat) (a : list T) (r : nat) :
  (r < P)%nat ->
  mpi.scatter_array P a !! r
  = Some (Spec.rows (Z.of_nat r * Z.of_nat (length a) / Z.of_nat P)
            ((Z.of_nat r + 1) * Z.of_nat (length a) / Z.of_nat P) a).
Proof.
  intros Hr. unfold mpi.scatter_array.
  rewrite list_lookup_fmap, lookup_seq_lt by done. cbn. f_equal.
  unfold Spec.rows. f_equal.
  assert (0 <= Z.of_nat r * Z.of_nat (length a) / Z.of_nat P)
    by (apply Z.div_pos; lia).
  lia.
Qed.

(** Gathering what was scattered gives the array back. *)
Lemma gather_scatter (P : nat) (a : list T) :
  (0 < P)%nat -> mpi.gather_array (mpi.scatter_array P a) = a.
Proof.
  intros HP. unfold mpi.gather_array.
  set (bnd := fun r : nat => Z.of_nat r * Z.of_nat (length a) / Z.of_nat P).
  assert (Heq : mpi.scatter_array P a
                = (fun r => Spec.rows (bnd r) (bnd (S r)) a) <$> seq 0 P).
  { apply list_eq. intros r. destruct (decide (r < P)%nat) as [Hr|Hr].
    - rewrite scatter_array_lookup by done.
      rewrite list_lookup_fmap, lookup_seq_lt by done. cbn. unfold bnd.
      by replace (Z.of_nat (S r)) with (Z.of_nat r + 1) by lia.
    - rewrite !lookup_ge_None_2; [done| |].
      + rewrite length_fmap, length_seq. lia.
      + rewrite scatter_array_length. lia. }
  rewrite Heq, concat_consecutive_rows.
  - replace (bnd 0%nat) with 0 by done.
    replace (bnd P) with (Z.of_nat (length a))
      by (unfold bnd; symmetry; apply block_last; lia).
    apply rows_all.
  - done.
  - intros r. unfold bnd. apply block_mono; lia.
Qed.

End scatter_gather.

(** ** Catalogs: the world *)
Section catalog_world.
Context {A V : Type} `{!EqDecision A} `{!BaseFile.Codec A V}.
Implicit Types (self : BaseCatalog.t A V) (W : list (BaseCatalog.t A V)).

Lemma mapM_Ok_lookup {X Y : Type} (f : X -> result Y) (l : list X)
    (k : list Y) :
  length l = length k ->
  (∀ i x y, l !! i = Some x -> k !! i = Some y -> f x = Ok y) ->
  mapM f l = Ok k.
Proof.
  revert k. induction l as [|x l IH]; intros [|y k] Hlen Hf; try done.
  cbn. rewrite (Hf 0%nat x y eq_refl eq_refl). cbn.
  rewrite (IH k); [done|by injection Hlen|].
  intros i x' y' Hx Hy. by apply (Hf (S i)).
Qed.

Lemma local_column_Ok self (column : string) (a : list A) :
  BaseCatalog.__getitem__ self column = Ok (BaseCatalog.Array a) ->
  Spec.local_column column self = a.
Proof. intros Hg. unfold Spec.local_column. by rewrite Hg. Qed.

(** [cget] gathers the local columns in rank order. *)
Lemma cget_gathered W (column : string) :
  (∀ self, self ∈ W ->
     ∃ a, BaseCatalog.__getitem__ self column = Ok (BaseCatalog.Array a)) ->
  BaseCatalog.cget W column = Ok (Spec.gathered column W).
Proof.
  intros Hget. unfold BaseCatalog.cget.
  rewrite (mapM_Ok_fmap _ (Spec.local_column column)); [done|].
  intros self Hself. destruct (Hget self Hself) as [a Ha].
  rewrite Ha. cbn. by rewrite (local_column_Ok _ _ a).
Qed.

Lemma cget_catalog_with W (cols : list string) (column : string) :
  Spec.catalog_with W cols -> column ∈ cols ->
  BaseCatalog.cget W column = Ok (Spec.gathered column W).
Proof.
  intros (_ & _ & Hget) Hc. apply cget_gathered. intros self Hs. by apply Hget.
Qed.

(** A world whose ranks hold the pieces of an array as a column: [cget]
    gives the pieces in rank order. *)
Lemma cget_pieces W (column : string) (pieces : list (list A)) :
  length W = length pieces ->
  (∀ r self piece, W !! r = Some self -> pieces !! r = Some piece ->
     BaseCatalog.data self !! column = Some (BaseCatalog.Array piece)) ->
  BaseCatalog.cget W column = Ok (mpi.gather_array pieces).
Proof.
  intros Hlen Hdata. unfold BaseCatalog.cget.
  rewrite (mapM_Ok_lookup _ W pieces); [done|done|].
  intros r self piece Hr Hp.
  by rewrite (getitem_hit _ _ _ (Hdata r self piece Hr Hp)).
Qed.

(** The columns of a catalog are those of its mapping and of its source. *)
Lemma columns_Ok_inv W (cols : list string) root :
  W !! 0%nat = Some root ->
  BaseCatalog.columns W None None = Ok cols ->
  ∃ S : gset string,
    BaseCatalog.source_columns root = Ok S
    ∧ cols = elements (dom (BaseCatalog.data root) ∪ S).
Proof.
  intros Hroot Hcols. destruct W as [|root' W]; [done|].
  injection Hroot as ->. cbn in Hcols.
  unfold BaseCatalog.columns_root in Hcols.
  apply bind_Ok_inv in Hcols as (S & HS & Hcols). cbn in Hcols.
  injection Hcols as <-. eauto.
Qed.

End catalog_world.

(** ** [BaseCatalog.save] and [BaseCatalog.load] *)
Section save_load.
Context {A V : Type} `{!EqDecision A} `{!BaseFile.Codec A V}.
Implicit Types (self : BaseCatalog.t A V) (W : list (BaseCatalog.t A V)).

Lemma foldl_insert_lookup {T : Type} (f : string -> T) (names : list string)
    (d : gmap string T) (c : string) :
  foldl (fun d name => <[name := f name]> d) d names !! c
  = if decide (c ∈ names) then Some (f c) else d !! c.
Proof.
  revert d. induction names as [|x names IH]; intros d; cbn.
  - rewrite decide_False; [done|]. apply not_elem_of_nil.
  - rewrite IH. destruct (decide (c ∈ names)) as [Hin|Hnin].
    + rewrite decide_True; [done|]. by right.
    + destruct (decide (c = x)) as [->|Hne].
      * rewrite lookup_insert_eq. rewrite decide_True; [done|]. by left.
      * rewrite lookup_insert_ne by done. rewrite decide_False; [done|].
        intros Hc. apply elem_of_cons in Hc as [?|?]; done.
Qed.

Lemma elem_of_keys {T : Type} (d : gmap string T) (name : string) :
  name ∈ (map_to_list d).*1 <-> is_Some (d !! name).
Proof.
  rewrite list_elem_of_fmap. split.
  - intros ([k v] & -> & Hkv). apply elem_of_map_to_list in Hkv. by exists v.
  - intros [v Hv]. exists (name, v). split; [done|].
    by apply elem_of_map_to_list.
Qed.

Lemma save_Ok W (cols : list string) root (filename : string)
    (disk : gmap string (BaseCatalog.state A V)) :
  W !! 0%nat = Some root ->
  Spec.catalog_with W cols ->
  BaseCatalog.save W filename disk
  = Ok (<[BaseCatalog.np_save_filename filename
          := {| BaseCatalog.st_data := Spec.saved_data W cols;
                BaseCatalog.st_attrs := BaseCatalog.attrs root |}]>
          disk).
Proof.
  intros Hroot (HW & Hcols & Hget). unfold BaseCatalog.save, py.getitem.
  rewrite Hroot. cbn. rewrite Hcols. cbn.
  rewrite (foldM_Ok_foldl _
             (fun d name => <[name := Spec.gathered name W]> d)); [done|].
  intros d name Hname. rewrite cget_gathered; [done|].
  intros self Hself. by apply Hget.
Qed.

Lemma load_Ok (M : nat) (filename : string)
    (disk : gmap string (BaseCatalog.state A V)) (st : BaseCatalog.state A V) :
  disk !! filename = Some st ->
  ∃ W', BaseCatalog.load M filename disk = Ok W'
        ∧ length W' = M
        ∧ ∀ r, (r < M)%nat ->
            W' !! r
            = Some (BaseCatalog.from_state
                      (Spec.loaded_data M (BaseCatalog.st_data st) r) st).
Proof.
  intros Hdisk. unfold BaseCatalog.load, BaseCatalog.np_load.
  rewrite Hdisk. cbn.
  set (data := BaseCatalog.st_data st).
  set (pieces := fun name => mpi.scatter_array M (default [] (data !! name))).
  set (step := fun (datas : list (gmap string (BaseCatalog.value A))) name =>
                 zip_with (fun d piece => <[name := BaseCatalog.Array piece]> d)
                          datas (pieces name)).
  rewrite (foldM_Ok_foldl _ step).
  2:{ intros datas name Hname. apply elem_of_keys in Hname as [a Ha].
      unfold py.dict_getitem, step, pieces. by rewrite Ha. }
  cbn. eexists. split; [done|]. split.
  - rewrite length_fmap. unfold step.
    rewrite (foldl_zip_with_length
               (fun name d piece => <[name := BaseCatalog.Array piece]> d)).
    + by rewrite length_replicate.
    + intros name _. unfold pieces.
      by rewrite scatter_array_length, length_replicate.
  - intros r Hr. rewrite list_lookup_fmap. unfold step.
    rewrite (foldl_zip_with_lookup
               (fun name d piece => <[name := BaseCatalog.Array piece]> d)
               pieces
               (fun name => default [] (pieces name !! r)) _ _ r ∅).
    + done.
    + intros name _. unfold pieces.
      destruct (lookup_lt_is_Some_2
                  (mpi.scatter_array M (default [] (data !! name))) r)
        as [piece Hp]; [by rewrite scatter_array_length|].
      by rewrite Hp.
    + by apply lookup_replicate_2.
Qed.

End save_load.

Section roundtrip.
Context {A V : Type} `{!EqDecision A} `{!BaseFile.Codec A V}.
Implicit Types (self : BaseCatalog.t A V) (W : list (BaseCatalog.t A V)).

Lemma columns_root_of W root (include exclude : option BaseCatalog.patterns) :
  W !! 0%nat = Some root ->
  BaseCatalog.columns W include exclude
  = BaseCatalog.columns_root root include exclude.
Proof. destruct W; [done|]. by intros [= ->]. Qed.

Lemma saved_data_lookup W (cols : list string) (c : string) :
  Spec.saved_data W cols !! c
  = if decide (c ∈ cols) then Some (Spec.gathered c W) else None.
Proof. unfold Spec.saved_data. by rewrite foldl_insert_lookup, lookup_empty. Qed.

Lemma loaded_data_lookup (M : nat) W (cols : list string) (r : nat)
    (c : string) :
  Spec.loaded_data M (Spec.saved_data W cols) r !! c
  = if decide (c ∈ cols)
    then Some (BaseCatalog.Array
                 (default [] (mpi.scatter_array M (Spec.gathered c W) !! r)))
    else None.
Proof.
  unfold Spec.loaded_data. rewrite foldl_insert_lookup, lookup_empty.
  destruct (decide (c ∈ cols)) as [Hc|Hc].
  - rewrite decide_True.
    + by rewrite saved_data_lookup, decide_True.
    + apply elem_of_keys. rewrite saved_data_lookup, decide_True by done. eauto.
  - rewrite decide_False; [done|]. rewrite elem_of_keys.
    rewrite saved_data_lookup, decide_False by done. by intros [? ?].
Qed.

End roundtrip.

Section equality_loop.
Context {A V : Type} `{!BaseFile.Codec A V} {array_eq : py.ArrayEq A}.
Implicit Types (self : BaseCatalog.t A V) (W : list (BaseCatalog.t A V)).

(** [np.all(a == a)]: every element is equal to itself. *)
Lemma all_eq_same (g : list A) :
  py.all_eq g g = Ok (forallb (fun x => py.elem_eq x x) g).
Proof.
  unfold py.all_eq. rewrite decide_True by done. f_equal.
  induction g as [|x g IH]; [done|]. cbn. by rewrite IH.
Qed.

(** The loop of [__eq__] ends with [True] exactly when no column
    differs. *)
Lemma eq_columns_true W1 W2 (cols : list string) (g1 g2 : string -> list A) :
  (∀ c, c ∈ cols -> BaseCatalog.cget W1 c = Ok (g1 c)) ->
  (∀ c, c ∈ cols -> BaseCatalog.cget W2 c = Ok (g2 c)) ->
  BaseCatalog.eq_columns W1 W2 cols = Ok true
  <-> ∀ c, c ∈ cols -> py.all_eq (g1 c) (g2 c) = Ok true.
Proof.
  induction cols as [|c cols IH]; intros H1 H2.
  - split; [|done]. by intros _ c ?%elem_of_nil.
  - cbn [BaseCatalog.eq_columns].
    rewrite (H1 c) by left. rewrite (H2 c) by left. rewrite !bind_Ok.
    assert (IH' := IH (fun c' Hc' => H1 c' ltac:(by right))
                      (fun c' Hc' => H2 c' ltac:(by right))).
    destruct (py.all_eq (g1 c) (g2 c)) as [[]|e] eqn:Heq; cbn.
    + rewrite IH'. split.
      * intros Hall c' [->|Hc']%elem_of_cons; [done|by apply Hall].
      * intros Hall c' Hc'. apply Hall. by right.
    + split.
      * intros Hf. exfalso. destruct cols as [|next cols']; [done|].
        destruct (bool_decide _); [done|].
        by destruct (mapM _ _).
      * intros Hall. specialize (Hall c ltac:(by left)). by rewrite Heq in Hall.
    + split; [done|].
      intros Hall. specialize (Hall c ltac:(by left)). by rewrite Heq in Hall.
Qed.

End equality_loop.

Section roundtrip_theorem.
Context {A V : Type} `{!EqDecision A} `{!BaseFile.Codec A V}.
Context {array_eq : py.ArrayEq A}.
Implicit Types (self : BaseCatalog.t A V) (W : list (BaseCatalog.t A V)).

Lemma np_save_filename_npy (filename : string) :
  py.endswith filename ".npy" = true ->
  BaseCatalog.np_save_filename filename = filename.
Proof. unfold BaseCatalog.np_save_filename. by intros ->. Qed.


End roundtrip_theorem.

Section roundtrip_examples.
Import Examples.

Lemma catalog_with_cat3 : Spec.catalog_with (H := no_disk) cat3 cols3.
Proof.
  split; [done|]. split; [vm_compute; reflexivity|].
  intros self c Hself Hc.
  assert (Hcs : c = "x" ∨ c = "y").
  { change cols3 with ["y"; "x"] in Hc.
    apply elem_of_cons in Hc as [->|Hc]; [by right|].
    apply elem_of_cons in Hc as [->|Hc]; [by left|].
    by apply elem_of_nil in Hc. }
  assert (Hs : self ∈ cat3) by done.
  unfold cat3 in Hs.
  apply elem_of_cons in Hs as [->|Hs];
    [|apply elem_of_cons in Hs as [->|Hs]; [|by apply elem_of_nil in Hs]];
    destruct Hcs as [-> | ->]; eexists; vm_compute; reflexivity.
Qed.



End roundtrip_examples.

(** ** [BaseCatalog.concatenate]: the attributes *)
Section concatenate_attrs.
Context {A V : Type} `{!EqDecision A} `{!BaseFile.Codec A V}.
Implicit Types (self : BaseCatalog.t A V) (W : list (BaseCatalog.t A V)).

Lemma set_column_lookup (column : string) (pieces : list (list A)) W
    (r : nat) self' :
  BaseCatalog.set_column column pieces W !! r = Some self' ->
  ∃ self piece, W !! r = Some self ∧ pieces !! r = Some piece
                ∧ self' = BaseCatalog.set self column (BaseCatalog.Array piece).
Proof.
  unfold BaseCatalog.set_column. intros Hr.
  apply lookup_zip_with_Some in Hr as (self & piece & -> & Hs & Hp). eauto.
Qed.

Lemma concatenate_column_Ok_inv (others : list (list (BaseCatalog.t A V)))
    (keep_order : bool) (new new' : list (BaseCatalog.t A V)) (column : string) :
  BaseCatalog.concatenate_column others keep_order new column = Ok new' ->
  ∃ pieces, new' = BaseCatalog.set_column column pieces new.
Proof.
  unfold BaseCatalog.concatenate_column. destruct keep_order; intros Hc.
  - apply bind_Ok_inv in Hc as (columns & _ & Hc).
    apply bind_Ok_inv in Hc as (full & _ & Hc). injection Hc as <-. eauto.
  - apply bind_Ok_inv in Hc as (locals & _ & Hc). injection Hc as <-. eauto.
Qed.

Lemma concatenate_columns_attrs (others : list (list (BaseCatalog.t A V)))
    (keep_order : bool) (cols : list string)
    (new new' : list (BaseCatalog.t A V)) :
  foldM (BaseCatalog.concatenate_column others keep_order) new cols = Ok new' ->
  ∀ r self', new' !! r = Some self' ->
    ∃ self, new !! r = Some self
            ∧ BaseCatalog.attrs self' = BaseCatalog.attrs self.
Proof.
  revert new. induction cols as [|c cols IH]; intros new Hf r self' Hr.
  - injection Hf as <-. eauto.
  - cbn in Hf. apply bind_Ok_inv in Hf as (new1 & H1 & Hf).
    destruct (IH new1 Hf r self' Hr) as (self1 & Hr1 & Hat).
    apply concatenate_column_Ok_inv in H1 as (pieces & ->).
    apply set_column_lookup in Hr1 as (self & piece & Hs & _ & ->).
    exists self. split; [done|]. by rewrite Hat.
Qed.

(** The catalog [concatenate] returns carries, on every rank, the merge of
    the attributes of all the arguments. *)
Lemma concatenate_Ok_attrs (others : list (list (BaseCatalog.t A V)))
    (keep_order : bool) (new : list (BaseCatalog.t A V)) (r : nat) self :
  BaseCatalog.concatenate others keep_order = Ok new ->
  new !! r = Some self ->
  BaseCatalog.attrs self = BaseCatalog.concatenate_attrs others r.
Proof.
  unfold BaseCatalog.concatenate. intros Hc Hr.
  destruct others as [|other others0] eqn:Hothers; [done|].
  rewrite <- Hothers in *. clear Hothers.
  apply bind_Ok_inv in Hc as (others' & _ & Hc).
  apply bind_Ok_inv in Hc as (first & _ & Hc).
  apply bind_Ok_inv in Hc as (new0 & Hcopy & Hc).
  apply bind_Ok_inv in Hc as (new_columns & _ & Hc).
  apply bind_Ok_inv in Hc as (u & _ & Hc).
  destruct (concatenate_columns_attrs _ _ _ _ _ Hc r self Hr)
    as (self0 & Hr0 & ->).
  rewrite list_lookup_imap in Hr0.
  destruct (new0 !! r) as [s|]; [|done]. by injection Hr0 as <-.
Qed.

End concatenate_attrs.

(** ** The two merges of metadata *)
Section metadata.
Context {A V : Type} `{!EqDecision A} `{!BaseFile.Codec A V}.

Lemma concatenate_attrs_lookup (others : list (list (BaseCatalog.t A V)))
    (r : nat) (k : string) :
  BaseCatalog.concatenate_attrs others r !! k
  = Spec.first_some
      (rev ((fun other => other !! r ≫= fun c => BaseCatalog.attrs c !! k)
              <$> others)).
Proof.
  unfold BaseCatalog.concatenate_attrs.
  assert (Hgen : ∀ init : gmap string V,
            foldl (fun merged other =>
                     match other !! r with
                     | Some self => py.dict_merge merged (BaseCatalog.attrs self)
                     | None => merged
                     end) init others
            = foldl (fun merged other =>
                       match BaseCatalog.attrs <$> other !! r with
                       | Some d => py.dict_merge merged d
                       | None => merged
                       end) init others).
  { induction others as [|other others IH]; intros init; cbn; [done|].
    rewrite IH. by destruct (other !! r). }
  rewrite Hgen, lookup_merge_over, first_some_app, lookup_empty. cbn.
  replace ((fun other : list (BaseCatalog.t A V) =>
              (BaseCatalog.attrs <$> other !! r) ≫= (.!! k)) <$> others)
    with ((fun other : list (BaseCatalog.t A V) =>
             other !! r ≫= fun c => BaseCatalog.attrs c !! k) <$> others).
  - by destruct (Spec.first_some _).
  - apply list_fmap_ext. intros _ other _. by destruct (other !! r).
Qed.

(** C8: after [_read_header] the attributes of every handle are, key by
    key, the value the handle of the root had, or else the value of the
    earliest file that has the key; the attributes of the catalog
    [concatenate] returns are, key by key and on every rank, the value of
    the last argument that has the key. *)
Theorem metadata_merges :
  (∀ (W W' : list (BaseFile.t V)) (root : BaseFile.t V),
     W !! 0%nat = Some root ->
     BaseFile._read_header W = Ok W' ->
     ∃ his,
       Forall2 (fun fn di => BaseFile._read_file_header fn = Ok di)
               (BaseFile.filenames root) his
       ∧ ∀ self (k : string), self ∈ W' ->
           BaseFile.attrs self !! k
           = Spec.first_some
               (BaseFile.attrs root !! k
                  :: ((fun di => default ∅ (BaseFile.h_attrs di) !! k) <$> his)))
  ∧ (∀ (others : list (list (BaseCatalog.t A V))) (keep_order : bool)
       (new : list (BaseCatalog.t A V)) (r : nat) (self : BaseCatalog.t A V)
       (k : string),
       BaseCatalog.concatenate others keep_order = Ok new ->
       new !! r = Some self ->
       BaseCatalog.attrs self !! k
       = Spec.first_some
           (rev ((fun other => other !! r ≫= fun c => BaseCatalog.attrs c !! k)
                   <$> others))).
Proof.
  split.
  - intros W W' root Hroot HW.
    destruct (read_header_fmap W W' root Hroot HW) as (state & Hstate & ->).
    destruct (read_header_root_Ok root state Hstate) as (his & Hhis & _ & Hat).
    exists his. split; [done|]. intros self k Hself.
    apply list_elem_of_fmap in Hself as (self0 & -> & _). cbn.
    by rewrite Hat, lookup_merge_under.
  - intros others keep_order new r self k Hc Hr.
    rewrite (concatenate_Ok_attrs others keep_order new r self Hc Hr).
    apply concatenate_attrs_lookup.
Qed.

End metadata.

Section metadata_examples.
Import Examples.

(** Files with [run = a], [run = b; seed = 7] and [seed = 9], in this
    order: the handles keep [run = a] and [seed = 7].  Catalogs with
    [run = a; seed = 7] and [run = b], in this order: the result keeps
    [run = b] and [seed = 7]. *)
Lemma metadata_merges_witness :
  (∃ self, opened3 !! 1%nat = Some self
           ∧ BaseFile.attrs self !! "run" = Some "a"
           ∧ BaseFile.attrs self !! "seed" = Some "7")
  ∧ (∃ new self,
       BaseCatalog.concatenate (H := no_disk) [cat_a; cat_b] true = Ok new
       ∧ new !! 1%nat = Some self
       ∧ BaseCatalog.attrs self !! "run" = Some "b"
       ∧ BaseCatalog.attrs self !! "seed" = Some "7").
Proof.
  split.
  - destruct (metadata_merges (A := Z) (H := HDF5File.codec disk3))
      as [Hfiles _].
    destruct (Hfiles (handles 2 names3) opened3 _ eq_refl)
      as (his & Hhis & Hat); [vm_compute; reflexivity|].
    inversion Hhis as [|? di1 ? his1 H1 Hhis1]; subst.
    inversion Hhis1 as [|? di2 ? his2 H2 Hhis2]; subst.
    inversion Hhis2 as [|? di3 ? his3 H3 Hhis3]; subst.
    inversion Hhis3; subst.
    vm_compute in H1. injection H1 as <-.
    vm_compute in H2. injection H2 as <-.
    vm_compute in H3. injection H3 as <-.
    destruct (opened3 !! 1%nat) as [self|] eqn:Hself; [|done].
    exists self. split; [done|].
    assert (Hin : self ∈ opened3) by (by eapply list_elem_of_lookup_2).
    split; rewrite (Hat self _ Hin); vm_compute; reflexivity.
  - destruct (metadata_merges (A := Z) (V := string) (H := no_disk))
      as [_ Hcat].
    destruct (BaseCatalog.concatenate (H := no_disk) [cat_a; cat_b] true)
      as [new|] eqn:Hnew; [|by vm_compute in Hnew].
    destruct (new !! 1%nat) as [self|] eqn:Hself;
      [|by vm_compute in Hnew; injection Hnew as <-].
    exists new, self. split; [done|]. split; [done|].
    split; rewrite (Hcat _ _ _ _ _ _ Hnew Hself); vm_compute; reflexivity.
Defined.

End metadata_examples.

(** ** [BaseCatalog.concatenate]: two catalogs with the same columns *)
Section concatenate_pair.
Context {A V : Type} `{!EqDecision A} `{!BaseFile.Codec A V}.
Implicit Types (self : BaseCatalog.t A V) (W : list (BaseCatalog.t A V)).

Lemma concatenate_unfold (other : list (BaseCatalog.t A V))
    (others0 : list (list (BaseCatalog.t A V))) (keep_order : bool) :
  BaseCatalog.concatenate (other :: others0) keep_order
  = (others ← filterM (fun other =>
                         cols ← BaseCatalog.columns other None None;
                         Ok (bool_decide (cols ≠ []))) (other :: others0);
     first ← py.getitem others 0;
     new ← BaseCatalog.copy first None;
     new_columns ← BaseCatalog.columns
                      (imap (fun r self =>
                               BaseCatalog.with_attrs self
                                 (BaseCatalog.concatenate_attrs
                                    (other :: others0) r)) new) None None;
     _ ← foldM (fun _ o =>
                  BaseCatalog.concatenate_check
                    (imap (fun r self =>
                             BaseCatalog.with_attrs self
                               (BaseCatalog.concatenate_attrs
                                  (other :: others0) r)) new)
                    new_columns o)
               () others;
     foldM (BaseCatalog.concatenate_column others keep_order)
           (imap (fun r self =>
                    BaseCatalog.with_attrs self
                      (BaseCatalog.concatenate_attrs (other :: others0) r)) new)
           new_columns).
Proof. reflexivity. Qed.

Lemma copy_Ok W (cols : list string) :
  BaseCatalog.columns W None None = Ok cols ->
  BaseCatalog.copy W None = Ok (BaseCatalog.copy_local cols <$> W).
Proof. intros Hcols. unfold BaseCatalog.copy. by rewrite Hcols. Qed.

Lemma dom_copy_local (cols : list string) self :
  dom (BaseCatalog.data (BaseCatalog.copy_local cols self))
  =@{gset string} list_to_set cols.
Proof.
  cbn. rewrite dom_list_to_map_L, <- list_fmap_compose. f_equal.
  induction cols as [|c cols IH]; cbn; [done|]. by rewrite IH.
Qed.

(** The copy, with any attributes, lists the columns of the original. *)
Lemma columns_copy W (cols : list string)
    (attrs : nat -> gmap string V) :
  W ≠ [] ->
  BaseCatalog.columns W None None = Ok cols ->
  BaseCatalog.columns
    (imap (fun r self => BaseCatalog.with_attrs self (attrs r))
          (BaseCatalog.copy_local cols <$> W)) None None
  = Ok cols.
Proof.
  intros HW Hcols. destruct W as [|root W]; [done|].
  destruct (columns_Ok_inv (root :: W) cols root eq_refl Hcols)
    as (S & HS & Hcols_eq).
  cbn. unfold BaseCatalog.columns_root, BaseCatalog.source_columns. cbn.
  unfold BaseCatalog.source_columns in HS. rewrite HS. cbn. f_equal.
  rewrite Hcols_eq at 2. f_equal.
  change (list_to_map _) with
    (BaseCatalog.data (BaseCatalog.copy_local cols root)).
  rewrite dom_copy_local. apply set_eq. intros c.
  rewrite elem_of_union, elem_of_list_to_set, Hcols_eq, elem_of_elements.
  rewrite !elem_of_union. tauto.
Qed.

Lemma concatenate_check_Ok W (new : list (BaseCatalog.t A V))
    (cols new_columns : list string) :
  BaseCatalog.columns W None None = Ok cols ->
  length new = length W ->
  list_to_set cols =@{gset string} list_to_set new_columns ->
  BaseCatalog.concatenate_check new new_columns W = Ok ().
Proof.
  intros Hcols Hlength Hset. unfold BaseCatalog.concatenate_check.
  rewrite Hcols. cbn.
  rewrite (bool_decide_eq_false_2 (length new ≠ length W)) by (by intros ?).
  rewrite (bool_decide_eq_false_2 (list_to_set cols ≠ list_to_set new_columns))
    by (by intros ?).
  by rewrite !andb_false_r.
Qed.

Section two.
Variables (WA WB : list (BaseCatalog.t A V)) (colsA colsB : list string).
Hypothesis HA : Spec.catalog_with WA colsA.
Hypothesis HB : Spec.catalog_with WB colsB.
Hypothesis Hlen : length WA = length WB.
Hypothesis Hset : list_to_set colsA =@{gset string} list_to_set colsB.
Hypothesis Hne : colsA ≠ [].

Lemma two_colsB_ne : colsB ≠ [].
Proof.
  intros HB0. destruct colsA as [|c cols]; [done|].
  assert (c ∈ (list_to_set colsB : gset string)) as Hc.
  { rewrite <- Hset. apply elem_of_list_to_set. by left. }
  rewrite HB0 in Hc. by apply not_elem_of_empty in Hc.
Qed.

Lemma two_in_colsB (c : string) : c ∈ colsA -> c ∈ colsB.
Proof.
  intros Hc. apply (elem_of_list_to_set (C := gset string)).
  rewrite <- Hset. by apply elem_of_list_to_set.
Qed.

(** With two catalogs of the same columns, [concatenate] comes to the
    loop over the columns. *)
Lemma concatenate_two_fold (keep_order : bool) :
  BaseCatalog.concatenate [WA; WB] keep_order
  = foldM (BaseCatalog.concatenate_column [WA; WB] keep_order)
          (Spec.concatenate_start [WA; WB] colsA WA) colsA.
Proof.
  destruct HA as (HWA & HcolsA & _). destruct HB as (HWB & HcolsB & _).
  rewrite concatenate_unfold.
  assert (Hfilter : filterM (fun other =>
                               cols ← BaseCatalog.columns other None None;
                               Ok (bool_decide (cols ≠ []))) [WA; WB]
                    = Ok [WA; WB]).
  { cbn [filterM]. rewrite HcolsA, HcolsB. cbn.
    rewrite !bool_decide_eq_true_2; [done|apply two_colsB_ne|done]. }
  rewrite Hfilter, bind_Ok.
  change (py.getitem [WA; WB] 0) with (Ok WA). rewrite bind_Ok.
  rewrite (copy_Ok WA colsA HcolsA), bind_Ok.
  rewrite (columns_copy WA colsA _ HWA HcolsA), bind_Ok.
  cbn [foldM].
  assert (Hstart : length (imap (fun r self =>
                                   BaseCatalog.with_attrs self
                                     (BaseCatalog.concatenate_attrs [WA; WB] r))
                                (BaseCatalog.copy_local colsA <$> WA))
                   = length WA) by (by rewrite length_imap, length_fmap).
  rewrite (concatenate_check_Ok WA _ colsA colsA HcolsA Hstart eq_refl), bind_Ok.
  rewrite (concatenate_check_Ok WB _ colsB colsA HcolsB
             ltac:(by rewrite Hstart) (eq_sym Hset)), bind_Ok.
  rewrite bind_Ok. reflexivity.
Qed.

Lemma two_getitem_A self (c : string) :
  self ∈ WA -> c ∈ colsA ->
  BaseCatalog.__getitem__ self c
  = Ok (BaseCatalog.Array (Spec.local_column c self)).
Proof.
  intros Hs Hc. destruct HA as (_ & _ & Hget).
  destruct (Hget self c Hs Hc) as [a Ha]. by rewrite (local_column_Ok _ _ a).
Qed.

Lemma two_getitem_B self (c : string) :
  self ∈ WB -> c ∈ colsA ->
  BaseCatalog.__getitem__ self c
  = Ok (BaseCatalog.Array (Spec.local_column c self)).
Proof.
  intros Hs Hc. destruct HB as (_ & _ & Hget).
  destruct (Hget self c Hs (two_in_colsB c Hc)) as [a Ha].
  by rewrite (local_column_Ok _ _ a).
Qed.

Lemma two_cget_A (c : string) :
  c ∈ colsA -> BaseCatalog.cget WA c = Ok (Spec.gathered c WA).
Proof. intros Hc. by apply (cget_catalog_with WA colsA). Qed.

Lemma two_cget_B (c : string) :
  c ∈ colsA -> BaseCatalog.cget WB c = Ok (Spec.gathered c WB).
Proof.
  intros Hc. apply (cget_catalog_with WB colsB); [done|by apply two_in_colsB].
Qed.

(** One turn of the loop, rows kept in order: the two gathered columns,
    one after the other, scattered. *)
Lemma two_column_ordered (new : list (BaseCatalog.t A V)) (c : string) :
  c ∈ colsA ->
  BaseCatalog.concatenate_column [WA; WB] true new c
  = Ok (BaseCatalog.set_column c
          (mpi.scatter_array (length new)
             (Spec.gathered c WA ++ Spec.gathered c WB)) new).
Proof.
  intros Hc. unfold BaseCatalog.concatenate_column.
  rewrite (mapM_Ok_fmap _ (Spec.gathered c)).
  - cbn. by rewrite app_nil_r.
  - intros W HW. apply elem_of_cons in HW as [->|HW]; [by apply two_cget_A|].
    apply elem_of_cons in HW as [->|HW]; [by apply two_cget_B|].
    by apply elem_of_nil in HW.
Qed.

Lemma two_local_arrays (i : nat) (sA sB : BaseCatalog.t A V) (c : string) :
  WA !! i = Some sA -> WB !! i = Some sB -> c ∈ colsA ->
  mapM (fun other =>
          self ← py.getitem other i;
          v ← BaseCatalog.returned (BaseCatalog.get self c [] []);
          BaseCatalog.as_array v) [WA; WB]
  = Ok [Spec.local_column c sA; Spec.local_column c sB].
Proof.
  intros HsA HsB Hc. apply mapM_Ok_lookup; [done|].
  intros j other y Hj Hy.
  destruct j as [|[|j]]; cbn in Hj, Hy; try done;
    injection Hj as <-; injection Hy as <-; unfold py.getitem.
  - rewrite HsA, bind_Ok.
    change (BaseCatalog.returned (BaseCatalog.get sA c [] []))
      with (BaseCatalog.__getitem__ sA c).
    by rewrite (two_getitem_A sA c (list_elem_of_lookup_2 _ _ _ HsA) Hc).
  - rewrite HsB, bind_Ok.
    change (BaseCatalog.returned (BaseCatalog.get sB c [] []))
      with (BaseCatalog.__getitem__ sB c).
    by rewrite (two_getitem_B sB c (list_elem_of_lookup_2 _ _ _ HsB) Hc).
Qed.

(** One turn of the loop, no row moved: on every rank, its rows of the
    first catalog and then its rows of the second. *)
Lemma two_column_local (new : list (BaseCatalog.t A V)) (c : string) :
  c ∈ colsA -> length new = length WA ->
  BaseCatalog.concatenate_column [WA; WB] false new c
  = Ok (BaseCatalog.set_column c (Spec.local_concat c WA WB) new).
Proof.
  intros Hc Hnew. unfold BaseCatalog.concatenate_column.
  rewrite (mapM_Ok_lookup _ _ (Spec.local_concat c WA WB)); [done| |].
  - unfold Spec.local_concat. rewrite length_seq, length_zip_with. lia.
  - intros i rank y Hi Hy. apply lookup_seq in Hi as [-> _].
    unfold Spec.local_concat in Hy.
    apply lookup_zip_with_Some in Hy as (sA & sB & -> & HsA & HsB).
    cbv beta. change (0 + i)%nat with i.
    rewrite (two_local_arrays i sA sB c HsA HsB Hc). cbn.
    by rewrite app_nil_r.
Qed.

Lemma two_start_length :
  length (Spec.concatenate_start [WA; WB] colsA WA) = length WA.
Proof. unfold Spec.concatenate_start. by rewrite length_imap, length_fmap. Qed.

(** The whole loop: every column is set, on every rank, to the piece the
    rank receives. *)
Lemma two_loop (keep_order : bool) (pieces : string -> list (list A)) :
  (∀ c, length (pieces c) = length WA) ->
  (∀ new c, c ∈ colsA -> length new = length WA ->
     BaseCatalog.concatenate_column [WA; WB] keep_order new c
     = Ok (BaseCatalog.set_column c (pieces c) new)) ->
  ∃ new,
    BaseCatalog.concatenate [WA; WB] keep_order = Ok new
    ∧ length new = length WA
    ∧ ∀ r sA, WA !! r = Some sA ->
        ∃ self, new !! r = Some self
                ∧ (∀ c, c ∈ colsA ->
                     BaseCatalog.data self !! c
                     = BaseCatalog.Array <$> pieces c !! r)
                ∧ (∀ c, c ∉ colsA -> BaseCatalog.data self !! c = None).
Proof.
  intros Hpieces Hbody. rewrite concatenate_two_fold.
  set (step := fun (new : list (BaseCatalog.t A V)) c =>
                 zip_with (fun self piece =>
                             BaseCatalog.set self c (BaseCatalog.Array piece))
                          new (pieces c)).
  destruct (foldM_Ok_invariant (fun new => length new = length WA)
              (BaseCatalog.concatenate_column [WA; WB] keep_order) step colsA
              (Spec.concatenate_start [WA; WB] colsA WA) two_start_length)
    as [Hfold Hlength].
  { intros new c Hnew Hc. split; [by apply Hbody|].
    unfold step. rewrite length_zip_with, Hpieces. lia. }
  eexists. split; [exact Hfold|]. split; [exact Hlength|].
  intros r sA Hr.
  assert (Hr0 : Spec.concatenate_start [WA; WB] colsA WA !! r
                = Some (BaseCatalog.with_attrs
                          (BaseCatalog.copy_local colsA sA)
                          (BaseCatalog.concatenate_attrs [WA; WB] r))).
  { unfold Spec.concatenate_start.
    by rewrite list_lookup_imap, list_lookup_fmap, Hr. }
  assert (Hpc : ∀ c, c ∈ colsA ->
                  pieces c !! r = Some (default [] (pieces c !! r))).
  { intros c _.
    destruct (lookup_lt_is_Some_2 (pieces c) r) as [piece Hp].
    - rewrite Hpieces. by eapply lookup_lt_Some.
    - by rewrite Hp. }
  eexists. split.
  - unfold step.
    apply (foldl_zip_with_lookup
             (fun c self piece =>
                BaseCatalog.set self c (BaseCatalog.Array piece))
             pieces (fun c => default [] (pieces c !! r)) colsA _ r _ Hpc Hr0).
  - split; intros c Hc;
      rewrite (foldl_set_data
                 (fun c => BaseCatalog.Array (default [] (pieces c !! r)))).
    + rewrite decide_True by done. by rewrite (Hpc c Hc).
    + rewrite decide_False by done. cbn.
      apply not_elem_of_list_to_map_1.
      rewrite <- list_fmap_compose. intros Hin.
      apply list_elem_of_fmap in Hin as (c' & -> & Hc'). by apply Hc.
Qed.

End two.

(** C5: for two catalogs with the same columns on the same ranks, the
    concatenation that keeps the order has, for every column, gathered,
    the gathered rows of the first and then those of the second; the
    concatenation that does not keeps on every rank the rank's rows of the
    first and then the rank's rows of the second, so the local size is the
    sum of the two local sizes, and the column, gathered, is these local
    parts in rank order. *)
Theorem concatenate_two (WA WB : list (BaseCatalog.t A V))
    (colsA colsB : list string) (column : string) :
  Spec.catalog_with WA colsA ->
  Spec.catalog_with WB colsB ->
  length WA = length WB ->
  list_to_set colsA =@{gset string} list_to_set colsB ->
  column ∈ colsA ->
  (∃ new gA gB,
     BaseCatalog.concatenate [WA; WB] true = Ok new
     ∧ BaseCatalog.cget WA column = Ok gA
     ∧ BaseCatalog.cget WB column = Ok gB
     ∧ BaseCatalog.cget new column = Ok (gA ++ gB))
  ∧ (∃ new,
       BaseCatalog.concatenate [WA; WB] false = Ok new
       ∧ length new = length WA
       ∧ (∀ r sA sB, WA !! r = Some sA -> WB !! r = Some sB ->
            ∃ self,
              new !! r = Some self
              ∧ BaseCatalog.__getitem__ self column
                = Ok (BaseCatalog.Array
                        (Spec.local_column column sA
                           ++ Spec.local_column column sB))
              ∧ ∀ nA nB : Z,
                  (∀ c, c ∈ colsA ->
                     Z.of_nat (length (Spec.local_column c sA)) = nA) ->
                  (∀ c, c ∈ colsA ->
                     Z.of_nat (length (Spec.local_column c sB)) = nB) ->
                  BaseCatalog.__len__ self = Ok (nA + nB))
       ∧ BaseCatalog.cget new column
         = Ok (concat (Spec.local_concat column WA WB))).
Proof.
  intros HA HB Hlen Hset Hcol.
  assert (Hne : colsA ≠ []) by (intros ->; by apply elem_of_nil in Hcol).
  assert (HP : (0 < length WA)%nat).
  { destruct HA as (HWA & _). destruct WA; [done|cbn; lia]. }
  split.
  - destruct (two_loop WA WB colsA colsB HA HB Hlen Hset Hne true
                (fun c => mpi.scatter_array (length WA)
                            (Spec.gathered c WA ++ Spec.gathered c WB)))
      as (new & Hnew & Hlength & Hranks).
    { intros c. apply scatter_array_length. }
    { intros new c Hc Hl. rewrite <- Hl.
      by eapply two_column_ordered. }
    exists new, (Spec.gathered column WA), (Spec.gathered column WB).
    split; [done|].
    split; [by eapply two_cget_A|].
    split; [by eapply two_cget_B|].
    rewrite <- (gather_scatter (length WA)
                  (Spec.gathered column WA ++ Spec.gathered column WB) HP).
    apply cget_pieces.
    + by rewrite scatter_array_length.
    + intros r self piece Hr Hp.
      destruct (lookup_lt_is_Some_2 WA r) as [sA HsA].
      { rewrite <- Hlength. by eapply lookup_lt_Some. }
      destruct (Hranks r sA HsA) as (self' & Hr' & Hdata & _).
      rewrite Hr in Hr'. injection Hr' as <-.
      by rewrite (Hdata column Hcol), Hp.
  - destruct (two_loop WA WB colsA colsB HA HB Hlen Hset Hne false
                (fun c => Spec.local_concat c WA WB))
      as (new & Hnew & Hlength & Hranks).
    { intros c. unfold Spec.local_concat. rewrite length_zip_with. lia. }
    { intros new c Hc Hl. by eapply two_column_local. }
    exists new. split; [done|]. split; [done|]. split.
    + intros r sA sB HsA HsB.
      destruct (Hranks r sA HsA) as (self & Hr & Hdata & Hnone).
      exists self. split; [done|].
      assert (Hat : ∀ c, c ∈ colsA ->
                BaseCatalog.data self !! c
                = Some (BaseCatalog.Array
                          (Spec.local_column c sA ++ Spec.local_column c sB))).
      { intros c Hc. rewrite (Hdata c Hc). unfold Spec.local_concat.
        by rewrite lookup_zip_with, HsA, HsB. }
      split; [by apply getitem_hit, Hat|].
      intros nA nB HnA HnB. unfold BaseCatalog.__len__.
      destruct (map_to_list (BaseCatalog.data self)) as [|[k v] l] eqn:Hl.
      { apply map_to_list_empty_iff in Hl.
        specialize (Hat column Hcol). by rewrite Hl, lookup_empty in Hat. }
      assert (Hk : BaseCatalog.data self !! k = Some v).
      { apply elem_of_map_to_list. rewrite Hl. by left. }
      assert (Hkin : k ∈ colsA).
      { destruct (decide (k ∈ colsA)) as [|Hnin]; [done|].
        by rewrite (Hnone k Hnin) in Hk. }
      cbn. rewrite (getitem_hit _ _ _ Hk). cbn.
      rewrite (Hat k Hkin) in Hk. injection Hk as <-. cbn.
      rewrite length_app, <- (HnA k Hkin), <- (HnB k Hkin). f_equal. lia.
    + apply (cget_pieces new column (Spec.local_concat column WA WB)).
      * unfold Spec.local_concat. rewrite length_zip_with. lia.
      * intros r self piece Hr Hp.
        destruct (lookup_lt_is_Some_2 WA r) as [sA HsA].
        { rewrite <- Hlength. by eapply lookup_lt_Some. }
        destruct (Hranks r sA HsA) as (self' & Hr' & Hdata & _).
        rewrite Hr in Hr'. injection Hr' as <-.
        by rewrite (Hdata column Hcol), Hp.
Qed.

End concatenate_pair.

Section concatenate_examples.
Import Examples.

Lemma catalog_with_one_column (W : list (BaseCatalog.t Z string)) :
  W ≠ [] ->
  BaseCatalog.columns W None None = Ok ["v"] ->
  Forall (fun self => ∃ a, BaseCatalog.data self !! "v"
                           = Some (BaseCatalog.Array a)) W ->
  Spec.catalog_with (H := no_disk) W ["v"].
Proof.
  intros HW Hcols Hall. split; [done|]. split; [done|].
  intros self c Hself Hc. apply list_elem_of_singleton in Hc as ->.
  destruct (proj1 (Forall_forall _ _) Hall self Hself) as [a Ha].
  exists a. by apply getitem_hit.
Qed.

Lemma catalog_with_cat_a : Spec.catalog_with (H := no_disk) cat_a ["v"].
Proof.
  apply catalog_with_one_column; [done|vm_compute; reflexivity|].
  repeat constructor; eexists; vm_compute; reflexivity.
Qed.

Lemma catalog_with_cat_b : Spec.catalog_with (H := no_disk) cat_b ["v"].
Proof.
  apply catalog_with_one_column; [done|vm_compute; reflexivity|].
  repeat constructor; eexists; vm_compute; reflexivity.
Qed.

(** The scenario of the specification: the rows 0..4 and the rows 10..12,
    each on two ranks.  In order, the result gathers to 0..4 then 10..12;
    without order, to the parts of rank 0 and then those of rank 1. *)
Lemma concatenate_two_witness :
  (∃ new, BaseCatalog.concatenate (H := no_disk) [cat_a; cat_b] true = Ok new
          ∧ BaseCatalog.cget (H := no_disk) new "v"
            = Ok [0; 1; 2; 3; 4; 10; 11; 12])
  ∧ (∃ new, BaseCatalog.concatenate (H := no_disk) [cat_a; cat_b] false = Ok new
            ∧ BaseCatalog.cget (H := no_disk) new "v"
              = Ok [0; 1; 2; 10; 3; 4; 11; 12]).
Proof.
  destruct (concatenate_two (H := no_disk) cat_a cat_b ["v"] ["v"] "v"
              catalog_with_cat_a catalog_with_cat_b eq_refl eq_refl
              ltac:(by left))
    as [(new & gA & gB & Hnew & HgA & HgB & Hcget)
        (new' & Hnew' & _ & _ & Hcget')].
  split.
  - exists new. split; [done|]. rewrite Hcget.
    vm_compute in HgA. injection HgA as <-.
    vm_compute in HgB. injection HgB as <-. reflexivity.
  - exists new'. split; [done|]. rewrite Hcget'. vm_compute. reflexivity.
Defined.

End concatenate_examples.

(** ** [BaseFile.write] of a dict scattered over the ranks *)
Section write_scattered.
Context {A V D : Type} {handler : BaseFile.Writer A D}.
Implicit Types (d : list (string * list A)) (blocks : list (list A)).

Lemma assoc_key d (name : string) :
  name ∈ d.*1 -> ∃ col, py.assoc name d = Some col ∧ col ∈ d.*2.
Proof.
  induction d as [|[k c] d IH]; cbn; intros Hin; [by apply elem_of_nil in Hin|].
  destruct (decide (k = name)) as [->|Hne].
  - exists c. split; [done|]. by left.
  - apply elem_of_cons in Hin as [?|Hin]; [done|].
    destruct (IH Hin) as (col & Hcol & Hmem). exists col. split; [done|].
    by right.
Qed.

Lemma assoc_fmap_values {X Y : Type} (f : X -> Y) (l : list (string * X))
    (name : string) :
  py.assoc name ((fun '(k, x) => (k, f x)) <$> l) = f <$> py.assoc name l.
Proof.
  induction l as [|[k x] l IH]; cbn; [done|]. by destruct (decide (k = name)).
Qed.

Lemma fmap_values_keys {X Y : Type} (f : X -> Y) (l : list (string * X)) :
  ((fun '(k, x) => (k, f x)) <$> l).*1 = l.*1.
Proof. induction l as [|[k x] l IH]; cbn; [done|]. by f_equal. Qed.

Lemma scattered_column_length (names : list string)
    (locals : list (list (string * list A))) d (name : string) :
  Spec.scattered_dicts names locals -> d ∈ locals -> name ∈ names ->
  BaseFile.write_size (true, BaseFile.WDict d)
  = Ok (Z.of_nat (length (Spec.dict_column name d))).
Proof.
  intros (Hnames & _ & Hall) Hd Hname.
  destruct (proj1 (Forall_forall _ _) Hall d Hd) as (Hkeys & n & Hn).
  rewrite <- Hkeys in Hname.
  destruct (assoc_key _ name Hname) as (col & Hcol & Hmem).
  unfold Spec.dict_column. rewrite Hcol.
  destruct d as [|[k0 c0] d']; [by rewrite <- Hkeys in Hnames|].
  cbn. f_equal. f_equal.
  rewrite (proj1 (Forall_forall _ _) Hn col Hmem).
  apply (proj1 (Forall_forall _ _) Hn c0). by left.
Qed.

(** The sizes [write] gathers are the row counts of any one column. *)
Lemma scattered_sizes (names : list string)
    (locals : list (list (string * list A))) (name : string) :
  Spec.scattered_dicts names locals -> name ∈ names ->
  mapM BaseFile.write_size ((fun d => (true, BaseFile.WDict d)) <$> locals)
  = Ok (Spec.lens (Spec.dict_column name <$> locals)).
Proof.
  intros Hsc Hname. unfold Spec.lens. rewrite <- list_fmap_compose.
  assert (Hgen : ∀ l : list (list (string * list A)),
            (∀ d, d ∈ l -> d ∈ locals) ->
            mapM BaseFile.write_size ((fun d => (true, BaseFile.WDict d)) <$> l)
            = Ok (((fun l0 => Z.of_nat (length l0)) ∘ Spec.dict_column name)
                    <$> l)).
  { induction l as [|d l IH]; intros Hl; [done|].
    rewrite fmap_cons.
    change (mapM ?f (?x :: ?k)) with (y ← f x; k' ← mapM f k; mret (y :: k')).
    pose proof (scattered_column_length names locals d name Hsc
                  (Hl d ltac:(by left)) Hname) as Hd.
    rewrite Hd, bind_Ok, IH; [done|].
    intros d' Hd'. apply Hl. by right. }
  by apply Hgen.
Qed.

Lemma last_cumsum_lens blocks :
  blocks ≠ [] ->
  last (py.cumsum (Spec.lens blocks)) = Some (py.sum (Spec.lens blocks)).
Proof.
  intros Hne. rewrite last_lookup, length_cumsum_lens.
  assert (0 < length blocks)%nat by (destruct blocks; [done|cbn; lia]).
  rewrite cumsum_lookup by lia.
  replace (S (Init.Nat.pred (length blocks))) with (length blocks) by lia.
  by rewrite offset_total.
Qed.

(** The rows one rank gives to a file: the rows of its block that lie in
    the range of the file. *)
Lemma write_rows_block blocks (r : nat) block (start stop : Z) :
  blocks !! r = Some block ->
  0 <= start -> start <= stop ->
  ∃ a b,
    BaseFile.write_rows (Spec.lens blocks) (py.cumsum (Spec.lens blocks))
      r start stop = Ok (a, b)
    ∧ py.getslice a b block
      = Spec.rows (start - Spec.offset blocks r) (stop - Spec.offset blocks r)
          block.
Proof.
  intros Hr Hs Hse. unfold BaseFile.write_rows.
  assert (Hrlt : (r < length blocks)%nat) by (by eapply lookup_lt_Some).
  set (lo := py.searchsorted_left _ start).
  set (hi := py.searchsorted_left _ stop).
  destruct (decide (lo <= r <= hi)%nat) as [[Hlo Hhi]|Hout].
  - assert (Hcum : (if decide (r = 0%nat) then Ok 0
                    else py.getitem (py.cumsum (Spec.lens blocks)) (r - 1))
                   = Ok (Spec.offset blocks r)).
    { destruct r as [|r]; [done|]. rewrite decide_False by lia.
      unfold py.getitem. rewrite cumsum_lookup by lia.
      by replace (S (S r - 1)) with (S r) by lia. }
    rewrite Hcum, bind_Ok. unfold py.getitem, Spec.lens.
    rewrite list_lookup_fmap, Hr. cbn.
    eexists _, _. split; [done|].
    destruct (rows_bounds_inside blocks start stop r block Hs Hse Hlo Hhi Hr)
      as (H0 & H1 & H2).
    rewrite getslice_rows by done. apply rows_clip.
  - exists 0, 0. split; [done|].
    assert (Hnil : Spec.rows (start - Spec.offset blocks r)
                     (stop - Spec.offset blocks r) block = []).
    { replace block with (default [] (blocks !! r)) by (by rewrite Hr).
      destruct (decide (r < lo)%nat).
      - by apply rows_before_start.
      - apply rows_after_stop. fold hi. lia. }
    rewrite Hnil. unfold py.getslice, py.slice_index.
    rewrite !decide_False by lia. by rewrite Z.sub_diag.
Qed.

Lemma scattered_lens (names : list string)
    (locals : list (list (string * list A))) (name name' : string) :
  Spec.scattered_dicts names locals -> name ∈ names -> name' ∈ names ->
  Spec.lens (Spec.dict_column name <$> locals)
  = Spec.lens (Spec.dict_column name' <$> locals).
Proof.
  intros Hsc Hn Hn'.
  pose proof (scattered_sizes names locals name Hsc Hn) as H1.
  pose proof (scattered_sizes names locals name' Hsc Hn') as H2.
  rewrite H1 in H2. by injection H2.
Qed.

Lemma scattered_tmps (names : list string)
    (locals : list (list (string * list A))) (name0 : string)
    (start stop : Z) :
  Spec.scattered_dicts names locals -> name0 ∈ names ->
  0 <= start -> start <= stop ->
  let sizes := Spec.lens (Spec.dict_column name0 <$> locals) in
  mapM (fun '(rank, local) =>
          rows ← BaseFile.write_rows sizes (py.cumsum sizes) rank start stop;
          BaseFile.write_tmp local rows)
       (zip (seq 0 (length ((fun d => (true, BaseFile.WDict d)) <$> locals)))
            ((fun d => (true, BaseFile.WDict d)) <$> locals))
  = Ok (imap (Spec.scattered_tmp sizes start stop) locals).
Proof.
  intros Hsc Hname Hs Hse sizes. apply mapM_Ok_lookup.
  - rewrite length_zip, length_seq, length_imap, !length_fmap. lia.
  - intros i [rank local] y Hi Hy.
    apply lookup_zip_Some in Hi as [Hrank Hlocal]. cbn in Hrank, Hlocal.
    apply lookup_seq in Hrank as [-> _].
    rewrite list_lookup_fmap in Hlocal. rewrite list_lookup_imap in Hy.
    destruct (locals !! i) as [d|] eqn:Hd; [|done].
    injection Hlocal as <-. injection Hy as <-.
    destruct (write_rows_block (Spec.dict_column name0 <$> locals) i
                (Spec.dict_column name0 d) start stop) as (a & b & Hab & _);
      [by rewrite list_lookup_fmap, Hd|done|done|].
    unfold Spec.scattered_tmp. fold sizes in Hab. cbn. by rewrite Hab.
Qed.

Lemma sum_lens_length blocks :
  py.sum (Spec.lens blocks) = Z.of_nat (length (concat blocks)).
Proof.
  rewrite <- offset_total. unfold Spec.offset. by rewrite firstn_all.
Qed.

Lemma foldM_ext_in {S X : Type} (f g : S -> X -> result S) (l : list X)
    (s : S) :
  (∀ s x, x ∈ l -> f s x = g s x) -> foldM f s l = foldM g s l.
Proof.
  revert s. induction l as [|x l IH]; intros s Hfg; [done|].
  cbn. rewrite (Hfg s x) by left. destruct (g s x) as [s'|e]; [|done].
  cbn. apply IH. intros s0 y Hy. apply Hfg. by right.
Qed.

Lemma foldM_fmap {S X Y : Type} (f : S -> Y -> result S) (h : X -> Y)
    (l : list X) (s : S) :
  foldM f s (h <$> l) = foldM (fun s x => f s (h x)) s l.
Proof.
  revert s. induction l as [|x l IH]; intros s; [done|].
  cbn. destruct (f s (h x)) as [s'|e]; [|done]. cbn. apply IH.
Qed.

(** The [data] one rank gives for a file has the columns of its dict. *)
Lemma scattered_tmp_keys blocks (start stop : Z) (r : nat) d :
  (r < length blocks)%nat -> 0 <= start -> start <= stop ->
  (Spec.scattered_tmp (Spec.lens blocks) start stop r d).*1 = d.*1.
Proof.
  intros Hr Hs Hse. destruct (lookup_lt_is_Some_2 blocks r Hr) as [block Hb].
  destruct (write_rows_block blocks r block start stop Hb Hs Hse)
    as (a & b & Hab & _).
  unfold Spec.scattered_tmp. rewrite Hab. apply fmap_values_keys.
Qed.

(** The rows of a column one rank gives for a file: the rows of its own
    that lie in the range of the file. *)
Lemma scattered_tmp_rows (names : list string)
    (locals : list (list (string * list A))) (name : string)
    (start stop : Z) (r : nat) d :
  Spec.scattered_dicts names locals -> name ∈ names ->
  0 <= start -> start <= stop ->
  locals !! r = Some d ->
  let blocks := Spec.dict_column name <$> locals in
  Spec.dict_column name (Spec.scattered_tmp (Spec.lens blocks) start stop r d)
  = Spec.rows (start - Spec.offset blocks r) (stop - Spec.offset blocks r)
      (default [] (blocks !! r)).
Proof.
  intros Hsc Hname Hs Hse Hd blocks.
  pose proof Hsc as (_ & _ & Hall).
  assert (Hkey : name ∈ d.*1).
  { destruct (Forall_lookup_1 _ _ _ _ Hall Hd) as [-> _]. done. }
  assert (Hb : blocks !! r = Some (Spec.dict_column name d))
    by (unfold blocks; by rewrite list_lookup_fmap, Hd).
  destruct (write_rows_block blocks r _ start stop Hb Hs Hse)
    as (a & b & Hab & Hrows).
  unfold Spec.scattered_tmp. rewrite Hab, Hb. cbn.
  unfold Spec.dict_column at 1. rewrite assoc_fmap_values, <- Hrows.
  unfold Spec.dict_column.
  destruct (assoc_key d name Hkey) as (col & -> & _). done.
Qed.

(** A rank that is not between [irank_start] and [irank_stop] gives
    [slice(0, 0)] of every column. *)
Lemma scattered_tmp_outside (sizes : list Z) (start stop : Z) (r : nat) d
    (name : string) :
  ¬ (py.searchsorted_left (py.cumsum sizes) start <= r
     <= py.searchsorted_left (py.cumsum sizes) stop)%nat ->
  Spec.dict_column name (Spec.scattered_tmp sizes start stop r d) = [].
Proof.
  intros Hout. unfold Spec.scattered_tmp, BaseFile.write_rows.
  rewrite decide_False by done. unfold Spec.dict_column.
  rewrite assoc_fmap_values. destruct (py.assoc name d) as [col|]; [|done].
  cbn. unfold py.getslice, py.slice_index.
  rewrite !decide_False by lia. by rewrite Z.sub_diag.
Qed.

(** What the ranks give for a file, in rank order: the rows of the range
    of the file, out of the column of all ranks in rank order. *)
Lemma scattered_handed (names : list string)
    (locals : list (list (string * list A))) (name : string)
    (start stop : Z) :
  Spec.scattered_dicts names locals -> name ∈ names ->
  0 <= start -> start <= stop ->
  let blocks := Spec.dict_column name <$> locals in
  Spec.handed name (imap (Spec.scattered_tmp (Spec.lens blocks) start stop)
                         locals)
  = Spec.rows start stop (concat blocks).
Proof.
  intros Hsc Hname Hs Hse blocks. unfold Spec.handed.
  rewrite <- (rows_blocks blocks start stop). f_equal.
  apply list_eq. intros r. rewrite !list_lookup_fmap, list_lookup_imap.
  destruct (locals !! r) as [d|] eqn:Hd.
  - rewrite lookup_seq_lt.
    + cbn. f_equal.
      by apply (scattered_tmp_rows names locals name start stop r d).
    + unfold blocks. rewrite length_fmap. exact (lookup_lt_Some _ _ _ Hd).
  - rewrite lookup_seq_ge; [done|].
    unfold blocks. rewrite length_fmap. by apply lookup_ge_None.
Qed.

(** [write] of scattered dicts is the calls of [_write_file_slice] for
    the files in order, rank [r] giving in the call for a file the rows
    [write_rows] cuts out of its dict. *)
Lemma write_scattered_calls (W : list (BaseFile.t V)) (root : BaseFile.t V)
    (names : list string) (locals : list (list (string * list A)))
    (name : string) :
  W !! 0%nat = Some root ->
  Spec.scattered_dicts names locals ->
  name ∈ names ->
  let blocks := Spec.dict_column name <$> locals in
  let csize := Z.of_nat (length (concat blocks)) in
  let nfiles := Z.of_nat (length (BaseFile.filenames root)) in
  ∃ calls,
    (∀ s : D, BaseFile.write W (BaseFile.WDict <$> locals) None s
              = Spec.write_file_slices calls s)
    ∧ calls.*1 = BaseFile.filenames root
    ∧ ∀ (ifile : nat) (filename : string) tmps,
        calls !! ifile = Some (filename, tmps) ->
        0 <= Z.of_nat ifile * csize / nfiles
        ∧ Z.of_nat ifile * csize / nfiles
          <= (Z.of_nat ifile + 1) * csize / nfiles
        ∧ tmps = imap (Spec.scattered_tmp (Spec.lens blocks)
                         (Z.of_nat ifile * csize / nfiles)
                         ((Z.of_nat ifile + 1) * csize / nfiles)) locals.
Proof.
  intros Hroot Hsc Hname blocks csize nfiles.
  pose proof Hsc as (Hnames & Hlocals & Hall).
  set (sizes := Spec.lens blocks).
  assert (Hsum : py.sum sizes = csize) by apply sum_lens_length.
  assert (Hcsize : 0 <= csize) by (unfold csize; lia).
  assert (Hblocks : blocks ≠ []) by (unfold blocks; by destruct locals).
  set (call := fun x : nat * string =>
         (x.2, imap (Spec.scattered_tmp sizes
                       (Z.of_nat x.1 * csize / nfiles)
                       ((Z.of_nat x.1 + 1) * csize / nfiles)) locals)).
  set (files := zip (seq 0 (length (BaseFile.filenames root)))
                    (BaseFile.filenames root)).
  assert (Hfiles : ∀ i x, files !! i = Some x ->
            x.1 = i ∧ BaseFile.filenames root !! i = Some x.2
            ∧ 0 < nfiles).
  { intros i [ifile filename] Hi.
    apply lookup_zip_Some in Hi as [Hi Hfn]. cbn in Hi, Hfn.
    apply lookup_seq in Hi as [-> Hlt]. cbn. unfold nfiles. split; [done|].
    split; [done|]. lia. }
  exists (call <$> files). split; [|split].
  - intros s. unfold BaseFile.write, py.getitem. rewrite Hroot, bind_Ok.
    unfold BaseFile.write_scatter. rewrite <- list_fmap_compose, bind_Ok.
    change ((fun data => (BaseFile.isinstance_dict data, data))
              ∘ BaseFile.WDict)
      with (fun d : list (string * list A) => (true, BaseFile.WDict d)).
    rewrite (scattered_sizes names locals name Hsc Hname), bind_Ok.
    unfold mpi.allgather. fold blocks.
    rewrite (last_cumsum_lens _ Hblocks), bind_Ok.
    fold sizes. rewrite Hsum. fold nfiles. fold files.
    unfold Spec.write_file_slices. rewrite foldM_fmap.
    apply foldM_ext_in. intros s' [ifile filename] [i Hi]%list_elem_of_lookup.
    destruct (Hfiles i _ Hi) as (_ & _ & Hnf). cbn [fst snd call].
    rewrite (scattered_tmps names locals name _ _ Hsc Hname).
    + done.
    + apply Z.div_pos; lia.
    + apply block_mono; lia.
  - rewrite <- list_fmap_compose.
    change (fst ∘ call) with (snd (A := nat) (B := string)).
    apply snd_zip. rewrite length_seq. lia.
  - intros ifile filename tmps Hcall. rewrite list_lookup_fmap in Hcall.
    destruct (files !! ifile) as [[i fn]|] eqn:Hi; [|done].
    destruct (Hfiles ifile _ Hi) as (Hi' & _ & Hnf). cbn in Hi'. subst i.
    injection Hcall as <- <-. cbn [fst].
    split; [apply Z.div_pos; lia|]. split; [apply block_mono; lia|done].
Qed.

(** The same, with the rows of a call given by any of the columns. *)
Lemma write_scattered_calls_all (W : list (BaseFile.t V))
    (root : BaseFile.t V) (names : list string)
    (locals : list (list (string * list A))) :
  W !! 0%nat = Some root ->
  Spec.scattered_dicts names locals ->
  ∃ calls,
    (∀ s : D, BaseFile.write W (BaseFile.WDict <$> locals) None s
              = Spec.write_file_slices calls s)
    ∧ calls.*1 = BaseFile.filenames root
    ∧ ∀ (ifile : nat) (filename : string) tmps (name : string),
        calls !! ifile = Some (filename, tmps) ->
        name ∈ names ->
        let blocks := Spec.dict_column name <$> locals in
        let csize := Z.of_nat (length (concat blocks)) in
        let nfiles := Z.of_nat (length (BaseFile.filenames root)) in
        0 <= Z.of_nat ifile * csize / nfiles
        ∧ Z.of_nat ifile * csize / nfiles
          <= (Z.of_nat ifile + 1) * csize / nfiles
        ∧ tmps = imap (Spec.scattered_tmp (Spec.lens blocks)
                         (Z.of_nat ifile * csize / nfiles)
                         ((Z.of_nat ifile + 1) * csize / nfiles)) locals.
Proof.
  intros Hroot Hsc. pose proof Hsc as (Hnames & Hlocals & Hall).
  destruct names as [|name0 names0] eqn:Hn; [done|]. rewrite <- Hn in *.
  assert (Hname0 : name0 ∈ names) by (rewrite Hn; by left).
  destruct (write_scattered_calls W root names locals name0 Hroot Hsc Hname0)
    as (calls & Hrun & Hfiles & Hcalls).
  exists calls. split; [exact Hrun|]. split; [exact Hfiles|].
  intros ifile filename tmps name Hcall Hname blocks csize nfiles.
  destruct (Hcalls ifile filename tmps Hcall) as (Hs & Hse & ->).
  rewrite (scattered_lens names locals name0 name Hsc Hname0 Hname) in *.
  assert (Hlens : length (concat (Spec.dict_column name0 <$> locals))
                  = length (concat blocks)).
  { apply Nat2Z.inj. rewrite <- !sum_lens_length.
    by rewrite (scattered_lens names locals name0 name Hsc Hname0 Hname). }
  rewrite Hlens in *. done.
Qed.

(** [write] of a dict of columns that is scattered over the ranks, with no
    root, whatever the handler: [write] is the calls of
    [_write_file_slice], one for each file in the order of the file
    names.  In the call for the file number [ifile] of [nfiles], every
    rank gives a dict with the columns of its own; for each column, the
    rows the ranks give, in rank order, are the rows
    [[ifile*csize//nfiles, (ifile+1)*csize//nfiles)] of the column of all
    ranks in rank order, [csize] being the number of these rows; the rank
    [r] gives the rows of its own that lie in this range, and
    [slice(0, 0)] when it is not between [irank_start] and
    [irank_stop]. *)
Theorem write_scattered_dict (W : list (BaseFile.t V)) (root : BaseFile.t V)
    (names : list string) (locals : list (list (string * list A))) :
  W !! 0%nat = Some root ->
  Spec.scattered_dicts names locals ->
  ∃ calls,
    (∀ s : D, BaseFile.write W (BaseFile.WDict <$> locals) None s
              = Spec.write_file_slices calls s)
    ∧ calls.*1 = BaseFile.filenames root
    ∧ ∀ (ifile : nat) (filename : string) tmps (name : string),
        calls !! ifile = Some (filename, tmps) ->
        name ∈ names ->
        let column := Spec.dict_column name <$> locals in
        let csize := Z.of_nat (length (concat column)) in
        let nfiles := Z.of_nat (length (BaseFile.filenames root)) in
        let start := Z.of_nat ifile * csize / nfiles in
        let stop := (Z.of_nat ifile + 1) * csize / nfiles in
        let cumsizes := py.cumsum (Spec.lens column) in
        length tmps = length locals
        ∧ Spec.handed name tmps = Spec.rows start stop (concat column)
        ∧ ∀ (r : nat) tmp, tmps !! r = Some tmp ->
            tmp.*1 = names
            ∧ Spec.dict_column name tmp
              = Spec.rows (start - Spec.offset column r)
                  (stop - Spec.offset column r) (default [] (column !! r))
            ∧ (¬ (py.searchsorted_left cumsizes start <= r
                  <= py.searchsorted_left cumsizes stop)%nat ->
               Spec.dict_column name tmp = []).
Proof.
  intros Hroot Hsc. pose proof Hsc as (Hnames & Hlocals & Hall).
  destruct (write_scattered_calls_all W root names locals Hroot Hsc)
    as (calls & Hrun & Hfiles & Hcalls).
  exists calls. split; [exact Hrun|]. split; [exact Hfiles|].
  intros ifile filename tmps name Hcall Hname column csize nfiles start stop
    cumsizes.
  destruct (Hcalls ifile filename tmps name Hcall Hname) as (Hs & Hse & ->).
  fold column in Hs, Hse |- *. fold csize in Hs, Hse |- *.
  fold nfiles in Hs, Hse |- *. fold start in Hs, Hse |- *.
  fold stop in Hse |- *.
  split; [by rewrite length_imap|]. split.
  - by apply (scattered_handed names locals name start stop).
  - intros r tmp Hr. rewrite list_lookup_imap in Hr.
    destruct (locals !! r) as [d|] eqn:Hd; [|done]. injection Hr as <-.
    split; [|split].
    + rewrite scattered_tmp_keys; try done.
      * by destruct (Forall_lookup_1 _ _ _ _ Hall Hd) as [-> _].
      * unfold column. rewrite length_fmap. by eapply lookup_lt_Some.
    + by apply (scattered_tmp_rows names locals name start stop r d).
    + apply scattered_tmp_outside.
Qed.

End write_scattered.

Section write_examples.
Import Examples.

(** The handler that keeps the calls: after the calls of a list, it holds
    them in order. *)
Lemma log_writer_calls
    (calls log : list (string * list (list (string * list Z)))) :
  Spec.write_file_slices (handler := log_writer) calls log
  = Ok (log ++ calls).
Proof.
  revert log. induction calls as [|[filename tmps] calls IH]; intros log.
  - by rewrite app_nil_r.
  - change (Spec.write_file_slices (handler := log_writer) calls
              (log ++ [(filename, tmps)])
            = Ok (log ++ (filename, tmps) :: calls)).
    rewrite IH. by rewrite <- app_assoc.
Qed.

(** Five rows of a column [X], three on rank 0 and two on rank 1, written
    to two files: for the first file, rank 0 gives the rows [0, 2) and
    rank 1 no row; for the second, rank 0 gives its last row and rank 1
    its two rows. *)
Lemma write_scattered_dict_witness :
  ∃ calls,
    (∀ log,
       BaseFile.write (handler := log_writer) (handles 2 ["a.h5"; "b.h5"])
         [BaseFile.WDict [("X", [1; 2; 3])]; BaseFile.WDict [("X", [4; 5])]]
         None log
       = Ok (log ++ calls))
    ∧ calls = [("a.h5", [[("X", [1; 2])]; [("X", [])]]);
               ("b.h5", [[("X", [3])]; [("X", [4; 5])]])].
Proof.
  destruct (write_scattered_dict (handler := log_writer)
              (handles 2 ["a.h5"; "b.h5"]) _
              ["X"] [[("X", [1; 2; 3])]; [("X", [4; 5])]] eq_refl)
    as (calls & Hrun & Hfiles & Hrows).
  { split; [done|]. split; [done|].
    constructor; [|constructor; [|constructor]]; (split; [reflexivity|]).
    - exists 3%nat. by repeat constructor.
    - exists 2%nat. by repeat constructor. }
  change (BaseFile.WDict <$> [[("X", [1; 2; 3])]; [("X", [4; 5])]])
    with [BaseFile.WDict [("X", [1; 2; 3])]; BaseFile.WDict [("X", [4; 5])]]
    in Hrun.
  exists calls. split.
  - intros log. by rewrite Hrun, log_writer_calls.
  - pose proof (Hrun []) as Hnil. rewrite log_writer_calls in Hnil.
    vm_compute in Hnil. by injection Hnil as <-.
Defined.

End write_examples.

(** ** [BaseFile.__init__] *)
Section init.
Context {A V : Type} `{!BaseFile.Codec A V}.

(** The handles [__init__] makes before it reads any header. *)
Lemma init_unopened (P : nat) (filename : list string)
    (attrs : option (gmap string V)) (mode : string) :
  py.lower mode ∈ ["r"; "w"; "rw"; ""] ->
  BaseFile.__init__ (A := A) P filename attrs mode
  = let W := (fun r => {| BaseFile.filenames := filename;
                          BaseFile.attrs := default ∅ attrs;
                          BaseFile.extra := ∅;
                          BaseFile.mpicomm := mpi.Comm r P;
                          BaseFile.mpiroot := 0; BaseFile.hdr := None |})
               <$> seq 0 P in
    if py.contains "r" (py.lower mode) then BaseFile._read_header W else Ok W.
Proof.
  intros Hmode. unfold BaseFile.__init__.
  by rewrite bool_decide_eq_true_2.
Qed.

Lemma comm_ok_seq (P : nat) (f : nat -> BaseFile.t V) :
  (∀ r, BaseFile.mpicomm (f r) = mpi.Comm r P) ->
  Spec.comm_ok (f <$> seq 0 P).
Proof.
  intros Hf r self Hr. rewrite list_lookup_fmap in Hr.
  destruct (seq 0 P !! r) as [r'|] eqn:Hseq; [|done].
  apply lookup_seq in Hseq as [-> _]. injection Hr as <-.
  by rewrite Hf, length_fmap, length_seq.
Qed.

Lemma comm_ok_read_header (W W' : list (BaseFile.t V)) :
  Spec.comm_ok W -> BaseFile._read_header W = Ok W' ->
  length W' = length W ∧ Spec.comm_ok W'
  ∧ ∀ r self', W' !! r = Some self' ->
      ∃ self, W !! r = Some self
              ∧ BaseFile.filenames self' = BaseFile.filenames self
              ∧ BaseFile.mpiroot self' = BaseFile.mpiroot self
              ∧ is_Some (BaseFile.hdr self').
Proof.
  intros Hcomm HW. destruct W as [|root W0] eqn:HeqW.
  { injection HW as <-. split; [done|]. split; [done|]. by intros r self'. }
  rewrite <- HeqW in *.
  destruct (read_header_fmap W W' root ltac:(by rewrite HeqW) HW)
    as (state & _ & ->).
  assert (Hat : ∀ r self',
             (BaseFile._read_header_bind state <$> W) !! r = Some self' ->
             ∃ self, W !! r = Some self
                     ∧ self' = BaseFile._read_header_bind state self).
  { intros r self' Hr. rewrite list_lookup_fmap in Hr.
    destruct (W !! r) as [self|]; [|done]. injection Hr as <-. eauto. }
  split; [by rewrite length_fmap|]. split.
  - intros r self' Hr. destruct (Hat r self' Hr) as (self & Hs & ->).
    cbn. rewrite length_fmap. by apply Hcomm.
  - intros r self' Hr. destruct (Hat r self' Hr) as (self & Hs & ->).
    exists self. cbn. eauto.
Qed.

(** [BaseFile(filename, attrs, mode)] on P ranks: the mode is checked
    whatever its case; the handles that come back are P, the handle of
    rank r at index r with the communicator of size P, all for the same
    file names and with root 0, and they hold a header exactly when the
    mode has an [r]; a mode without [r] reads no file. *)
Theorem init_opened (P : nat) (filename : list string)
    (attrs : option (gmap string V)) (mode : string) :
  (py.lower mode ∉ ["r"; "w"; "rw"; ""] ->
   BaseFile.__init__ (A := A) P filename attrs mode
   = Raise (ValueError "mode must be one of ['r', 'w', 'rw', '']"))
  ∧ (py.lower mode ∈ ["w"; ""] ->
     BaseFile.__init__ (A := A) P filename attrs mode
     = Ok ((fun r => {| BaseFile.filenames := filename;
                        BaseFile.attrs := default ∅ attrs;
                        BaseFile.extra := ∅;
                        BaseFile.mpicomm := mpi.Comm r P;
                        BaseFile.mpiroot := 0; BaseFile.hdr := None |})
             <$> seq 0 P))
  ∧ (∀ W, BaseFile.__init__ (A := A) P filename attrs mode = Ok W ->
       py.lower mode ∈ ["r"; "w"; "rw"; ""]
       ∧ length W = P ∧ Spec.comm_ok W
       ∧ ∀ self, self ∈ W ->
           BaseFile.filenames self = filename
           ∧ BaseFile.mpiroot self = 0%nat
           ∧ (is_Some (BaseFile.hdr self)
              <-> py.contains "r" (py.lower mode) = true)).
Proof.
  split; [|split].
  - intros Hmode. unfold BaseFile.__init__.
    by rewrite bool_decide_eq_false_2.
  - intros Hmode. rewrite init_unopened.
    + cbn zeta.
      assert (Hr : py.contains "r" (py.lower mode) = false).
      { apply elem_of_cons in Hmode as [->|Hmode]; [done|].
        apply list_elem_of_singleton in Hmode as ->. done. }
      by rewrite Hr.
    + apply elem_of_cons in Hmode as [->|Hmode]; [by right; left|].
      apply list_elem_of_singleton in Hmode as ->. by do 3 right; left.
  - intros W HW.
    destruct (decide (py.lower mode ∈ ["r"; "w"; "rw"; ""])) as [Hmode|Hmode].
    2:{ unfold BaseFile.__init__ in HW.
        by rewrite bool_decide_eq_false_2 in HW. }
    split; [done|]. rewrite init_unopened in HW by done. cbn zeta in HW.
    set (f := fun r : nat =>
                {| BaseFile.filenames := filename;
                   BaseFile.attrs := default ∅ attrs; BaseFile.extra := ∅;
                   BaseFile.mpicomm := mpi.Comm r P; BaseFile.mpiroot := 0;
                   BaseFile.hdr := @None (BaseFile.header) |}) in *.
    assert (Hcomm : Spec.comm_ok (f <$> seq 0 P)) by (by apply comm_ok_seq).
    assert (Hf : ∀ r self, (f <$> seq 0 P) !! r = Some self ->
               BaseFile.filenames self = filename
               ∧ BaseFile.mpiroot self = 0%nat ∧ BaseFile.hdr self = None).
    { intros r self Hr. rewrite list_lookup_fmap in Hr.
      destruct (seq 0 P !! r); [|done]. by injection Hr as <-. }
    destruct (py.contains "r" (py.lower mode)) eqn:Hr.
    + destruct (comm_ok_read_header _ _ Hcomm HW) as (Hlen & Hcomm' & Hat).
      split; [by rewrite Hlen, length_fmap, length_seq|]. split; [done|].
      intros self [r Hself]%list_elem_of_lookup.
      destruct (Hat r self Hself) as (self0 & Hs0 & -> & -> & Hh).
      destruct (Hf r self0 Hs0) as (-> & -> & _). done.
    + injection HW as <-.
      split; [by rewrite length_fmap, length_seq|]. split; [done|].
      intros self [r Hself]%list_elem_of_lookup.
      destruct (Hf r self Hself) as (-> & -> & ->).
      split; [done|]. split; [done|]. split; [by intros [? ?]|done].
Qed.

End init.

(** ** [BaseFile._read_header]: the files that can be opened together *)
Section schema.
Context {A V : Type} `{!BaseFile.Codec A V}.

Lemma assoc_is_Some {T : Type} (items : list (string * T)) (name : string) :
  is_Some (py.assoc name items) <-> name ∈ items.*1.
Proof.
  induction items as [|[k v] items IH]; cbn.
  - split; [by intros [? ?]|]. by intros ?%elem_of_nil.
  - destruct (decide (k = name)) as [->|Hne].
    + split; [intros _; by left|eauto].
    + rewrite IH. split; [by right|].
      intros [?|?]%elem_of_cons; done.
Qed.

(** The loop [for name in names: setattr(self, name, di[name])]. *)
Lemma extra_loop (items : list (string * V)) (names : list string)
    (ex : gmap string V) :
  (∃ ex', foldM (fun ex name =>
                   match py.assoc name items with
                   | Some v => Ok (<[name := v]> ex)
                   | None => Raise (KeyError name)
                   end) ex names = Ok ex')
  <-> ∀ name, name ∈ names -> name ∈ items.*1.
Proof.
  revert ex. induction names as [|n names IH]; intros ex; cbn.
  - split; [by intros _ name ?%elem_of_nil|eauto].
  - destruct (py.assoc n items) as [v|] eqn:Hn; cbn.
    + rewrite IH. split.
      * intros Hall name [->|?]%elem_of_cons; [|by apply Hall].
        apply assoc_is_Some. by rewrite Hn.
      * intros Hall name Hname. apply Hall. by right.
    + split; [by intros [? ?]|]. intros Hall.
      assert (Hin : n ∈ items.*1) by (apply Hall; by left).
      apply assoc_is_Some in Hin as [v Hv]. by rewrite Hn in Hv.
Qed.

Implicit Types (s : BaseFile.hloop V) (di : BaseFile.FileHeader V).

Lemma forallb_elem_of (cols l : list string) :
  forallb (fun c => bool_decide (c ∈ cols)) l = true
  <-> ∀ c, c ∈ l -> c ∈ cols.
Proof.
  rewrite forallb_forall. split.
  - intros Hall c Hc. apply list_elem_of_In in Hc.
    specialize (Hall c Hc). by apply bool_decide_eq_true in Hall.
  - intros Hall c Hc. apply bool_decide_eq_true, Hall. by apply list_elem_of_In.
Qed.

(** The first turn of the loop: the columns and the other keys of the
    first file are kept. *)
Lemma header_step_first s (filename : string) di :
  BaseFile.l_columns s = None -> BaseFile.l_names s = None ->
  BaseFile._read_file_header filename = Ok di ->
  ∃ s', BaseFile.header_step s filename = Ok s'
        ∧ BaseFile.l_columns s' = Some (BaseFile.h_columns di)
        ∧ BaseFile.l_names s' = Some (BaseFile.h_extra di).*1.
Proof.
  intros Hc Hn Hdi. unfold BaseFile.header_step.
  rewrite Hdi, Hc, Hn. cbn.
  destruct (proj2 (extra_loop (BaseFile.h_extra di) (BaseFile.h_extra di).*1
                     (BaseFile.l_extra s)) (fun _ H => H)) as [ex Hex].
  rewrite Hex. cbn. eauto.
Qed.

(** A later turn of the loop. *)
Lemma header_step_next s (filename : string) di (cols names : list string) :
  BaseFile.l_columns s = Some cols -> BaseFile.l_names s = Some names ->
  BaseFile._read_file_header filename = Ok di ->
  ((∀ c, c ∈ BaseFile.h_columns di -> c ∈ cols)
   -> (∀ name, name ∈ names -> name ∈ (BaseFile.h_extra di).*1)
   -> ∃ s', BaseFile.header_step s filename = Ok s'
            ∧ BaseFile.l_columns s' = Some cols
            ∧ BaseFile.l_names s' = Some names)
  ∧ (∀ s', BaseFile.header_step s filename = Ok s' ->
       (∀ c, c ∈ BaseFile.h_columns di -> c ∈ cols)
       ∧ (∀ name, name ∈ names -> name ∈ (BaseFile.h_extra di).*1)
       ∧ BaseFile.l_columns s' = Some cols
       ∧ BaseFile.l_names s' = Some names)
  ∧ (¬ (∀ c, c ∈ BaseFile.h_columns di -> c ∈ cols) ->
     BaseFile.header_step s filename
     = Raise (ValueError (filename +:+ " does not contain columns"))).
Proof.
  intros Hc Hn Hdi. unfold BaseFile.header_step.
  rewrite Hdi, bind_Ok, Hc, Hn.
  destruct (forallb _ (BaseFile.h_columns di)) eqn:Hsub.
  - pose proof (proj1 (forallb_elem_of _ _) Hsub) as Hsub'. rewrite bind_Ok.
    split; [|split].
    + intros _ Hnames.
      destruct (proj2 (extra_loop (BaseFile.h_extra di) names
                         (BaseFile.l_extra s)) Hnames) as [ex Hex].
      rewrite Hex. cbn. eauto.
    + intros s' Hs'. apply bind_Ok_inv in Hs' as (ex & Hex & Hs').
      injection Hs' as <-. cbn. split; [exact Hsub'|]. split; [|done].
      apply (extra_loop (BaseFile.h_extra di) names (BaseFile.l_extra s)).
      eauto.
    + intros Hnot. by destruct Hnot.
  - assert (Hnot : ¬ ∀ c, c ∈ BaseFile.h_columns di -> c ∈ cols).
    { intros Hall. apply (proj2 (forallb_elem_of _ _)) in Hall. congruence. }
    cbn. split; [|split]; [by intros ?|by intros ? ?|done].
Qed.

(** The turns of the loop after the first. *)
Lemma header_loop_rest (filenames : list string)
    (his : list (BaseFile.FileHeader V)) s (cols names : list string) :
  BaseFile.l_columns s = Some cols -> BaseFile.l_names s = Some names ->
  Forall2 (fun fn di => BaseFile._read_file_header fn = Ok di) filenames his ->
  let fits := fun di =>
    (∀ c, c ∈ BaseFile.h_columns di -> c ∈ cols)
    ∧ (∀ name, name ∈ names -> name ∈ (BaseFile.h_extra di).*1) in
  (Forall fits his ->
   ∃ s', foldM BaseFile.header_step s filenames = Ok s'
         ∧ BaseFile.l_columns s' = Some cols
         ∧ BaseFile.l_names s' = Some names)
  ∧ (∀ s', foldM BaseFile.header_step s filenames = Ok s' ->
       Forall fits his ∧ BaseFile.l_columns s' = Some cols
       ∧ BaseFile.l_names s' = Some names)
  ∧ (Forall (fun di => ∀ name, name ∈ names ->
                         name ∈ (BaseFile.h_extra di).*1) his ->
     ¬ Forall (fun di => ∀ c, c ∈ BaseFile.h_columns di -> c ∈ cols) his ->
     ∃ fn, fn ∈ filenames
           ∧ foldM BaseFile.header_step s filenames
             = Raise (ValueError (fn +:+ " does not contain columns"))).
Proof.
  intros Hc Hn Hhis fits. revert s Hc Hn.
  induction Hhis as [|fn di fns his Hdi Hhis IH]; intros s Hc Hn.
  - split; [|split].
    + intros _. exists s. done.
    + intros s' [= <-]. done.
    + intros _ Hnot. destruct Hnot. constructor.
  - destruct (header_step_next s fn di cols names Hc Hn Hdi)
      as (Hgo & Hinv & Hbad).
    split; [|split].
    + intros Hall. inversion Hall as [|? ? [Hsub Hnames] Hall']; subst.
      destruct (Hgo Hsub Hnames) as (s1 & Hs1 & Hc1 & Hn1).
      cbn. rewrite Hs1. cbn.
      by apply (proj1 (IH s1 Hc1 Hn1)).
    + intros s' Hs'. cbn in Hs'.
      apply bind_Ok_inv in Hs' as (s1 & Hs1 & Hs').
      destruct (Hinv s1 Hs1) as (Hsub & Hnames & Hc1 & Hn1).
      destruct (proj1 (proj2 (IH s1 Hc1 Hn1)) s' Hs') as (Hall & ? & ?).
      split; [|done]. by constructor.
    + intros Hnames Hnot.
      inversion Hnames as [|? ? Hnames0 Hnames']; subst.
      destruct (decide (forallb (fun c => bool_decide (c ∈ cols))
                          (BaseFile.h_columns di) = true)) as [Hsub|Hsub].
      * pose proof (proj1 (forallb_elem_of _ _) Hsub) as Hsub'.
        destruct (Hgo Hsub' Hnames0) as (s1 & Hs1 & Hc1 & Hn1).
        destruct (proj2 (proj2 (IH s1 Hc1 Hn1)) Hnames') as (fn' & Hfn' & Hr).
        { intros Hall. apply Hnot. by constructor. }
        exists fn'. split; [by right|]. cbn. by rewrite Hs1.
      * exists fn. split; [by left|]. cbn. rewrite Hbad; [done|].
        intros Hall. by apply Hsub, forallb_elem_of.
Qed.

Lemma read_headers_unique (filenames : list string)
    (his his' : list (BaseFile.FileHeader V)) :
  Forall2 (fun fn di => BaseFile._read_file_header fn = Ok di) filenames his ->
  Forall2 (fun fn di => BaseFile._read_file_header fn = Ok di) filenames his' ->
  his = his'.
Proof.
  intros Hhis. revert his'.
  induction Hhis as [|fn di fns his Hdi _ IH]; intros his' Hhis';
    inversion Hhis' as [|? di' ? his0 Hdi' Hhis0]; subst; [done|].
  f_equal; [congruence|]. by apply IH.
Qed.

Lemma read_header_of_root (W : list (BaseFile.t V)) (root : BaseFile.t V)
    (state : BaseFile.bstate V) :
  W !! 0%nat = Some root ->
  BaseFile._read_header_root root = Ok state ->
  BaseFile._read_header W = Ok (BaseFile._read_header_bind state <$> W).
Proof.
  intros Hroot Hstate. destruct W as [|root' W0] eqn:HeqW; [done|].
  injection Hroot as ->. rewrite <- HeqW. unfold BaseFile._read_header.
  rewrite HeqW at 1. rewrite Hstate, bind_Ok. by rewrite zip_with_bcast.
Qed.

Lemma read_header_raises (W : list (BaseFile.t V)) (root : BaseFile.t V)
    (e : exn) :
  W !! 0%nat = Some root ->
  BaseFile._read_header_root root = Raise e ->
  BaseFile._read_header W = Raise e.
Proof.
  intros Hroot Hstate. destruct W as [|root' W0]; [done|].
  injection Hroot as ->. cbn. by rewrite Hstate.
Qed.

(** What the root makes of the headers of its files. *)
Lemma read_header_root_schema (root : BaseFile.t V)
    (di0 : BaseFile.FileHeader V) (his : list (BaseFile.FileHeader V)) :
  Forall2 (fun fn di => BaseFile._read_file_header fn = Ok di)
          (BaseFile.filenames root) (di0 :: his) ->
  (Forall (Spec.goes_with di0) his ->
   ∃ state, BaseFile._read_header_root root = Ok state)
  ∧ (∀ state, BaseFile._read_header_root root = Ok state ->
       Forall (Spec.goes_with di0) his
       ∧ BaseFile.b_columns state = BaseFile.h_columns di0
       ∧ BaseFile.b_csizes state = BaseFile.h_size <$> di0 :: his)
  ∧ (Forall (fun di => ∀ name, name ∈ (BaseFile.h_extra di0).*1 ->
                         name ∈ (BaseFile.h_extra di).*1) his ->
     ¬ Forall (fun di => ∀ c, c ∈ BaseFile.h_columns di ->
                              c ∈ BaseFile.h_columns di0) his ->
     ∃ fn, fn ∈ BaseFile.filenames root
           ∧ BaseFile._read_header_root root
             = Raise (ValueError (fn +:+ " does not contain columns"))).
Proof.
  intros Hhis. inversion Hhis as [|fn0 ? fns ? Hdi0 Hrest Hfns]; subst.
  unfold BaseFile._read_header_root. rewrite <- Hfns. cbn [foldM].
  set (s0 := {| BaseFile.l_csizes := []; BaseFile.l_columns := None;
                BaseFile.l_attrs := BaseFile.attrs root;
                BaseFile.l_names := None;
                BaseFile.l_extra := BaseFile.extra root |}).
  destruct (header_step_first s0 fn0 di0 eq_refl eq_refl Hdi0)
    as (s1 & Hs1 & Hc1 & Hn1).
  rewrite Hs1, bind_Ok.
  destruct (header_loop_rest fns his s1 _ _ Hc1 Hn1 Hrest)
    as (Hgo & Hinv & Hbad).
  split; [|split].
  - intros Hall. destruct (Hgo Hall) as (s' & -> & Hc' & Hn').
    rewrite bind_Ok, Hc', Hn'. eauto.
  - intros state Hstate. apply bind_Ok_inv in Hstate as (s' & Hs' & Hstate).
    destruct (Hinv s' Hs') as (Hall & Hc' & Hn').
    rewrite Hc', Hn' in Hstate. injection Hstate as <-. cbn.
    split; [done|]. split; [done|].
    apply header_loop_Ok in Hs' as (his' & Hhis' & Hsz & _).
    rewrite (read_headers_unique fns his his' Hrest Hhis'), Hsz.
    apply header_step_Ok in Hs1 as (di0' & Hdi0' & -> & _).
    cbn. congruence.
  - intros Hnames Hnot. destruct (Hbad Hnames Hnot) as (fn & Hfn & ->).
    exists fn. split; [by right|done].
Qed.

(** Files are opened together when they can all be read, each of them
    after the first has no column that the first has not, and has the
    other keys of the header of the first; then every rank holds the
    columns of the first file and the row counts of all.  A file with a
    column that the first has not makes [_read_header] raise
    [ValueError]. *)
Theorem read_header_schema (W : list (BaseFile.t V)) (root : BaseFile.t V)
    (di0 : BaseFile.FileHeader V) (his : list (BaseFile.FileHeader V)) :
  W !! 0%nat = Some root ->
  Forall2 (fun fn di => BaseFile._read_file_header fn = Ok di)
          (BaseFile.filenames root) (di0 :: his) ->
  ((∃ W', BaseFile._read_header W = Ok W') <-> Forall (Spec.goes_with di0) his)
  ∧ (∀ W' self, BaseFile._read_header W = Ok W' -> self ∈ W' ->
       ∃ h, BaseFile.hdr self = Some h
            ∧ BaseFile.columns h = BaseFile.h_columns di0
            ∧ BaseFile.csizes h = BaseFile.h_size <$> di0 :: his)
  ∧ (Forall (fun di => ∀ name, name ∈ (BaseFile.h_extra di0).*1 ->
                         name ∈ (BaseFile.h_extra di).*1) his ->
     ¬ Forall (fun di => ∀ c, c ∈ BaseFile.h_columns di ->
                              c ∈ BaseFile.h_columns di0) his ->
     ∃ fn, fn ∈ BaseFile.filenames root
           ∧ BaseFile._read_header W
             = Raise (ValueError (fn +:+ " does not contain columns"))).
Proof.
  intros Hroot Hhis.
  destruct (read_header_root_schema root di0 his Hhis) as (Hgo & Hinv & Hbad).
  split; [|split].
  - split.
    + intros [W' HW'].
      destruct (read_header_fmap W W' root Hroot HW') as (state & Hst & _).
      by destruct (Hinv state Hst).
    + intros Hall. destruct (Hgo Hall) as [state Hst].
      rewrite (read_header_of_root W root state Hroot Hst). eauto.
  - intros W' self HW' Hself.
    destruct (read_header_fmap W W' root Hroot HW') as (state & Hst & ->).
    destruct (Hinv state Hst) as (_ & Hcols & Hsz).
    apply list_elem_of_fmap in Hself as (self0 & -> & _).
    eexists. split; [reflexivity|]. cbn. done.
  - intros Hnames Hnot. destruct (Hbad Hnames Hnot) as (fn & Hfn & Hr).
    exists fn. split; [done|]. by apply (read_header_raises W root).
Qed.

End schema.

(** ** [BaseFile.read] on handles that hold no header yet *)
Section lazy.
Context {A V : Type} `{!BaseFile.Codec A V}.

Lemma read_opened (W : list (BaseFile.t V)) (column : string) :
  Forall (fun self => is_Some (BaseFile.hdr self)) W ->
  BaseFile.read W column
  = (arrays ← mapM (fun self =>
                      match BaseFile.hdr self with
                      | Some h => BaseFile.read_local self h column
                      | None => Raise (AttributeError "csizes")
                      end) W;
     Ok (W, arrays)).
Proof.
  intros Hall. unfold BaseFile.read. rewrite forallb_true_intro; [done|].
  intros self Hself. apply bool_decide_eq_true.
  by apply (proj1 (Forall_forall _ _) Hall).
Qed.

(** Handles with no header read it first. *)
Lemma read_unopened (W : list (BaseFile.t V)) (column : string) :
  Spec.comm_ok W ->
  Forall (fun self => BaseFile.hdr self = None) W ->
  BaseFile.read W column
  = (W' ← BaseFile._read_header W; BaseFile.read W' column).
Proof.
  intros Hcomm Hnone. destruct W as [|root W0] eqn:HeqW; [done|].
  rewrite <- HeqW in *.
  assert (Hroot : BaseFile.hdr root = None).
  { apply (proj1 (Forall_forall _ _) Hnone). rewrite HeqW. by left. }
  unfold BaseFile.read at 1.
  assert (Hf : forallb (fun self => bool_decide (is_Some (BaseFile.hdr self))) W
               = false).
  { rewrite HeqW. cbn. rewrite Hroot. done. }
  rewrite Hf.
  destruct (BaseFile._read_header W) as [W'|e] eqn:HW'; [|done].
  rewrite !bind_Ok.
  destruct (comm_ok_read_header W W' Hcomm HW') as (_ & _ & Hat).
  rewrite read_opened; [done|].
  apply Forall_forall. intros self [r Hr]%list_elem_of_lookup.
  by destruct (Hat r self Hr) as (? & _ & _ & _ & ?).
Qed.

(** [read] gives the same arrays, and leaves the same handles, whatever
    the mode the file was opened with: with a mode that has no [r], the
    first [read] reads the header. *)
Theorem read_opens_lazily (P : nat) (filename : list string)
    (attrs : option (gmap string V)) (mode mode' column : string) :
  py.lower mode ∈ ["r"; "w"; "rw"; ""] ->
  py.lower mode' ∈ ["r"; "w"; "rw"; ""] ->
  (W ← BaseFile.__init__ P filename attrs mode; BaseFile.read W column)
  = (W ← BaseFile.__init__ P filename attrs mode'; BaseFile.read W column).
Proof.
  set (W0 := (fun r => {| BaseFile.filenames := filename;
                          BaseFile.attrs := default ∅ attrs;
                          BaseFile.extra := ∅;
                          BaseFile.mpicomm := mpi.Comm r P;
                          BaseFile.mpiroot := 0;
                          BaseFile.hdr := @None BaseFile.header |})
               <$> seq 0 P).
  assert (Hany : ∀ m, py.lower m ∈ ["r"; "w"; "rw"; ""] ->
            (W ← BaseFile.__init__ P filename attrs m; BaseFile.read W column)
            = BaseFile.read W0 column).
  { intros m Hm. rewrite (init_unopened (A := A)) by done. cbn zeta. fold W0.
    destruct (py.contains "r" (py.lower m)); [|done].
    symmetry. apply read_unopened.
    - by apply comm_ok_seq.
    - apply Forall_fmap, Forall_forall. done. }
  intros Hm Hm'. by rewrite !Hany.
Qed.

End lazy.

(** ** [BaseFile.read] on the world: the arrays of all ranks *)
Section read_gather.
Context {A V : Type} `{!BaseFile.Codec A V}.

(** Even blocks of an array, put end to end, make the array. *)
Lemma concat_even_blocks {T : Type} (l : list T) (n : nat) :
  (0 < n)%nat ->
  concat ((fun r : nat =>
             Spec.rows (Z.of_nat r * Z.of_nat (length l) / Z.of_nat n)
               ((Z.of_nat r + 1) * Z.of_nat (length l) / Z.of_nat n) l)
            <$> seq 0 n) = l.
Proof.
  intros Hn.
  set (bnd := fun r : nat => Z.of_nat r * Z.of_nat (length l) / Z.of_nat n).
  transitivity (concat ((fun r => Spec.rows (bnd r) (bnd (S r)) l)
                          <$> seq 0 n)).
  { f_equal. apply list_fmap_ext. intros i r _. unfold bnd.
    by replace (Z.of_nat (S r)) with (Z.of_nat r + 1) by lia. }
  rewrite concat_consecutive_rows.
  - replace (bnd 0%nat) with 0 by done.
    replace (bnd n) with (Z.of_nat (length l))
      by (unfold bnd; symmetry; apply block_last; lia).
    apply rows_all.
  - done.
  - intros r. unfold bnd. apply block_mono; lia.
Qed.

(** Every rank reads its block of the files put end to end. *)
Lemma read_world_rows (W W' : list (BaseFile.t V)) (root : BaseFile.t V)
    (column : string) (blocks : list (list A)) :
  W !! 0%nat = Some root ->
  Spec.comm_ok W ->
  Forall (fun self => BaseFile.filenames self = BaseFile.filenames root) W ->
  BaseFile._read_header W = Ok W' ->
  Spec.column_stored (BaseFile.filenames root) column blocks ->
  let n := Z.of_nat (length (concat blocks)) in
  let P := Z.of_nat (length W) in
  length W' = length W
  ∧ (∀ (r : nat) self, W' !! r = Some self ->
       ∃ h, BaseFile.hdr self = Some h
            ∧ BaseFile.size h
              = (Z.of_nat r + 1) * n / P - Z.of_nat r * n / P
            ∧ BaseFile.read_local self h column
              = Ok (Spec.rows (Z.of_nat r * n / P)
                      ((Z.of_nat r + 1) * n / P) (concat blocks)))
  ∧ BaseFile.read W' column
    = Ok (W', (fun r : nat =>
                 Spec.rows (Z.of_nat r * n / P) ((Z.of_nat r + 1) * n / P)
                   (concat blocks)) <$> seq 0 (length W)).
Proof.
  intros Hroot Hcomm Hnames HW Hst n P.
  destruct (read_header_intervals W W' root Hroot Hcomm HW)
    as (sizes & Hsizes & Hlen & Hblocks).
  destruct (read_header_fmap W W' root Hroot HW) as (state & Hstate & HW').
  pose proof (read_header_root_files root state Hstate) as Hfiles.
  pose proof (column_stored_lens _ _ _ _ Hst Hsizes) as ->.
  assert (Hne : blocks ≠ []).
  { intros ->. inversion Hst as [Hnil|]. by rewrite <- Hnil in Hfiles. }
  assert (HP : 0 < P).
  { apply lookup_lt_Some in Hroot. unfold P. lia. }
  assert (Htot : py.sum (Spec.lens blocks) = n) by apply sum_lens_length.
  rewrite Htot in Hblocks.
  assert (Hread : ∀ (r : nat) self, W' !! r = Some self ->
            ∃ h, BaseFile.hdr self = Some h
                 ∧ BaseFile.size h
                   = (Z.of_nat r + 1) * n / P - Z.of_nat r * n / P
                 ∧ BaseFile.read_local self h column
                   = Ok (Spec.rows (Z.of_nat r * n / P)
                           ((Z.of_nat r + 1) * n / P) (concat blocks))).
  { intros r self Hr. destruct (Hblocks r self Hr)
      as (h & Hh & Hcs & _ & Hstart & Hstop & Hsize).
    exists h. split; [done|]. split; [by rewrite Hsize, Hstart, Hstop|].
    fold P in Hstart, Hstop. rewrite <- Hstart, <- Hstop.
    apply read_local_rows; try done.
    - rewrite HW', list_lookup_fmap in Hr.
      destruct (W !! r) as [self0|] eqn:Hr0; [|done]. injection Hr as <-.
      cbn. rewrite (Forall_lookup_1 _ _ _ _ Hnames Hr0). done.
    - rewrite Hstart. apply Z.div_pos; lia.
    - rewrite Hstart, Hstop. apply block_mono; lia.
    - rewrite Hstop, Htot. rewrite <- (block_last n P) at 2 by done.
      assert (r < length W)%nat.
      { rewrite <- Hlen. by eapply lookup_lt_Some. }
      apply block_mono; lia. }
  split; [done|]. split; [done|].
  rewrite read_opened.
  2:{ apply Forall_forall. intros self [r Hr]%list_elem_of_lookup.
      destruct (Hread r self Hr) as (h & -> & _). done. }
  rewrite (mapM_Ok_lookup _ W'
             ((fun r : nat =>
                 Spec.rows (Z.of_nat r * n / P) ((Z.of_nat r + 1) * n / P)
                   (concat blocks)) <$> seq 0 (length W))); [done| |].
  - by rewrite length_fmap, length_seq.
  - intros r self y Hr Hy. rewrite list_lookup_fmap in Hy.
    destruct (seq 0 (length W) !! r) as [r'|] eqn:Hseq; [|done].
    apply lookup_seq in Hseq as [-> _]. injection Hy as <-.
    by destruct (Hread r self Hr) as (h & -> & _ & ->).
Qed.

End read_gather.

(** A loop over a list that returns has returned at every element. *)
Lemma mapM_Ok_at {X Y : Type} (f : X -> result Y) (l : list X) (k : list Y)
    (i : nat) (x : X) :
  mapM f l = Ok k -> l !! i = Some x -> ∃ y, f x = Ok y ∧ k !! i = Some y.
Proof.
  revert k i. induction l as [|x0 l IH]; intros k i Hk Hi; [done|].
  change (mapM f (x0 :: l)) with (y ← f x0; k' ← mapM f l; mret (y :: k'))
    in Hk.
  apply bind_Ok_inv in Hk as (y & Hy & Hk).
  apply bind_Ok_inv in Hk as (k' & Hk' & Hk). injection Hk as <-.
  destruct i as [|i]; cbn in Hi.
  - injection Hi as <-. eauto.
  - destruct (IH k' i Hk' Hi) as (y' & ? & ?). eauto.
Qed.

(** ** [BaseFile.write]: what the handler is given, read again *)
Section write_more.
Context {A V D : Type} `{!BaseFile.Codec A V} {handler : BaseFile.Writer A D}.
Implicit Types (d : list (string * list A)) (blocks : list (list A)).

(** [write] gives the handler every row once and in order: the rows of a
    column the ranks give for the files, file after file and in rank
    order, are the column of all ranks in rank order.  When the files
    then hold, for the column, the rows the ranks gave for each of them
    in rank order, a [read] on any number of ranks, gathered, gives the
    column back. *)
Theorem write_then_read (W : list (BaseFile.t V)) (root : BaseFile.t V)
    (names : list string) (locals : list (list (string * list A)))
    (column : string) :
  W !! 0%nat = Some root ->
  BaseFile.filenames root ≠ [] ->
  Spec.scattered_dicts names locals ->
  column ∈ names ->
  ∃ calls,
    (∀ s : D, BaseFile.write W (BaseFile.WDict <$> locals) None s
              = Spec.write_file_slices calls s)
    ∧ calls.*1 = BaseFile.filenames root
    ∧ concat (Spec.handed column <$> calls.*2)
      = concat (Spec.dict_column column <$> locals)
    ∧ ∀ (R R' : list (BaseFile.t V)) (rootR : BaseFile.t V),
        R !! 0%nat = Some rootR ->
        Spec.comm_ok R ->
        Forall (fun self => BaseFile.filenames self = BaseFile.filenames root)
               R ->
        BaseFile._read_header R = Ok R' ->
        Spec.column_stored (BaseFile.filenames root) column
          (Spec.handed column <$> calls.*2) ->
        ∃ arrays,
          BaseFile.read R' column = Ok (R', arrays)
          ∧ length arrays = length R
          ∧ mpi.gather_array arrays
            = concat (Spec.dict_column column <$> locals).
Proof.
  intros Hroot Hfiles Hsc Hcol.
  destruct (write_scattered_calls W root names locals column Hroot Hsc Hcol)
    as (calls & Hrun & Hnames & Hcalls).
  set (full := concat (Spec.dict_column column <$> locals)) in *.
  assert (Hnf : (0 < length (BaseFile.filenames root))%nat).
  { destruct (BaseFile.filenames root); [done|cbn; lia]. }
  assert (Hlen : length calls = length (BaseFile.filenames root)).
  { by rewrite <- Hnames, length_fmap. }
  assert (Hcover : concat (Spec.handed column <$> calls.*2) = full).
  { etransitivity; [|exact (concat_even_blocks full _ Hnf)]. f_equal.
    apply list_eq. intros i. rewrite !list_lookup_fmap.
    destruct (calls !! i) as [[filename tmps]|] eqn:Hi.
    - rewrite lookup_seq_lt by (rewrite <- Hlen; by eapply lookup_lt_Some).
      cbn. f_equal.
      destruct (Hcalls i filename tmps Hi) as (Hs & Hse & ->).
      by apply (scattered_handed names locals column).
    - rewrite lookup_seq_ge; [done|]. rewrite <- Hlen. by apply lookup_ge_None. }
  exists calls. split; [done|]. split; [done|]. split; [done|].
  intros R R' rootR HrootR Hcomm HnamesR HR Hst.
  assert (Hnames' : Forall (fun self => BaseFile.filenames self
                                        = BaseFile.filenames rootR) R).
  { pose proof (Forall_lookup_1 _ _ _ _ HnamesR HrootR) as ->. done. }
  assert (Hst' : Spec.column_stored (BaseFile.filenames rootR) column
                   (Spec.handed column <$> calls.*2)).
  { by rewrite (Forall_lookup_1 _ _ _ _ HnamesR HrootR). }
  destruct (read_world_rows R R' rootR column _ HrootR Hcomm Hnames' HR Hst')
    as (_ & _ & Hread).
  eexists. split; [exact Hread|]. split; [by rewrite length_fmap, length_seq|].
  unfold mpi.gather_array. rewrite Hcover.
  apply concat_even_blocks. apply lookup_lt_Some in HrootR. lia.
Qed.

(** [write] to one file at least returns, whatever the handler, only for
    dicts that are scattered over the ranks: with a root, or with a rank
    whose data is an array or a dict without column, it raises. *)
Theorem write_only_scattered_dicts (W : list (BaseFile.t V))
    (root : BaseFile.t V) (datas : list (BaseFile.wdata A))
    (mpiroot : option nat) (s s' : D) :
  W !! 0%nat = Some root ->
  BaseFile.filenames root ≠ [] ->
  BaseFile.write W datas mpiroot s = Ok s' ->
  mpiroot = None
  ∧ datas ≠ []
  ∧ ∀ data, data ∈ datas -> ∃ d, data = BaseFile.WDict d ∧ d ≠ [].
Proof.
  unfold BaseFile.write, py.getitem. intros Hroot Hne Hw.
  rewrite Hroot, bind_Ok in Hw.
  apply bind_Ok_inv in Hw as (locals & Hlocals & Hw).
  apply bind_Ok_inv in Hw as (sizes & Hsizes & Hw).
  apply bind_Ok_inv in Hw as (csize & Hcsize & Hw).
  destruct (BaseFile.filenames root) as [|fn fns] eqn:Hfns; [done|].
  cbn [length seq zip zip_with foldM] in Hw.
  apply bind_Ok_inv in Hw as (y & Hy & _).
  apply bind_Ok_inv in Hy as (tmps & Htmps & _).
  assert (Hlocal : ∀ local, local ∈ locals ->
            ∃ d, local = (true, BaseFile.WDict d) ∧ d ≠ []).
  { intros local [i Hi]%list_elem_of_lookup.
    assert (Hz : zip (seq 0 (length locals)) locals !! i = Some (i, local)).
    { apply lookup_zip_Some. split; [|done]. cbn.
      apply lookup_seq. split; [done|]. by eapply lookup_lt_Some. }
    destruct (mapM_Ok_at _ _ _ _ _ Htmps Hz) as (tmp & Htmp & _).
    apply bind_Ok_inv in Htmp as (rows & _ & Htmp).
    destruct local as [[] data]; [|done].
    destruct data as [|a|d]; try done.
    exists d. split; [done|]. intros ->.
    destruct (mapM_Ok_at _ _ _ _ _ Hsizes Hi) as (sz & Hsz & _). done. }
  destruct mpiroot as [rank|].
  - exfalso. unfold BaseFile.write_scatter in Hlocals.
    apply bind_Ok_inv in Hlocals as (rdata & Hrdata & Hlocals).
    destruct (BaseFile.isinstance_dict rdata); [done|].
    apply bind_Ok_inv in Hlocals as (data & _ & Hlocals).
    destruct data as [|a|d]; try done. injection Hlocals as <-.
    assert (Hlen : (0 < length datas)%nat).
    { unfold py.getitem in Hrdata.
      destruct (datas !! rank) eqn:Hr; [|done].
      apply lookup_lt_Some in Hr. lia. }
    destruct (lookup_lt_is_Some_2 (mpi.scatter_array (length datas) a) 0)
      as [piece Hp]; [by rewrite scatter_array_length|].
    destruct (Hlocal (false, BaseFile.WArray piece)) as (d & Hd & _);
      [|done].
    apply list_elem_of_fmap. exists piece. split; [done|].
    by eapply list_elem_of_lookup_2.
  - split; [done|]. injection Hlocals as <-. split.
    + intros ->. cbn in Hsizes. injection Hsizes as <-. done.
    + intros data Hdata.
      destruct (Hlocal (BaseFile.isinstance_dict data, data)) as (d & Hd & ?).
      { apply list_elem_of_fmap. eauto. }
      injection Hd as _ ->. eauto.
Qed.

End write_more.

(** ** [HDF5File._read_file_header] *)
Section hdf5.
Context {A V : Type}.
Implicit Types (disk : gmap string (HDF5File.group A V)).

Lemma hdf5_header_unfold disk (filename : string) grp (name0 : string)
    (col0 : list A) ds :
  disk !! filename = Some grp ->
  HDF5File.datasets grp = (name0, col0) :: ds ->
  HDF5File._read_file_header disk filename
  = if forallb (fun kv => bool_decide (Z.of_nat (length kv.2)
                                       = Z.of_nat (length col0)))
               (HDF5File.datasets grp)
    then Ok {| BaseFile.h_size := Z.of_nat (length col0);
               BaseFile.h_columns := (HDF5File.datasets grp).*1;
               BaseFile.h_attrs := Some (HDF5File.grp_attrs grp);
               BaseFile.h_extra := [] |}
    else Raise (IOError "Column has different length").
Proof.
  intros Hdisk Hds. unfold HDF5File._read_file_header, HDF5File.h5py_File.
  rewrite Hdisk. cbv beta iota. rewrite bind_Ok. unfold py.getitem.
  rewrite Hds at 1.
  change ((_ :: _) !! 0%nat) with (Some (name0, col0)). cbv beta iota.
  by rewrite bind_Ok.
Qed.

(** The header of a file is read when the file is there, with a dataset
    at least, and all its datasets have one length: the size is this
    length, the columns are the names of the datasets, in order, the
    attributes are those of the group, and the header has no other key.
    A missing file or datasets of two lengths raise [IOError], a group
    without dataset [IndexError]. *)
Theorem hdf5_header_cases disk (filename : string) :
  match HDF5File._read_file_header disk filename with
  | Ok di =>
      ∃ grp, disk !! filename = Some grp
             ∧ HDF5File.datasets grp ≠ []
             ∧ Forall (fun kv => Z.of_nat (length kv.2) = BaseFile.h_size di)
                      (HDF5File.datasets grp)
             ∧ BaseFile.h_columns di = (HDF5File.datasets grp).*1
             ∧ BaseFile.h_attrs di = Some (HDF5File.grp_attrs grp)
             ∧ BaseFile.h_extra di = []
  | Raise e =>
      (disk !! filename = None
       ∧ e = IOError ("Unable to open file: " +:+ filename))
      ∨ (∃ grp, disk !! filename = Some grp
                ∧ HDF5File.datasets grp = []
                ∧ e = IndexError "index out of range")
      ∨ (∃ grp name col name' col',
           disk !! filename = Some grp
           ∧ (name, col) ∈ HDF5File.datasets grp
           ∧ (name', col') ∈ HDF5File.datasets grp
           ∧ length col ≠ length col'
           ∧ e = IOError "Column has different length")
  end.
Proof.
  destruct (disk !! filename) as [grp|] eqn:Hdisk.
  2:{ unfold HDF5File._read_file_header, HDF5File.h5py_File.
      rewrite Hdisk. left. done. }
  destruct (HDF5File.datasets grp) as [|[name0 col0] ds] eqn:Hds.
  { unfold HDF5File._read_file_header, HDF5File.h5py_File.
    rewrite Hdisk. cbv beta iota. rewrite bind_Ok, Hds.
    right. left. exists grp. done. }
  rewrite (hdf5_header_unfold disk filename grp name0 col0 ds Hdisk Hds).
  destruct (forallb _ (HDF5File.datasets grp)) eqn:Hall.
  - exists grp. cbn. split; [done|]. split; [by rewrite Hds|].
    split; [|done]. apply Forall_forall. intros kv Hkv.
    rewrite forallb_forall in Hall. apply list_elem_of_In in Hkv.
    specialize (Hall kv Hkv). by apply bool_decide_eq_true in Hall.
  - right. right.
    assert (Hex : ∃ kv, kv ∈ HDF5File.datasets grp
                        ∧ length kv.2 ≠ length col0).
    { clear Hds. induction (HDF5File.datasets grp) as [|kv l IH];
        [done|]. cbn in Hall. apply andb_false_iff in Hall as [Hkv|Hall].
      - exists kv. split; [by left|].
        apply bool_decide_eq_false in Hkv. lia.
      - destruct (IH Hall) as (kv' & ? & ?). exists kv'. split; [by right|done]. }
    destruct Hex as ([name col] & Hin & Hne).
    exists grp, name, col, name0, col0. split; [done|]. split; [done|].
    split; [rewrite Hds; by left|]. done.
Qed.


End hdf5.

(** ** [BaseCatalog.load_hdf5]: a catalog over HDF5 files *)
Section load_hdf5.
Context {A V : Type} `{!EqDecision A}.
Implicit Types (disk : gmap string (HDF5File.group A V)).

(** The header of a file whose datasets have one length. *)
Lemma hdf5_header_Ok disk (filename column : string) grp (block : list A) :
  disk !! filename = Some grp ->
  py.assoc column (HDF5File.datasets grp) = Some block ->
  Forall (fun kv => length kv.2 = length block) (HDF5File.datasets grp) ->
  HDF5File._read_file_header disk filename
  = Ok {| BaseFile.h_size := Z.of_nat (length block);
          BaseFile.h_columns := (HDF5File.datasets grp).*1;
          BaseFile.h_attrs := Some (HDF5File.grp_attrs grp);
          BaseFile.h_extra := [] |}.
Proof.
  intros Hdisk Hcol Hall.
  destruct (HDF5File.datasets grp) as [|[name0 col0] ds] eqn:Hds; [done|].
  rewrite (hdf5_header_unfold disk filename grp name0 col0 ds Hdisk Hds).
  assert (Hlen : length col0 = length block).
  { by inversion Hall. }
  rewrite forallb_true_intro.
  - by rewrite Hlen, Hds.
  - intros kv Hkv. apply bool_decide_eq_true. rewrite Hds in Hkv.
    rewrite (proj1 (Forall_forall _ _) Hall kv Hkv). by rewrite Hlen.
Qed.

(** HDF5 files that hold a column meet what [read] asks of a handler. *)
Lemma hdf5_column_stored disk (filenames : list string) (column : string)
    (blocks : list (list A)) :
  Spec.hdf5_stored disk filenames column blocks ->
  Spec.column_stored (H := HDF5File.codec disk) filenames column blocks.
Proof.
  unfold Spec.hdf5_stored, Spec.column_stored. intros Hst.
  eapply Forall2_impl; [exact Hst|]. cbn beta.
  intros fn block (grp & Hdisk & Hcol & Hall & _). split.
  - eexists. split; [exact (hdf5_header_Ok disk fn column grp block
                              Hdisk Hcol Hall)|done].
  - intros a b Ha Hab Hb.
    by apply (hdf5_read_file_slice disk fn column grp block).
Qed.

(** The headers of HDF5 files that hold a column. *)
Lemma hdf5_headers disk (filenames : list string) (column : string)
    (blocks : list (list A)) :
  Spec.hdf5_stored disk filenames column blocks ->
  ∃ his,
    Forall2 (fun fn di => HDF5File._read_file_header disk fn = Ok di)
            filenames his
    ∧ Forall (fun di => BaseFile.h_extra di = []) his
    ∧ (∀ di0, his !! 0%nat = Some di0 ->
         column ∈ BaseFile.h_columns di0
         ∧ Forall (fun di => ∀ c, c ∈ BaseFile.h_columns di ->
                                  c ∈ BaseFile.h_columns di0) his).
Proof.
  intros Hst.
  set (hd := fun fn : string =>
         match disk !! fn with
         | Some grp =>
             {| BaseFile.h_size :=
                  Z.of_nat (length (default [] (py.assoc column
                                                   (HDF5File.datasets grp))));
                BaseFile.h_columns := (HDF5File.datasets grp).*1;
                BaseFile.h_attrs := Some (HDF5File.grp_attrs grp);
                BaseFile.h_extra := [] |}
         | None => {| BaseFile.h_size := 0; BaseFile.h_columns := [];
                      BaseFile.h_attrs := None; BaseFile.h_extra := [] |}
         end).
  assert (Hhd : ∀ fn, fn ∈ filenames ->
            ∃ grp block, disk !! fn = Some grp
              ∧ py.assoc column (HDF5File.datasets grp) = Some block
              ∧ HDF5File._read_file_header disk fn = Ok (hd fn)
              ∧ ∀ filename0 grp0,
                  filenames !! 0%nat = Some filename0 ->
                  disk !! filename0 = Some grp0 ->
                  ∀ c, c ∈ (HDF5File.datasets grp).*1 ->
                       c ∈ (HDF5File.datasets grp0).*1).
  { intros fn [i Hi]%list_elem_of_lookup.
    destruct (Forall2_lookup_l _ _ _ _ _ Hst Hi)
      as (block & _ & grp & Hdisk & Hcol & Hall & Hsub).
    exists grp, block. split; [done|]. split; [done|]. split; [|done].
    rewrite (hdf5_header_Ok disk fn column grp block Hdisk Hcol Hall).
    unfold hd. by rewrite Hdisk, Hcol. }
  exists (hd <$> filenames). split; [|split].
  - apply Forall2_fmap_r, Forall_Forall2_diag, Forall_forall.
    intros fn Hfn. by destruct (Hhd fn Hfn) as (? & ? & _ & _ & ? & _).
  - apply Forall_fmap, Forall_forall. intros fn _. unfold hd. cbn.
    by destruct (disk !! fn).
  - intros di0 H0. rewrite list_lookup_fmap in H0.
    destruct (filenames !! 0%nat) as [fn0|] eqn:Hfn0; [|done].
    injection H0 as <-.
    destruct (Hhd fn0 (list_elem_of_lookup_2 _ _ _ Hfn0))
      as (grp0 & block0 & Hdisk0 & Hcol0 & _ & _).
    assert (Hcols0 : BaseFile.h_columns (hd fn0) = (HDF5File.datasets grp0).*1).
    { unfold hd. by rewrite Hdisk0. }
    rewrite Hcols0. split.
    + apply assoc_is_Some. by rewrite Hcol0.
    + apply Forall_fmap, Forall_forall. intros fn Hfn. cbn.
      destruct (Hhd fn Hfn) as (grp & block & Hdisk & _ & _ & Hsub).
      unfold hd at 1. rewrite Hdisk. cbn. by apply (Hsub fn0).
Qed.

(** A catalog loaded over HDF5 files that hold a column, on any number
    P >= 1 of ranks: [load_hdf5] returns with nothing read; the length of
    rank r is the size of its block [r*n//P, (r+1)*n//P) of the n rows of
    the files; [get] of the column returns the rows of this block; the
    column, gathered, is the column of the files put end to end; and the
    global size is n. *)
Theorem load_hdf5_whole_column disk (P : nat) (filenames : list string)
    (column : string) (blocks : list (list A)) :
  (0 < P)%nat ->
  filenames ≠ [] ->
  Spec.hdf5_stored disk filenames column blocks ->
  let n := Z.of_nat (length (concat blocks)) in
  ∃ W,
    BaseCatalog.load_hdf5 (H := HDF5File.codec disk) P filenames = Ok W
    ∧ length W = P
    ∧ (∀ (r : nat) self, W !! r = Some self ->
         BaseCatalog.data self = ∅
         ∧ BaseCatalog.__len__ (H := HDF5File.codec disk) self
           = Ok ((Z.of_nat r + 1) * n / Z.of_nat P
                 - Z.of_nat r * n / Z.of_nat P)
         ∧ BaseCatalog.__getitem__ (H := HDF5File.codec disk) self column
           = Ok (BaseCatalog.Array
                   (Spec.rows (Z.of_nat r * n / Z.of_nat P)
                      ((Z.of_nat r + 1) * n / Z.of_nat P) (concat blocks))))
    ∧ BaseCatalog.cget (H := HDF5File.codec disk) W column
      = Ok (concat blocks)
    ∧ BaseCatalog.csize (H := HDF5File.codec disk) W = Ok n.
Proof.
  intros HP Hfiles Hst n.
  set (f := fun r : nat =>
              {| BaseFile.filenames := filenames;
                 BaseFile.attrs := (∅ : gmap string V); BaseFile.extra := ∅;
                 BaseFile.mpicomm := mpi.Comm r P; BaseFile.mpiroot := 0;
                 BaseFile.hdr := None |}).
  set (W0 := f <$> seq 0 P).
  assert (Hroot : W0 !! 0%nat = Some (f 0%nat)).
  { unfold W0. by rewrite list_lookup_fmap, lookup_seq_lt. }
  assert (HlenW0 : length W0 = P) by (unfold W0; by rewrite length_fmap, length_seq).
  assert (Hcomm : Spec.comm_ok W0) by (by apply comm_ok_seq).
  assert (Hnames : Forall (fun self => BaseFile.filenames self
                                       = BaseFile.filenames (f 0%nat)) W0).
  { apply Forall_fmap, Forall_forall. done. }
  (* the header *)
  destruct (hdf5_headers disk filenames column blocks Hst)
    as (his & Hhis & Hextra & Hfirst).
  destruct his as [|di0 his'].
  { inversion Hhis as [Hnil|]. by rewrite <- Hnil in Hfiles. }
  destruct (Hfirst di0 eq_refl) as (Hcol & Hsub).
  destruct (read_header_root_schema (H := HDF5File.codec disk) (f 0%nat)
              di0 his' Hhis) as (Hgo & Hinv & _).
  destruct Hgo as [state Hstate].
  { pose proof (proj1 (Forall_cons _ _ _) Hsub) as [_ Hsub'].
    pose proof (proj1 (Forall_cons _ _ _) Hextra) as [Hex0 _].
    eapply Forall_impl; [exact Hsub'|]. intros di Hdi. split; [done|].
    rewrite Hex0. by intros name ?%elem_of_nil. }
  destruct (Hinv state Hstate) as (_ & Hcols & _).
  pose proof (read_header_of_root (H := HDF5File.codec disk) W0 _ state
                Hroot Hstate) as HW'.
  set (W' := BaseFile._read_header_bind state <$> W0) in *.
  destruct (read_world_rows (H := HDF5File.codec disk) W0 W' (f 0%nat)
              column blocks Hroot Hcomm Hnames HW'
              (hdf5_column_stored disk filenames column blocks Hst))
    as (HlenW' & Hranks & _).
  fold n in Hranks. rewrite HlenW0 in Hranks, HlenW'.
  (* the catalog *)
  set (mk := fun source : BaseFile.t V =>
               {| BaseCatalog.data := (∅ : gmap string (BaseCatalog.value A));
                  BaseCatalog.attrs := BaseFile.attrs source;
                  BaseCatalog._source := Some source |}).
  assert (Hload : BaseCatalog.load_hdf5 (H := HDF5File.codec disk) P filenames
                  = Ok (mk <$> W')).
  { unfold BaseCatalog.load_hdf5.
    rewrite (init_unopened (A := A)) by (by left). cbn zeta.
    change (py.contains "r" (py.lower "r")) with true. cbv iota.
    change (default ∅ None) with (∅ : gmap string V).
    fold f. fold W0. rewrite HW'. done. }
  assert (Hrank : ∀ (r : nat) self, (mk <$> W') !! r = Some self ->
            BaseCatalog.data self = ∅
            ∧ BaseCatalog.__len__ (H := HDF5File.codec disk) self
              = Ok ((Z.of_nat r + 1) * n / Z.of_nat P
                    - Z.of_nat r * n / Z.of_nat P)
            ∧ BaseCatalog.__getitem__ (H := HDF5File.codec disk) self column
              = Ok (BaseCatalog.Array
                      (Spec.rows (Z.of_nat r * n / Z.of_nat P)
                         ((Z.of_nat r + 1) * n / Z.of_nat P) (concat blocks)))).
  { intros r self Hr. rewrite list_lookup_fmap in Hr.
    destruct (W' !! r) as [source|] eqn:Hsrc; [|done]. injection Hr as <-.
    destruct (Hranks r source Hsrc) as (h & Hh & Hsize & Hread).
    assert (Hhc : BaseFile.columns h = BaseFile.h_columns di0).
    { unfold W' in Hsrc. rewrite list_lookup_fmap in Hsrc.
      destruct (W0 !! r) as [s0|]; [|done]. injection Hsrc as <-.
      cbn in Hh. injection Hh as <-. done. }
    split; [done|]. split.
    - unfold BaseCatalog.__len__, mk. cbn [BaseCatalog.data].
      rewrite map_to_list_empty. cbn. by rewrite Hh, Hsize.
    - unfold BaseCatalog.__getitem__, BaseCatalog.get, mk. cbn.
      rewrite lookup_empty, Hh, bool_decide_eq_true_2 by (by rewrite Hhc).
      by rewrite Hread. }
  exists (mk <$> W'). split; [done|].
  split; [by rewrite length_fmap|]. split; [done|]. split.
  - rewrite cget_gathered.
    2:{ intros self [r Hr]%list_elem_of_lookup.
        destruct (Hrank r self Hr) as (_ & _ & ->). eauto. }
    f_equal. unfold Spec.gathered.
    etransitivity; [|exact (concat_even_blocks (concat blocks) P HP)].
    f_equal. apply list_eq. intros r. rewrite !list_lookup_fmap.
    destruct (W' !! r) as [source|] eqn:Hsrc.
    + rewrite lookup_seq_lt by (rewrite <- HlenW'; by eapply lookup_lt_Some).
      cbn. f_equal. apply local_column_Ok.
      apply (Hrank r). by rewrite list_lookup_fmap, Hsrc.
    + rewrite lookup_seq_ge; [done|]. rewrite <- HlenW'. by apply lookup_ge_None.
  - unfold BaseCatalog.csize.
    rewrite (mapM_Ok_lookup _ (mk <$> W')
               ((fun r : nat => (Z.of_nat r + 1) * n / Z.of_nat P
                                - Z.of_nat r * n / Z.of_nat P) <$> seq 0 P)).
    + rewrite bind_Ok. unfold mpi.allreduce. rewrite sum_blocks.
      f_equal. apply block_last. lia.
    + by rewrite !length_fmap, length_seq.
    + intros r self y Hr Hy. rewrite list_lookup_fmap in Hy.
      destruct (seq 0 P !! r) as [r'|] eqn:Hseq; [|done].
      apply lookup_seq in Hseq as [-> _]. injection Hy as <-.
      by destruct (Hrank r self Hr) as (_ & -> & _).
Qed.

End load_hdf5.

(** ** [BaseCatalog]: sizes and row numbers *)
Section sizes.
Context {A V : Type} `{!EqDecision A} `{!BaseFile.Codec A V}.
Implicit Types (self : BaseCatalog.t A V) (W : list (BaseCatalog.t A V)).

(** [cindices] returns the row numbers of the rank in the whole catalog on
    the ranks 0 and 1, and raises [IndexError] on every rank from 2 on:
    of the sizes it gathers, it keeps the first only. *)
Theorem cindices_two_ranks W (ns : list Z) (r : nat) (n : Z) :
  mapM BaseCatalog.__len__ W = Ok ns ->
  ns !! r = Some n ->
  BaseCatalog.cindices W !! r
  = Some (if decide (r < 2)%nat
          then Ok ((fun i => py.sum (take r ns) + i) <$> py.arange n)
          else Raise (IndexError "index out of range")).
Proof.
  intros Hns Hr.
  assert (Hlen : length ns = length W).
  { clear Hr. revert ns Hns. induction W as [|self W IH]; intros ns Hns.
    - by injection Hns as <-.
    - change (mapM ?f (?x :: ?k)) with (y ← f x; k' ← mapM f k; mret (y :: k'))
        in Hns.
      apply bind_Ok_inv in Hns as (y & _ & Hns).
      apply bind_Ok_inv in Hns as (k' & Hk' & Hns). injection Hns as <-.
      cbn. f_equal. by apply IH. }
  destruct (lookup_lt_is_Some_2 W r) as [self Hself].
  { rewrite <- Hlen. by eapply lookup_lt_Some. }
  destruct (mapM_Ok_at _ _ _ _ _ Hns Hself) as (n' & Hn' & Hr').
  rewrite Hr in Hr'. injection Hr' as <-.
  unfold BaseCatalog.cindices. rewrite list_lookup_imap, Hself. cbn [fmap option_fmap option_map].
  f_equal. rewrite Hns, bind_Ok. unfold mpi.allgather.
  destruct ns as [|n0 ns']; [done|].
  change (take 1 (n0 :: ns')) with [n0].
  change ([0] ++ py.cumsum [n0]) with [0; 0 + n0].
  destruct r as [|[|r]].
  - cbn. rewrite Hn'. cbn. rewrite ?take_0. cbn.
    f_equal; apply list_fmap_ext; intros; lia.
  - cbn. rewrite Hn'. cbn. rewrite ?take_0. cbn.
    f_equal; apply list_fmap_ext; intros; lia.
  - rewrite decide_False by lia. done.
Qed.

Lemma len_in_memory self (column : string) :
  Spec.in_memory column self ->
  BaseCatalog.__len__ self
  = Ok (Z.of_nat (length (Spec.local_column column self))).
Proof.
  intros (a & Ha & Hall). unfold BaseCatalog.__len__.
  rewrite (local_column_Ok self column a) by (by apply getitem_hit).
  destruct (map_to_list (BaseCatalog.data self)) as [|[k v] l] eqn:Hl.
  { apply map_to_list_empty_iff in Hl. by rewrite Hl, lookup_empty in Ha. }
  assert (Hk : BaseCatalog.data self !! k = Some v).
  { apply elem_of_map_to_list. rewrite Hl. by left. }
  destruct (Hall k v Hk) as (b & -> & Hb).
  cbn. rewrite (getitem_hit _ _ _ Hk). cbn. by rewrite Hb.
Qed.

(** For a catalog whose mappings hold arrays of one length on each rank,
    the length of a rank is the number of its rows, and the global size
    is the number of rows of any column, gathered. *)
Theorem csize_gathered W (column : string) :
  Forall (Spec.in_memory column) W ->
  (∀ self, self ∈ W ->
     BaseCatalog.size self
     = Ok (Z.of_nat (length (Spec.local_column column self))))
  ∧ BaseCatalog.csize W
    = Ok (Z.of_nat (length (Spec.gathered column W))).
Proof.
  intros Hall.
  assert (Hlen : ∀ self, self ∈ W ->
            BaseCatalog.__len__ self
            = Ok (Z.of_nat (length (Spec.local_column column self)))).
  { intros self Hself. apply len_in_memory.
    by apply (proj1 (Forall_forall _ _) Hall). }
  split; [done|]. unfold BaseCatalog.csize.
  rewrite (mapM_Ok_fmap _ (fun self =>
             Z.of_nat (length (Spec.local_column column self)))) by done.
  rewrite bind_Ok. unfold mpi.allreduce, Spec.gathered.
  rewrite <- sum_lens_length. unfold Spec.lens.
  by rewrite <- list_fmap_compose.
Qed.

End sizes.

(** ** [BaseCatalog.__delitem__] *)
Section delitem.
Context {A V : Type} `{!EqDecision A} `{!BaseFile.Codec A V}.
Implicit Types (self : BaseCatalog.t A V).

Lemma list_remove_in (x : string) (l : list string) :
  x ∈ l ->
  ∃ l', py.list_remove x l = Ok l'
        ∧ length l = S (length l')
        ∧ (∀ y, y ≠ x -> y ∈ l' <-> y ∈ l)
        ∧ (NoDup l -> x ∉ l').
Proof.
  induction l as [|y l IH]; intros Hx; [by apply elem_of_nil in Hx|].
  cbn. destruct (decide (y = x)) as [->|Hne].
  - exists l. split; [done|]. split; [done|]. split.
    + intros y Hy. rewrite elem_of_cons. split; [by right|].
      intros [?|?]; done.
    + intros Hnd. by apply NoDup_cons in Hnd as [? _].
  - apply elem_of_cons in Hx as [->|Hx]; [done|].
    destruct (IH Hx) as (l' & -> & Hlen & Hmem & Hnd).
    exists (y :: l'). cbn. split; [done|]. split; [by rewrite Hlen|]. split.
    + intros z Hz. rewrite !elem_of_cons, (Hmem z Hz). done.
    + intros Hnd'. apply NoDup_cons in Hnd' as [_ Hnd'].
      rewrite elem_of_cons. intros [?|?]; [done|]. by apply Hnd.
Qed.

Lemma list_remove_notin (x : string) (l : list string) :
  x ∉ l ->
  py.list_remove x l = Raise (ValueError "list.remove(x): x not in list").
Proof.
  induction l as [|y l IH]; intros Hx; [done|]. cbn.
  rewrite decide_False by (intros ->; apply Hx; by left).
  rewrite IH; [done|]. intros ?. apply Hx. by right.
Qed.

(** [del self[name]]: a column of the mapping leaves the mapping, and
    nothing else changes, so that a column the source declares is still
    listed by [columns]; a name that is not in the mapping is removed
    from the columns of the source, [ValueError] if the source does not
    declare it, [AttributeError] if there is no source; the [KeyError]
    of the last line is never raised. *)
Theorem delitem_cases self (name : string) :
  (∀ v, BaseCatalog.data self !! name = Some v ->
     BaseCatalog.__delitem__ self name
     = Ok {| BaseCatalog.data := delete name (BaseCatalog.data self);
             BaseCatalog.attrs := BaseCatalog.attrs self;
             BaseCatalog._source := BaseCatalog._source self |}
     ∧ (Spec.source_declares self name ->
        BaseCatalog.columns_root
          {| BaseCatalog.data := delete name (BaseCatalog.data self);
             BaseCatalog.attrs := BaseCatalog.attrs self;
             BaseCatalog._source := BaseCatalog._source self |} None None
        = BaseCatalog.columns_root self None None))
  ∧ (BaseCatalog.data self !! name = None ->
     BaseCatalog._source self = None ->
     BaseCatalog.__delitem__ self name = Raise (AttributeError "_source"))
  ∧ (∀ source h,
       BaseCatalog.data self !! name = None ->
       BaseCatalog._source self = Some source ->
       BaseFile.hdr source = Some h ->
       (name ∉ BaseFile.columns h ->
        BaseCatalog.__delitem__ self name
        = Raise (ValueError "list.remove(x): x not in list"))
       ∧ (name ∈ BaseFile.columns h ->
          ∃ self' source' h',
            BaseCatalog.__delitem__ self name = Ok self'
            ∧ BaseCatalog.data self' = BaseCatalog.data self
            ∧ BaseCatalog._source self' = Some source'
            ∧ BaseFile.hdr source' = Some h'
            ∧ length (BaseFile.columns h) = S (length (BaseFile.columns h'))
            ∧ (∀ c, c ≠ name ->
                 c ∈ BaseFile.columns h' <-> c ∈ BaseFile.columns h)
            ∧ (NoDup (BaseFile.columns h) -> name ∉ BaseFile.columns h')))
  ∧ (∀ msg, BaseCatalog.__delitem__ self name ≠ Raise (KeyError msg)).
Proof.
  split; [|split; [|split]].
  - intros v Hv. split.
    { unfold BaseCatalog.__delitem__. by rewrite Hv. }
    intros (source & h & Hsrc & Hh & Hcol).
    unfold BaseCatalog.columns_root, BaseCatalog.source_columns. cbn.
    rewrite Hsrc, Hh. cbn. f_equal. f_equal. apply set_eq. intros c.
    rewrite !elem_of_union, dom_delete, elem_of_difference,
      elem_of_singleton, elem_of_list_to_set.
    destruct (decide (c = name)) as [->|Hne]; [tauto|tauto].
  - intros Hd Hsrc. unfold BaseCatalog.__delitem__. by rewrite Hd, Hsrc.
  - intros source h Hd Hsrc Hh. split.
    + intros Hnot. unfold BaseCatalog.__delitem__, BaseCatalog.source_remove.
      rewrite Hd, Hsrc, Hh. cbn. by rewrite list_remove_notin.
    + intros Hin.
      destruct (list_remove_in name (BaseFile.columns h) Hin)
        as (cols & Hrm & Hlen & Hmem & Hnd).
      unfold BaseCatalog.__delitem__, BaseCatalog.source_remove.
      rewrite Hd, Hsrc, Hh. cbn. rewrite Hrm. cbn.
      eexists _, _, _. split; [reflexivity|]. cbn. done.
  - intros msg. unfold BaseCatalog.__delitem__, BaseCatalog.source_remove.
    destruct (BaseCatalog.data self !! name); [done|]. cbn.
    destruct (BaseCatalog._source self) as [source|]; [|done].
    destruct (BaseFile.hdr source) as [h|]; [|done].
    destruct (decide (name ∈ BaseFile.columns h)) as [Hin|Hnot].
    + destruct (list_remove_in name _ Hin) as (cols & -> & _). done.
    + by rewrite list_remove_notin.
Qed.

End delitem.

(** ** [BaseCatalog.copy] *)
Section copy_unread.
Context {A V : Type} `{!EqDecision A} `{!BaseFile.Codec A V}.
Implicit Types (self : BaseCatalog.t A V) (W : list (BaseCatalog.t A V)).

Lemma lookup_copy_local (cols : list string) self (c : string) :
  BaseCatalog.data (BaseCatalog.copy_local cols self) !! c
  = if decide (c ∈ cols)
    then Some (default BaseCatalog.PyNone (BaseCatalog.data self !! c))
    else None.
Proof.
  cbn. induction cols as [|x cols IH].
  - rewrite decide_False by apply not_elem_of_nil. done.
  - cbn. destruct (decide (c = x)) as [->|Hne].
    + rewrite lookup_insert_eq, decide_True by (by left). done.
    + rewrite lookup_insert_ne by done. rewrite IH.
      destruct (decide (c ∈ cols)) as [Hin|Hnin].
      * rewrite decide_True by (by right). done.
      * rewrite decide_False; [done|].
        intros [?|?]%elem_of_cons; done.
Qed.

(** [copy] keeps the attributes, the source and the columns of the
    mapping; a column that [columns] lists and the mapping does not hold
    (a column of the source that was not read) is bound to [None], and
    [get] on the copy returns this [None] and reads nothing. *)
Theorem copy_unread_is_None W (cols : list string) :
  BaseCatalog.columns W None None = Ok cols ->
  ∃ new,
    BaseCatalog.copy W None = Ok new
    ∧ length new = length W
    ∧ ∀ (r : nat) self, W !! r = Some self ->
        ∃ self',
          new !! r = Some self'
          ∧ BaseCatalog.attrs self' = BaseCatalog.attrs self
          ∧ BaseCatalog._source self' = BaseCatalog._source self
          ∧ dom (BaseCatalog.data self') =@{gset string} list_to_set cols
          ∧ (∀ c v, c ∈ cols -> BaseCatalog.data self !! c = Some v ->
               BaseCatalog.data self' !! c = Some v)
          ∧ (∀ c, c ∈ cols -> BaseCatalog.data self !! c = None ->
               BaseCatalog.data self' !! c = Some BaseCatalog.PyNone
               ∧ BaseCatalog.get self' c [] []
                 = {| BaseCatalog.returned := Ok BaseCatalog.PyNone;
                      BaseCatalog.after := self';
                      BaseCatalog.source_reads := [] |}).
Proof.
  intros Hcols. exists (BaseCatalog.copy_local cols <$> W).
  split; [by apply copy_Ok|]. split; [by rewrite length_fmap|].
  intros r self Hr. exists (BaseCatalog.copy_local cols self).
  split; [by rewrite list_lookup_fmap, Hr|].
  split; [done|]. split; [done|]. split; [apply dom_copy_local|]. split.
  - intros c v Hc Hv. by rewrite lookup_copy_local, decide_True, Hv.
  - intros c Hc Hnone.
    assert (Hd : BaseCatalog.data (BaseCatalog.copy_local cols self) !! c
                 = Some BaseCatalog.PyNone).
    { by rewrite lookup_copy_local, decide_True, Hnone. }
    split; [done|]. unfold BaseCatalog.get.
    change (BaseCatalog.get_default [] []) with (Ok (@None (BaseCatalog.value A))).
    by rewrite Hd.
Qed.

End copy_unread.

(** ** [BaseCatalog.concatenate]: any number of catalogs *)
Section concatenate_loops.
Context {A V : Type} `{!EqDecision A} `{!BaseFile.Codec A V}.
Implicit Types (self : BaseCatalog.t A V) (W : list (BaseCatalog.t A V)).

Lemma filterM_none {X : Type} (keep : X -> result bool) (l : list X) :
  (∀ x, x ∈ l -> keep x = Ok false) -> filterM keep l = Ok [].
Proof.
  induction l as [|x l IH]; intros Hk; [done|]. cbn.
  rewrite (Hk x) by left. rewrite bind_Ok, IH; [done|].
  intros y Hy. apply Hk. by right.
Qed.

Lemma foldM_unit_Ok {X : Type} (body : X -> result unit) (l : list X) :
  (∀ x, x ∈ l -> body x = Ok ()) -> foldM (fun _ x => body x) () l = Ok ().
Proof.
  induction l as [|x l IH]; intros Hb; [done|]. cbn.
  rewrite (Hb x) by left. rewrite bind_Ok. apply IH.
  intros y Hy. apply Hb. by right.
Qed.

(** A loop that, column after column, gives every rank its piece of the
    column. *)
Lemma column_loop (body : list (BaseCatalog.t A V) -> string
                          -> result (list (BaseCatalog.t A V)))
    (start : list (BaseCatalog.t A V)) (cols : list string)
    (pieces : string -> list (list A)) :
  (∀ c, length (pieces c) = length start) ->
  (∀ new c, c ∈ cols -> length new = length start ->
     body new c = Ok (BaseCatalog.set_column c (pieces c) new)) ->
  ∃ new,
    foldM body start cols = Ok new
    ∧ length new = length start
    ∧ ∀ (r : nat) s0, start !! r = Some s0 ->
        ∃ self, new !! r = Some self
                ∧ (∀ c, c ∈ cols ->
                     BaseCatalog.data self !! c
                     = BaseCatalog.Array <$> pieces c !! r)
                ∧ (∀ c, c ∉ cols ->
                     BaseCatalog.data self !! c = BaseCatalog.data s0 !! c)
                ∧ BaseCatalog._source self = BaseCatalog._source s0
                ∧ BaseCatalog.attrs self = BaseCatalog.attrs s0.
Proof.
  intros Hpieces Hbody.
  set (step := fun (new : list (BaseCatalog.t A V)) c =>
                 zip_with (fun self piece =>
                             BaseCatalog.set self c (BaseCatalog.Array piece))
                          new (pieces c)).
  destruct (foldM_Ok_invariant (fun new => length new = length start)
              body step cols start eq_refl) as [Hfold Hlength].
  { intros new c Hnew Hc. split; [by apply Hbody|].
    unfold step. rewrite length_zip_with, Hpieces. lia. }
  eexists. split; [exact Hfold|]. split; [exact Hlength|].
  intros r s0 Hr.
  assert (Hpc : ∀ c, c ∈ cols ->
                  pieces c !! r = Some (default [] (pieces c !! r))).
  { intros c _.
    destruct (lookup_lt_is_Some_2 (pieces c) r) as [piece Hp].
    - rewrite Hpieces. by eapply lookup_lt_Some.
    - by rewrite Hp. }
  eexists. split.
  - unfold step.
    apply (foldl_zip_with_lookup
             (fun c self piece =>
                BaseCatalog.set self c (BaseCatalog.Array piece))
             pieces (fun c => default [] (pieces c !! r)) cols _ r _ Hpc Hr).
  - split; [|split]; [intros c Hc ..|];
      rewrite ?(foldl_set_data
                  (fun c => BaseCatalog.Array (default [] (pieces c !! r)))).
    + rewrite decide_True by done. by rewrite (Hpc c Hc).
    + by rewrite decide_False.
    + clear. revert s0. induction cols as [|x cols IH]; intros s0; [done|].
      cbn. by destruct (IH (BaseCatalog.set s0 x
                              (BaseCatalog.Array (default [] (pieces x !! r)))))
        as [-> ->].
Qed.

End concatenate_loops.

Section concatenate_kept.
Context {A V : Type} `{!EqDecision A} `{!BaseFile.Codec A V}.
Implicit Types (self : BaseCatalog.t A V) (W : list (BaseCatalog.t A V)).

(** The catalogs [concatenate] keeps: those with a column. *)
Lemma filterM_has_columns (others : list (list (BaseCatalog.t A V))) :
  Forall (fun W => ∃ colsW, BaseCatalog.columns W None None = Ok colsW)
         others ->
  filterM (fun other =>
             cols ← BaseCatalog.columns other None None;
             Ok (bool_decide (cols ≠ []))) others
  = Ok (filter (fun W => Spec.has_columns W) others).
Proof.
  induction 1 as [|W others [colsW HW] _ IH]; [done|].
  cbn [filterM]. rewrite HW, bind_Ok, bind_Ok, IH, bind_Ok.
  assert (Hh : Spec.has_columns W = bool_decide (colsW ≠ [])).
  { unfold Spec.has_columns. rewrite HW. destruct colsW as [|c colsW].
    - by rewrite bool_decide_eq_false_2 by (by intros ?).
    - by rewrite bool_decide_eq_true_2. }
  rewrite filter_cons. destruct (decide (Spec.has_columns W)) as [Hd|Hd].
  - apply Is_true_true in Hd. by rewrite <- Hh, Hd.
  - apply Is_true_false in Hd. by rewrite <- Hh, Hd.
Qed.

Variables (others : list (list (BaseCatalog.t A V)))
  (W0 : list (BaseCatalog.t A V))
  (rest : list (list (BaseCatalog.t A V))) (cols cols0 : list string)
  (P : nat).
Hypothesis Hreturn :
  Forall (fun W => ∃ colsW, BaseCatalog.columns W None None = Ok colsW)
         others.
Hypothesis Hkept : filter (fun W => Spec.has_columns W) others = W0 :: rest.
Hypothesis Hall : Spec.catalogs_with (W0 :: rest) cols P.
Hypothesis H0 : Spec.catalog_with W0 cols0.
Hypothesis Hset0 : list_to_set cols0 =@{gset string} list_to_set cols.
Hypothesis Hne : cols ≠ [].

Lemma many_in_cols (c : string) : c ∈ cols0 <-> c ∈ cols.
Proof.
  rewrite <- (elem_of_list_to_set (C := gset string) c cols0), Hset0.
  apply elem_of_list_to_set.
Qed.

Lemma many_member W :
  W ∈ W0 :: rest ->
  length W = P
  ∧ ∃ colsW, Spec.catalog_with W colsW
             ∧ colsW ≠ [] ∧ ∀ c, c ∈ cols0 -> c ∈ colsW.
Proof.
  intros HW.
  destruct (proj1 (Forall_forall _ _) Hall W HW) as (Hlen & colsW & Hw & Hset).
  split; [done|]. exists colsW. split; [done|].
  assert (Hin : ∀ c, c ∈ cols -> c ∈ colsW).
  { intros c Hc. apply (elem_of_list_to_set (C := gset string)).
    rewrite Hset. by apply elem_of_list_to_set. }
  split.
  - destruct cols as [|c cols']; [done|]. intros Hnil.
    specialize (Hin c ltac:(by left)). rewrite Hnil in Hin.
    by apply elem_of_nil in Hin.
  - intros c Hc. by apply Hin, many_in_cols.
Qed.

Lemma many_length0 : length W0 = P.
Proof. apply many_member. by left. Qed.

Lemma many_getitem W self (c : string) :
  W ∈ W0 :: rest -> self ∈ W -> c ∈ cols0 ->
  BaseCatalog.__getitem__ self c
  = Ok (BaseCatalog.Array (Spec.local_column c self)).
Proof.
  intros HW Hs Hc.
  destruct (many_member W HW) as (_ & colsW & (_ & _ & Hget) & _ & Hin).
  destruct (Hget self c Hs (Hin c Hc)) as [a Ha].
  by rewrite (local_column_Ok _ _ a).
Qed.

Lemma many_cget W (c : string) :
  W ∈ W0 :: rest -> c ∈ cols0 ->
  BaseCatalog.cget W c = Ok (Spec.gathered c W).
Proof.
  intros HW Hc.
  destruct (many_member W HW) as (_ & colsW & Hw & _ & Hin).
  apply (cget_catalog_with W colsW); [done|by apply Hin].
Qed.

(** With kept catalogs of the same columns, [concatenate] comes to the
    loop over the columns. *)
Lemma concatenate_many_fold (keep_order : bool) :
  BaseCatalog.concatenate others keep_order
  = foldM (BaseCatalog.concatenate_column (W0 :: rest) keep_order)
          (Spec.concatenate_start others cols0 W0) cols0.
Proof.
  destruct H0 as (HW0 & Hcols0 & _).
  destruct others as [|other others0] eqn:Hothers; [done|].
  rewrite <- Hothers in *. rewrite Hothers at 1.
  rewrite concatenate_unfold, <- Hothers.
  rewrite (filterM_has_columns others Hreturn), Hkept, bind_Ok.
  change (py.getitem (W0 :: rest) 0) with (Ok W0). rewrite bind_Ok.
  rewrite (copy_Ok W0 cols0 Hcols0), bind_Ok.
  rewrite (columns_copy W0 cols0 _ HW0 Hcols0), bind_Ok.
  rewrite foldM_unit_Ok; [by rewrite bind_Ok|].
  intros W HW.
  destruct (many_member W HW) as (Hlen & colsW & Hw & _ & _).
  destruct (proj1 (Forall_forall _ _) Hall W HW)
    as (_ & colsW' & (_ & Hcw & _) & Hset).
  apply (concatenate_check_Ok W _ colsW' cols0 Hcw).
  - by rewrite length_imap, length_fmap, many_length0.
  - by rewrite Hset.
Qed.

Lemma many_start_length :
  length (Spec.concatenate_start others cols0 W0) = P.
Proof.
  unfold Spec.concatenate_start.
  by rewrite length_imap, length_fmap, many_length0.
Qed.

(** One turn of the loop, rows kept in order. *)
Lemma many_column_ordered (new : list (BaseCatalog.t A V)) (c : string) :
  c ∈ cols0 ->
  BaseCatalog.concatenate_column (W0 :: rest) true new c
  = Ok (BaseCatalog.set_column c
          (mpi.scatter_array (length new)
             (concat (Spec.gathered c <$> W0 :: rest))) new).
Proof.
  intros Hc. unfold BaseCatalog.concatenate_column.
  rewrite (mapM_Ok_fmap _ (Spec.gathered c)).
  - by rewrite bind_Ok.
  - intros W HW. by apply many_cget.
Qed.

(** One turn of the loop, no row moved. *)
Lemma many_column_local (new : list (BaseCatalog.t A V)) (c : string) :
  c ∈ cols0 -> length new = P ->
  BaseCatalog.concatenate_column (W0 :: rest) false new c
  = Ok (BaseCatalog.set_column c
          ((fun r : nat =>
              concat ((fun W => from_option (Spec.local_column c) [] (W !! r))
                        <$> W0 :: rest)) <$> seq 0 P) new).
Proof.
  intros Hc Hnew. unfold BaseCatalog.concatenate_column. rewrite Hnew.
  rewrite (mapM_Ok_fmap _
             (fun r : nat =>
                concat ((fun W => from_option (Spec.local_column c) [] (W !! r))
                          <$> W0 :: rest))); [done|].
  intros r Hr. apply elem_of_seq in Hr.
  rewrite (mapM_Ok_fmap _
             (fun W => from_option (Spec.local_column c) [] (W !! r))).
  - by rewrite bind_Ok.
  - intros W HW. destruct (many_member W HW) as (Hlen & _).
    destruct (lookup_lt_is_Some_2 W r) as [self Hself]; [lia|].
    unfold py.getitem. rewrite Hself, bind_Ok.
    change (BaseCatalog.returned (BaseCatalog.get self c [] []))
      with (BaseCatalog.__getitem__ self c).
    rewrite (many_getitem W self c HW (list_elem_of_lookup_2 _ _ _ Hself) Hc).
    by rewrite bind_Ok.
Qed.

End concatenate_kept.

Section concatenate_any.
Context {A V : Type} `{!EqDecision A} `{!BaseFile.Codec A V}.
Implicit Types (self : BaseCatalog.t A V) (W : list (BaseCatalog.t A V)).

(** [concatenate] of any number of catalogs on one communicator, of
    which those with a column have the same columns: the catalogs
    without column are left out.  Keeping the order, every column of the
    result, gathered, is the gathered columns of the catalogs kept, one
    after the other in the order of the arguments; not keeping it, every
    rank holds its own rows of the catalogs kept, one after the other,
    and the column, gathered, is these local parts in rank order. *)
Theorem concatenate_many (others : list (list (BaseCatalog.t A V)))
    (cols : list string) (P : nat) (column : string) :
  let kept := filter (fun W => Spec.has_columns W) others in
  Forall (fun W => ∃ colsW, BaseCatalog.columns W None None = Ok colsW)
         others ->
  kept ≠ [] ->
  Spec.catalogs_with kept cols P ->
  column ∈ cols ->
  (∃ new,
     BaseCatalog.concatenate others true = Ok new
     ∧ length new = P
     ∧ BaseCatalog.cget new column
       = Ok (concat (Spec.gathered column <$> kept)))
  ∧ (∃ new,
       BaseCatalog.concatenate others false = Ok new
       ∧ length new = P
       ∧ (∀ (r : nat) self, new !! r = Some self ->
            BaseCatalog.__getitem__ self column
            = Ok (BaseCatalog.Array
                    (concat ((fun W => from_option (Spec.local_column column)
                                         [] (W !! r)) <$> kept))))
       ∧ BaseCatalog.cget new column
         = Ok (concat
                 ((fun r : nat =>
                     concat ((fun W => from_option (Spec.local_column column)
                                         [] (W !! r)) <$> kept))
                    <$> seq 0 P))).
Proof.
  intros kept Hreturn HWs Hall Hcol.
  destruct kept as [|W0 rest] eqn:Hkept; [done|]. subst kept.
  destruct (proj1 (Forall_forall _ _) Hall W0 ltac:(by left))
    as (Hlen0 & cols0 & H0 & Hset0).
  assert (Hne : cols ≠ []) by (intros ->; by apply elem_of_nil in Hcol).
  assert (Hcol0 : column ∈ cols0).
  { by apply (many_in_cols cols cols0 Hset0). }
  assert (HP : (0 < P)%nat).
  { destruct H0 as (HW0 & _). destruct W0; [done|]. cbn in Hlen0. lia. }
  pose proof (many_start_length others W0 rest cols cols0 P Hall Hset0 Hne)
    as Hstart.
  pose proof (concatenate_many_fold others W0 rest cols cols0 P Hreturn Hkept
                Hall H0 Hset0 Hne) as Hfold.
  split.
  - destruct (column_loop
                (BaseCatalog.concatenate_column (W0 :: rest) true)
                (Spec.concatenate_start others cols0 W0) cols0
                (fun c => mpi.scatter_array P
                            (concat (Spec.gathered c <$> W0 :: rest))))
      as (new & Hnew & Hlength & Hranks).
    { intros c. by rewrite scatter_array_length, Hstart. }
    { intros new c Hc Hl. rewrite Hstart in Hl. rewrite <- Hl.
      by apply (many_column_ordered W0 rest cols cols0 P Hall Hset0 Hne). }
    exists new. rewrite Hstart in Hlength.
    split; [by rewrite Hfold|]. split; [done|].
    rewrite <- (gather_scatter P (concat (Spec.gathered column <$> W0 :: rest))
                  HP).
    apply cget_pieces.
    + by rewrite scatter_array_length.
    + intros r self piece Hr Hp.
      destruct (lookup_lt_is_Some_2
                  (Spec.concatenate_start others cols0 W0) r)
        as [s0 Hs0].
      { rewrite Hstart, <- Hlength. by eapply lookup_lt_Some. }
      destruct (Hranks r s0 Hs0) as (self' & Hr' & Hdata & _).
      rewrite Hr in Hr'. injection Hr' as <-.
      by rewrite (Hdata column Hcol0), Hp.
  - set (pieces := fun c =>
           (fun r : nat =>
              concat ((fun W => from_option (Spec.local_column c) [] (W !! r))
                        <$> W0 :: rest)) <$> seq 0 P).
    destruct (column_loop
                (BaseCatalog.concatenate_column (W0 :: rest) false)
                (Spec.concatenate_start others cols0 W0) cols0 pieces)
      as (new & Hnew & Hlength & Hranks).
    { intros c. unfold pieces. by rewrite length_fmap, length_seq, Hstart. }
    { intros new c Hc Hl. rewrite Hstart in Hl.
      by apply (many_column_local W0 rest cols cols0 P Hall Hset0 Hne). }
    exists new. rewrite Hstart in Hlength.
    split; [by rewrite Hfold|]. split; [done|].
    assert (Hat : ∀ (r : nat) self, new !! r = Some self ->
              BaseCatalog.data self !! column
              = Some (BaseCatalog.Array
                        (concat ((fun W => from_option
                                             (Spec.local_column column) []
                                             (W !! r)) <$> W0 :: rest)))).
    { intros r self Hr.
      assert (Hrlt : (r < P)%nat).
      { rewrite <- Hlength. by eapply lookup_lt_Some. }
      destruct (lookup_lt_is_Some_2
                  (Spec.concatenate_start others cols0 W0) r)
        as [s0 Hs0]; [by rewrite Hstart|].
      destruct (Hranks r s0 Hs0) as (self' & Hr' & Hdata & _).
      rewrite Hr in Hr'. injection Hr' as <-.
      rewrite (Hdata column Hcol0). unfold pieces.
      by rewrite list_lookup_fmap, lookup_seq_lt. }
    split.
    + intros r self Hr. by apply getitem_hit, Hat.
    + apply (cget_pieces new column (pieces column)).
      * unfold pieces. by rewrite length_fmap, length_seq.
      * intros r self piece Hr Hp. rewrite (Hat r self Hr).
        unfold pieces in Hp. rewrite list_lookup_fmap in Hp.
        destruct (seq 0 P !! r) as [r'|] eqn:Hseq; [|done].
        apply lookup_seq in Hseq as [-> _]. by injection Hp as <-.
Qed.

End concatenate_any.

Section concatenate_errors.
Context {A V : Type} `{!EqDecision A} `{!BaseFile.Codec A V}.
Implicit Types (self : BaseCatalog.t A V) (W : list (BaseCatalog.t A V)).

Lemma foldM_unit_Raise {X : Type} (body : X -> result unit) (l : list X)
    (e : exn) :
  (∀ x, x ∈ l -> body x = Ok () ∨ body x = Raise e) ->
  (∃ x, x ∈ l ∧ body x = Raise e) ->
  foldM (fun _ x => body x) () l = Raise e.
Proof.
  induction l as [|x l IH]; intros Hb (y & Hy & Hr).
  { by apply elem_of_nil in Hy. }
  cbn. destruct (Hb x ltac:(by left)) as [Hx|Hx]; rewrite Hx; [|done].
  rewrite bind_Ok. apply IH.
  - intros z Hz. apply Hb. by right.
  - apply elem_of_cons in Hy as [->|Hy]; [congruence|eauto].
Qed.

Lemma has_columns_inv W :
  Spec.has_columns W ->
  W ≠ [] ∧ ∃ c colsW, BaseCatalog.columns W None None = Ok (c :: colsW).
Proof.
  unfold Spec.has_columns. intros Hh. split.
  - intros ->. done.
  - destruct (BaseCatalog.columns W None None) as [[|c colsW]|]; try done.
    eauto.
Qed.

(** [concatenate] with no catalog raises [ValueError]; with catalogs
    that all have no column, it raises [IndexError]: it takes the first
    of the catalogs it kept, and kept none. *)
Theorem concatenate_nothing_kept (others : list (list (BaseCatalog.t A V)))
    (keep_order : bool) :
  (others = [] ->
   BaseCatalog.concatenate others keep_order
   = Raise (ValueError "Provide at least one instance."))
  ∧ (others ≠ [] ->
     Forall (fun W => BaseCatalog.columns W None None = Ok []) others ->
     BaseCatalog.concatenate others keep_order
     = Raise (IndexError "index out of range")).
Proof.
  split; [by intros ->|]. intros Hne Hall.
  destruct others as [|other others0] eqn:Hothers; [done|].
  rewrite <- Hothers in *. rewrite Hothers at 1.
  rewrite concatenate_unfold, <- Hothers.
  rewrite filterM_none; [done|].
  intros W HW. rewrite (proj1 (Forall_forall _ _) Hall W HW), bind_Ok.
  by rewrite bool_decide_eq_false_2 by (by intros ?).
Qed.

(** [concatenate] of catalogs on one communicator raises [ValueError]
    when a catalog with columns does not have the columns of the first
    catalog with columns. *)
Theorem concatenate_mismatch (others : list (list (BaseCatalog.t A V)))
    (W0 : list (BaseCatalog.t A V)) (rest : list (list (BaseCatalog.t A V)))
    (cols0 : list string) (P : nat) (keep_order : bool) :
  Forall (fun W => length W = P
                   ∧ ∃ colsW, BaseCatalog.columns W None None = Ok colsW)
         others ->
  filter (fun W => Spec.has_columns W) others = W0 :: rest ->
  BaseCatalog.columns W0 None None = Ok cols0 ->
  Exists (fun W => ∃ colsW, BaseCatalog.columns W None None = Ok colsW
                            ∧ list_to_set colsW
                              ≠@{gset string} list_to_set cols0) rest ->
  BaseCatalog.concatenate others keep_order
  = Raise (ValueError "Cannot extend samples as columns do not match").
Proof.
  intros Hall Hkept Hcols0 Hbad.
  assert (Hmem : ∀ W, W ∈ W0 :: rest ->
            length W = P
            ∧ ∃ c colsW, BaseCatalog.columns W None None = Ok (c :: colsW)).
  { intros W HW. rewrite <- Hkept in HW.
    apply list_elem_of_filter in HW as [Hh HW].
    destruct (proj1 (Forall_forall _ _) Hall W HW) as (Hlen & _).
    split; [done|]. by apply has_columns_inv. }
  destruct (Hmem W0 ltac:(by left)) as (Hlen0 & c0 & cs0 & Hc0).
  rewrite Hcols0 in Hc0. injection Hc0 as ->.
  assert (HW0 : W0 ≠ []).
  { intros ->. done. }
  destruct others as [|other others0] eqn:Hothers; [done|].
  rewrite <- Hothers in *. rewrite Hothers at 1.
  rewrite concatenate_unfold, <- Hothers.
  rewrite (filterM_has_columns others), Hkept, bind_Ok.
  2:{ eapply Forall_impl; [exact Hall|]. by intros W [_ ?]. }
  change (py.getitem (W0 :: rest) 0) with (Ok W0). rewrite bind_Ok.
  rewrite (copy_Ok W0 _ Hcols0), bind_Ok.
  rewrite (columns_copy W0 _ _ HW0 Hcols0), bind_Ok.
  set (new := imap _ _).
  assert (Hnew : length new = P).
  { unfold new. by rewrite length_imap, length_fmap. }
  rewrite (foldM_unit_Raise _ _
             (ValueError "Cannot extend samples as columns do not match"));
    [done| |].
  - intros W HW. destruct (Hmem W HW) as (Hlen & c & colsW & HcW).
    unfold BaseCatalog.concatenate_check. rewrite HcW, bind_Ok.
    rewrite (bool_decide_eq_false_2 (length new ≠ length W))
      by (rewrite Hnew, Hlen; by intros ?).
    rewrite !bool_decide_eq_true_2 by done. cbn [andb].
    destruct (bool_decide _); eauto.
  - apply Exists_exists in Hbad as (W & HW & colsW & HcW & Hset).
    exists W. split; [by right|].
    destruct (Hmem W ltac:(by right)) as (Hlen & c & colsW' & HcW').
    unfold BaseCatalog.concatenate_check. rewrite HcW, bind_Ok.
    rewrite (bool_decide_eq_false_2 (length new ≠ length W))
      by (rewrite Hnew, Hlen; by intros ?).
    rewrite HcW' in HcW. injection HcW as <-.
    rewrite !bool_decide_eq_true_2 by done. done.
Qed.

End concatenate_errors.

(** ** [BaseCatalog.__eq__] *)
Section equality.
Context {A V : Type} `{!BaseFile.Codec A V} {array_eq : py.ArrayEq A}.
Implicit Types (self : BaseCatalog.t A V) (W : list (BaseCatalog.t A V)).

(** [np.all(a == b)] on two arrays of one length. *)
Lemma all_eq_lengths (a b : list A) :
  length a = length b ->
  ∃ same, py.all_eq a b = Ok same
          ∧ (same = true
             <-> Forall2 (fun x y => py.elem_eq x y = true) a b).
Proof.
  intros Hlen. unfold py.all_eq. rewrite decide_True by done.
  eexists. split; [done|].
  revert b Hlen. induction a as [|x a IH]; intros [|y b] Hlen; try done.
  cbn. rewrite andb_true_iff, (IH b) by (by injection Hlen).
  split.
  - intros [? ?]. by constructor.
  - intros [? ?]%Forall2_cons. done.
Qed.

(** The loop of [__eq__] at the first column that differs: the root
    returns [False] when this is the last column or the root is alone. *)
Lemma eq_columns_differ W1 W2 (before : list string) (c : string)
    (after : list string) (g1 g2 : string -> list A) :
  (∀ c', c' ∈ before ++ c :: after ->
     BaseCatalog.cget W1 c' = Ok (g1 c')
     ∧ BaseCatalog.cget W2 c' = Ok (g2 c')) ->
  (∀ self c', self ∈ W1 -> c' ∈ after ->
     ∃ a, BaseCatalog.__getitem__ self c' = Ok (BaseCatalog.Array a)) ->
  (∀ c', c' ∈ before -> py.all_eq (g1 c') (g2 c') = Ok true) ->
  py.all_eq (g1 c) (g2 c) = Ok false ->
  BaseCatalog.eq_columns W1 W2 (before ++ c :: after)
  = if bool_decide (after = [] ∨ (length W1 <= 1)%nat) then Ok false
    else Raise Deadlock.
Proof.
  intros Hcget Hget Hbefore Hc.
  induction before as [|c0 before IH].
  - cbn [app BaseCatalog.eq_columns].
    destruct (Hcget c ltac:(by left)) as [-> ->]. rewrite !bind_Ok, Hc, bind_Ok.
    destruct after as [|next after].
    { rewrite bool_decide_eq_true_2; [done|by left]. }
    destruct (decide (length W1 <= 1)%nat) as [Hone|Hmany].
    { rewrite !bool_decide_eq_true_2; [done|by right|done]. }
    rewrite !bool_decide_eq_false_2; [|by intros [?|?]|done].
    rewrite (mapM_Ok_fmap _ (Spec.local_column next)); [done|].
    intros self Hself.
    destruct (Hget self next) as [a Ha]; [|by left|].
    { apply list_elem_of_lookup in Hself as [i Hi].
      rewrite lookup_drop in Hi. by eapply list_elem_of_lookup_2. }
    rewrite Ha, bind_Ok. cbn. by rewrite (local_column_Ok self next a).
  - cbn [app BaseCatalog.eq_columns].
    destruct (Hcget c0 ltac:(by left)) as [-> ->]. rewrite !bind_Ok.
    rewrite (Hbefore c0) by left. rewrite bind_Ok. apply IH.
    + intros c' Hc'. apply Hcget. by right.
    + intros c' Hc'. apply Hbefore. by right.
Qed.


End equality.

(** ** [BaseCatalog.save_hdf5] *)
Section save_file.
Context {A V D : Type} `{!BaseFile.Codec A V} {handler : BaseFile.Writer A D}.
Implicit Types (self : BaseCatalog.t A V) (W : list (BaseCatalog.t A V)).

Lemma assoc_fmap_cols {X : Type} (f : string -> X) (cols : list string)
    (name : string) :
  name ∈ cols ->
  py.assoc name ((fun c => (c, f c)) <$> cols) = Some (f name).
Proof.
  induction cols as [|c cols IH]; intros Hin; [by apply elem_of_nil in Hin|].
  cbn. destruct (decide (c = name)) as [->|Hne]; [done|].
  apply elem_of_cons in Hin as [?|Hin]; [done|]. by apply IH.
Qed.

Lemma fmap_cols_keys {X : Type} (f : string -> X) (cols : list string) :
  ((fun c => (c, f c)) <$> cols).*1 = cols.
Proof. induction cols as [|c cols IH]; [done|]. cbn. by f_equal. Qed.

(** The dict of one rank that can get all the columns. *)
Lemma columns_dict_Ok (cols : list string) self :
  (∀ c, c ∈ cols ->
     ∃ a, BaseCatalog.__getitem__ self c = Ok (BaseCatalog.Array a)) ->
  BaseCatalog.columns_dict cols self
  = Ok ((fun c => (c, Spec.local_column c self)) <$> cols).
Proof.
  intros Hget. unfold BaseCatalog.columns_dict. apply mapM_Ok_fmap.
  intros c Hc. destruct (Hget c Hc) as [a Ha].
  rewrite Ha, bind_Ok. cbn. by rewrite (local_column_Ok self c a).
Qed.

(** All the rows of a block lie in a range that starts before the block
    and ends after it. *)
Lemma rows_whole {T : Type} (l : list T) (s e : Z) :
  s <= 0 -> Z.of_nat (length l) <= e -> Spec.rows s e l = l.
Proof.
  intros Hs He. unfold Spec.rows.
  replace (Z.to_nat s) with 0%nat by lia. rewrite drop_0.
  apply take_ge. lia.
Qed.

Lemma bind_ret {X : Type} (m : result X) : m ≫= Ok = m.
Proof. by destruct m. Qed.

(** [save_hdf5] of a catalog whose columns have one length on each rank,
    whatever the handler does: it is one call of [_write_file_slice], for
    the one file, in which every rank gives all its rows of every column,
    so that the rows given, in rank order, are the column gathered.  Of a
    catalog without column, it raises [UnboundLocalError]. *)
Theorem save_hdf5_gathers W (cols : list string) (filename : string) :
  Spec.catalog_with W cols ->
  (cols = [] ->
   ∀ s : D,
     BaseCatalog.save_hdf5 W filename s = Raise (UnboundLocalError "size"))
  ∧ (cols ≠ [] ->
     (∀ self, self ∈ W ->
        ∃ n, ∀ c, c ∈ cols -> length (Spec.local_column c self) = n) ->
     ∃ tmps,
       (∀ s : D, BaseCatalog.save_hdf5 W filename s
                 = BaseFile._write_file_slice filename tmps s)
       ∧ length tmps = length W
       ∧ (∀ (r : nat) self, W !! r = Some self ->
            ∃ tmp, tmps !! r = Some tmp
                   ∧ tmp.*1 = cols
                   ∧ ∀ c, c ∈ cols ->
                       Spec.dict_column c tmp = Spec.local_column c self)
       ∧ ∀ c, c ∈ cols -> Spec.handed c tmps = Spec.gathered c W).
Proof.
  intros (HW & Hcols & Hget).
  set (handles := (fun r => {| BaseFile.filenames := [filename];
                               BaseFile.attrs := (∅ : gmap string V);
                               BaseFile.extra := ∅;
                               BaseFile.mpicomm := mpi.Comm r (length W);
                               BaseFile.mpiroot := 0;
                               BaseFile.hdr := None |})
                    <$> seq 0 (length W)).
  set (dict := fun self : BaseCatalog.t A V =>
                 (fun c => (c, Spec.local_column c self)) <$> cols).
  assert (Hlen : (0 < length W)%nat) by (destruct W; [done|cbn; lia]).
  assert (Hroot : handles !! 0%nat
                  = Some {| BaseFile.filenames := [filename];
                            BaseFile.attrs := (∅ : gmap string V);
                            BaseFile.extra := ∅;
                            BaseFile.mpicomm := mpi.Comm 0 (length W);
                            BaseFile.mpiroot := 0; BaseFile.hdr := None |}).
  { unfold handles. by rewrite list_lookup_fmap, lookup_seq_lt. }
  assert (Hsave : ∀ s : D,
            BaseCatalog.save_hdf5 W filename s
            = BaseFile.write handles (BaseFile.WDict <$> (dict <$> W))
                None s).
  { intros s. unfold BaseCatalog.save_hdf5.
    rewrite (init_unopened (A := A)) by (by do 3 right; left). cbn zeta.
    change (py.contains "r" (py.lower "")) with false. cbv iota.
    change (default ∅ None) with (∅ : gmap string V). fold handles.
    rewrite bind_Ok, Hcols, bind_Ok.
    rewrite (mapM_Ok_fmap _ dict); [done|].
    intros self Hself. apply columns_dict_Ok. intros c Hc. by apply Hget. }
  split.
  - intros -> s. rewrite Hsave. unfold BaseFile.write, py.getitem.
    rewrite Hroot, bind_Ok. unfold BaseFile.write_scatter. rewrite bind_Ok.
    destruct W as [|self W']; [done|]. done.
  - intros Hne Haligned.
    assert (Hsc : Spec.scattered_dicts cols (dict <$> W)).
    { split; [done|]. split; [by destruct W|].
      apply Forall_fmap, Forall_forall. intros self Hself. cbn. split.
      - apply fmap_cols_keys.
      - destruct (Haligned self Hself) as [n Hn]. exists n.
        unfold dict. rewrite <- list_fmap_compose.
        apply Forall_fmap, Forall_forall. intros c Hc. cbn. by apply Hn. }
    destruct (write_scattered_calls_all handles _ cols (dict <$> W) Hroot Hsc)
      as (calls & Hrun & Hfiles & Hcalls).
    cbn [BaseFile.filenames length] in Hfiles, Hcalls.
    destruct calls as [|[fn tmps] [|? ?]]; try done.
    injection Hfiles as ->.
    assert (Hblock : ∀ c self, c ∈ cols ->
              Spec.dict_column c (dict self) = Spec.local_column c self).
    { intros c self Hc. unfold Spec.dict_column, dict.
      by rewrite (assoc_fmap_cols (fun c => Spec.local_column c self)). }
    assert (Hfull : ∀ c, c ∈ cols ->
              concat (Spec.dict_column c <$> (dict <$> W))
              = Spec.gathered c W).
    { intros c Hc. unfold Spec.gathered. f_equal.
      rewrite <- list_fmap_compose.
      apply list_fmap_ext. intros i self _. cbn. by apply Hblock. }
    assert (Hex : ∃ c0, c0 ∈ cols).
    { destruct cols as [|c0 ?]; [done|]. exists c0. by left. }
    destruct Hex as [c0 Hc0].
    destruct (Hcalls 0%nat filename tmps c0 eq_refl Hc0) as (Hs & Hse & Ht).
    exists tmps. split; [|split; [|split]].
    + intros s. rewrite Hsave, Hrun. unfold Spec.write_file_slices.
      cbn [foldM]. apply bind_ret.
    + by rewrite Ht, length_imap, length_fmap.
    + intros r self Hr.
      assert (Hd : (dict <$> W) !! r = Some (dict self))
        by (by rewrite list_lookup_fmap, Hr).
      eexists. split; [by rewrite Ht, list_lookup_imap, Hd|]. split.
      * rewrite scattered_tmp_keys; [| |exact Hs|exact Hse].
        -- apply fmap_cols_keys.
        -- rewrite !length_fmap. by eapply lookup_lt_Some.
      * intros c Hc.
        destruct (Hcalls 0%nat filename tmps c eq_refl Hc)
          as (Hsc' & Hsec & Htc).
        pose proof (f_equal (fun l => l !! r) Htc) as Hl. cbn beta in Hl.
        rewrite list_lookup_imap, Hd in Hl. rewrite Ht in Hl.
        rewrite list_lookup_imap, Hd in Hl.
        cbn [fmap option_fmap option_map] in Hl. injection Hl as Hl.
        rewrite Hl.
        rewrite (scattered_tmp_rows cols (dict <$> W) c _ _ r (dict self)
                   Hsc Hc Hsc' Hsec Hd).
        rewrite list_lookup_fmap, Hd. cbn [fmap option_fmap option_map default].
        rewrite Hblock by done.
        change (Z.of_nat 1) with 1. change (Z.of_nat 0) with 0.
        rewrite !Z.div_1_r, Z.mul_0_l, Z.add_0_l, Z.mul_1_l.
        set (blocks := Spec.dict_column c <$> (dict <$> W)).
        apply rows_whole.
        -- pose proof (offset_mono blocks 0 r ltac:(lia)) as H0.
           rewrite offset_0 in H0. lia.
        -- assert (Hb : blocks !! r = Some (Spec.local_column c self)).
           { unfold blocks. rewrite list_lookup_fmap, Hd. cbn.
             by rewrite Hblock. }
           pose proof (offset_S blocks r _ Hb) as HS.
           pose proof (offset_mono blocks (S r) (length blocks)
                         ltac:(apply lookup_lt_Some in Hb; lia)) as Hm.
           rewrite offset_total, sum_lens_length in Hm. lia.
    + intros c Hc.
      destruct (Hcalls 0%nat filename tmps c eq_refl Hc) as (Hs' & Hse' & Htc).
      rewrite Htc.
      rewrite (scattered_handed cols (dict <$> W) c _ _ Hsc Hc Hs' Hse').
      rewrite (Hfull c Hc). change (Z.of_nat 1) with 1.
      change (Z.of_nat 0) with 0.
      rewrite !Z.div_1_r, Z.mul_0_l, Z.add_0_l, Z.mul_1_l.
      apply rows_all.
Qed.

End save_file.

(** ** [BaseCatalog.columns], [set], [get] and [del] on one rank *)
Section local_ops.
Context {A V : Type} `{!EqDecision A} `{!BaseFile.Codec A V}.
Implicit Types (self : BaseCatalog.t A V) (W : list (BaseCatalog.t A V))
  (v : BaseCatalog.value A).

Lemma get_set_ne self (column c : string) v :
  c ≠ column ->
  BaseCatalog.returned
    (BaseCatalog.get (BaseCatalog.set self column v) c [] [])
  = BaseCatalog.returned (BaseCatalog.get self c [] [])
  ∧ BaseCatalog.source_reads
      (BaseCatalog.get (BaseCatalog.set self column v) c [] [])
    = BaseCatalog.source_reads (BaseCatalog.get self c [] []).
Proof.
  intros Hne. unfold BaseCatalog.get. cbn.
  rewrite lookup_insert_ne by done.
  destruct (BaseCatalog.data self !! c); [done|].
  destruct (BaseCatalog._source self) as [source|]; [|done].
  destruct (BaseFile.hdr source) as [h|]; [|done].
  destruct (bool_decide (c ∈ BaseFile.columns h)); [|done].
  by destruct (BaseFile.read_local source h c).
Qed.

(** [columns()], with no pattern, lists once each the columns of the
    mapping of the root and the columns its source declares, and nothing
    else; it raises only when the source of the root was not opened. *)
Theorem columns_lists_root W root :
  W !! 0%nat = Some root ->
  Spec.source_opened root ->
  ∃ cols,
    BaseCatalog.columns W None None = Ok cols
    ∧ NoDup cols
    ∧ ∀ c, c ∈ cols
           <-> is_Some (BaseCatalog.data root !! c)
               ∨ Spec.source_declares root c.
Proof.
  intros Hroot Hopen. rewrite (columns_root_of W root None None Hroot).
  unfold BaseCatalog.columns_root, BaseCatalog.source_columns,
    Spec.source_declares.
  destruct (BaseCatalog._source root) as [source|] eqn:Hsrc.
  - destruct (Hopen source Hsrc) as [h Hh]. rewrite Hh, bind_Ok.
    eexists. split; [reflexivity|]. split; [apply NoDup_elements|].
    intros c. rewrite elem_of_elements, elem_of_union, elem_of_dom,
      elem_of_list_to_set.
    split; (intros [Hd|Hs]; [by left|right]).
    + by exists source, h.
    + destruct Hs as (source' & h' & [= <-] & Hh' & Hc).
      rewrite Hh in Hh'. by injection Hh' as <-.
  - rewrite bind_Ok. eexists. split; [reflexivity|].
    split; [apply NoDup_elements|].
    intros c. rewrite elem_of_elements, elem_of_union, elem_of_dom.
    split; (intros [Hd|Hs]; [by left|]).
    + by apply not_elem_of_empty in Hs.
    + by destruct Hs as (? & ? & ? & _).
Qed.

(** A column that was set is what [get] returns, with no read from the
    source, whatever the source holds; the other columns are got as
    before; and [del] of a column that was set on a catalog that did not
    hold it gives the catalog back. *)
Theorem set_get_del self (column : string) v :
  BaseCatalog.get (BaseCatalog.set self column v) column [] []
  = {| BaseCatalog.returned := Ok v;
       BaseCatalog.after := BaseCatalog.set self column v;
       BaseCatalog.source_reads := [] |}
  ∧ (∀ c, c ≠ column ->
       BaseCatalog.returned
         (BaseCatalog.get (BaseCatalog.set self column v) c [] [])
       = BaseCatalog.returned (BaseCatalog.get self c [] [])
       ∧ BaseCatalog.source_reads
           (BaseCatalog.get (BaseCatalog.set self column v) c [] [])
         = BaseCatalog.source_reads (BaseCatalog.get self c [] []))
  ∧ BaseCatalog.__contains__ (BaseCatalog.set self column v) column = true
  ∧ (BaseCatalog.data self !! column = None ->
     BaseCatalog.__delitem__ (BaseCatalog.set self column v) column
     = Ok self).
Proof.
  split; [|split; [|split]].
  - apply get_hit. cbn. by rewrite lookup_insert_eq.
  - intros c Hne. by apply get_set_ne.
  - unfold BaseCatalog.__contains__. cbn. rewrite lookup_insert_eq.
    by apply bool_decide_eq_true.
  - intros Hnone. unfold BaseCatalog.__delitem__. cbn.
    rewrite lookup_insert_eq, delete_insert_id by done.
    by destruct self.
Qed.

End local_ops.

(** ** [BaseCatalog.deepcopy] *)
Section deepcopy.
Context {A V : Type} `{!EqDecision A} `{!BaseFile.Codec A V}.
Implicit Types (self : BaseCatalog.t A V) (W : list (BaseCatalog.t A V))
  (v : BaseCatalog.value A).

(** What a [get] that returns leaves: the catalog holds the column, and
    every column is got as before. *)
Lemma get_after self (column : string) v :
  BaseCatalog.returned (BaseCatalog.get self column [] []) = Ok v ->
  let self' := BaseCatalog.after (BaseCatalog.get self column [] []) in
  BaseCatalog.data self' !! column = Some v
  ∧ BaseCatalog._source self' = BaseCatalog._source self
  ∧ BaseCatalog.attrs self' = BaseCatalog.attrs self
  ∧ (∀ c v', BaseCatalog.data self !! c = Some v' ->
       BaseCatalog.data self' !! c = Some v')
  ∧ (∀ c, BaseCatalog.returned (BaseCatalog.get self' c [] [])
          = BaseCatalog.returned (BaseCatalog.get self c [] [])).
Proof.
  unfold BaseCatalog.get.
  change (BaseCatalog.get_default [] []) with (Ok (@None (BaseCatalog.value A))).
  cbv beta iota.
  destruct (BaseCatalog.data self !! column) as [v0|] eqn:Hd.
  { cbn. intros [= <-]. done. }
  destruct (BaseCatalog._source self) as [source|] eqn:Hsrc; [|done].
  destruct (BaseFile.hdr source) as [h|] eqn:Hh; [|done].
  destruct (bool_decide (column ∈ BaseFile.columns h)) eqn:Hin; [|done].
  destruct (BaseFile.read_local source h column) as [a|] eqn:Hread; [|done].
  cbn. intros [= <-]. split; [by rewrite lookup_insert_eq|].
  split; [done|]. split; [done|]. split.
  - intros c v' Hc. rewrite lookup_insert_ne; [done|]. intros ->. congruence.
  - intros c. destruct (decide (c = column)) as [->|Hne].
    + rewrite lookup_insert_eq, Hd, ?Hsrc, ?Hh, Hin, Hread. done.
    + rewrite lookup_insert_ne by done.
      destruct (BaseCatalog.data self !! c); [done|].
      rewrite ?Hsrc, ?Hh.
      destruct (bool_decide (c ∈ BaseFile.columns h)); [|done].
      by destruct (BaseFile.read_local source h c).
Qed.

(** The loop of [deepcopy] over columns that [self] can get. *)
Lemma deepcopy_loop self (l : list string) (self_i : BaseCatalog.t A V)
    (d_i : gmap string (BaseCatalog.value A)) :
  (∀ c, c ∈ l ->
     ∃ a, BaseCatalog.__getitem__ self c = Ok (BaseCatalog.Array a)) ->
  (∀ c, BaseCatalog.returned (BaseCatalog.get self_i c [] [])
        = BaseCatalog.returned (BaseCatalog.get self c [] [])) ->
  ∃ self_f d_f,
    foldM (fun (acc : BaseCatalog.t A V * gmap string (BaseCatalog.value A))
               col =>
             let got := BaseCatalog.get acc.1 col [] [] in
             v ← BaseCatalog.returned got;
             v' ← BaseCatalog.array_copy v;
             Ok (BaseCatalog.after got, <[col := v']> acc.2))
          (self_i, d_i) l = Ok (self_f, d_f)
    ∧ (∀ c, BaseCatalog.returned (BaseCatalog.get self_f c [] [])
            = BaseCatalog.returned (BaseCatalog.get self c [] []))
    ∧ BaseCatalog._source self_f = BaseCatalog._source self_i
    ∧ BaseCatalog.attrs self_f = BaseCatalog.attrs self_i
    ∧ (∀ c v', BaseCatalog.data self_i !! c = Some v' ->
         BaseCatalog.data self_f !! c = Some v')
    ∧ (∀ c, c ∈ l ->
         BaseCatalog.data self_f !! c
         = Some (BaseCatalog.Array (Spec.local_column c self)))
    ∧ (∀ c, d_f !! c
            = if decide (c ∈ l)
              then Some (BaseCatalog.Array (Spec.local_column c self))
              else d_i !! c).
Proof.
  revert self_i d_i. induction l as [|x l IH]; intros self_i d_i Hget Hsame.
  { exists self_i, d_i. split; [done|]. split; [done|]. split; [done|].
    split; [done|]. split; [done|]. split.
    - by intros c ?%elem_of_nil.
    - intros c. rewrite decide_False; [done|]. apply not_elem_of_nil. }
  destruct (Hget x ltac:(by left)) as [a Ha].
  assert (Hx : BaseCatalog.returned (BaseCatalog.get self_i x [] [])
               = Ok (BaseCatalog.Array (Spec.local_column x self))).
  { rewrite Hsame. by rewrite (local_column_Ok self x a). }
  destruct (get_after self_i x _ Hx) as (Hdx & Hsrc & Hat & Hmono & Hsame').
  destruct (IH (BaseCatalog.after (BaseCatalog.get self_i x [] []))
              (<[x := BaseCatalog.Array (Spec.local_column x self)]> d_i))
    as (self_f & d_f & Hfold & Hs & Hsrc' & Hat' & Hmono' & Hdata & Hd).
  { intros c Hc. apply Hget. by right. }
  { intros c. by rewrite Hsame'. }
  exists self_f, d_f. split.
  { cbn [foldM]. cbv zeta. cbn [fst snd]. rewrite Hx, bind_Ok.
    cbn [BaseCatalog.array_copy]. rewrite bind_Ok, bind_Ok. exact Hfold. }
  split; [done|]. split; [by rewrite Hsrc'|]. split; [by rewrite Hat'|].
  split; [by intros c v' Hc; apply Hmono', Hmono|]. split.
  - intros c [->|Hc]%elem_of_cons; [by apply Hmono'|by apply Hdata].
  - intros c. rewrite Hd. destruct (decide (c ∈ l)) as [Hc|Hc].
    + rewrite decide_True; [done|]. by right.
    + destruct (decide (c = x)) as [->|Hne].
      * rewrite lookup_insert_eq, decide_True; [done|]. by left.
      * rewrite lookup_insert_ne by done. rewrite decide_False; [done|].
        intros [?|?]%elem_of_cons; done.
Qed.

(** [deepcopy] of a catalog whose ranks can get every column: the copy
    holds every column as an array, with the rows [get] returns, where
    [copy] leaves [None] for a column that was not read; the attributes
    and the source are those of the catalog; and the catalog itself now
    holds every column. *)
Theorem deepcopy_reads W (cols : list string) :
  Spec.catalog_with W cols ->
  ∃ outs,
    BaseCatalog.deepcopy W None = Ok outs
    ∧ length outs = length W
    ∧ ∀ (r : nat) self, W !! r = Some self ->
        ∃ new self',
          outs !! r = Some (new, self')
          ∧ BaseCatalog.attrs new = BaseCatalog.attrs self
          ∧ BaseCatalog._source new = BaseCatalog._source self
          ∧ (∀ c, BaseCatalog.data new !! c
                  = if decide (c ∈ cols)
                    then Some (BaseCatalog.Array (Spec.local_column c self))
                    else None)
          ∧ (∀ c, c ∈ cols ->
               BaseCatalog.data self' !! c
               = Some (BaseCatalog.Array (Spec.local_column c self)))
          ∧ (∀ c, BaseCatalog.returned (BaseCatalog.get self' c [] [])
                  = BaseCatalog.returned (BaseCatalog.get self c [] [])).
Proof.
  intros (HW & Hcols & Hget).
  assert (Hkeys : ∀ self c,
            c ∈ (map_to_list
                   (BaseCatalog.data (BaseCatalog.copy_local cols self))).*1
            <-> c ∈ cols).
  { intros self c. rewrite elem_of_keys, <- elem_of_dom, dom_copy_local.
    apply elem_of_list_to_set. }
  assert (Hlocal : ∀ self, self ∈ W ->
            ∃ new self',
              BaseCatalog.deepcopy_local cols self = Ok (new, self')
              ∧ BaseCatalog.attrs new = BaseCatalog.attrs self
              ∧ BaseCatalog._source new = BaseCatalog._source self
              ∧ (∀ c, BaseCatalog.data new !! c
                      = if decide (c ∈ cols)
                        then Some (BaseCatalog.Array
                                     (Spec.local_column c self))
                        else None)
              ∧ (∀ c, c ∈ cols ->
                   BaseCatalog.data self' !! c
                   = Some (BaseCatalog.Array (Spec.local_column c self)))
              ∧ (∀ c, BaseCatalog.returned (BaseCatalog.get self' c [] [])
                      = BaseCatalog.returned (BaseCatalog.get self c [] []))).
  { intros self Hself.
    destruct (deepcopy_loop self
                (map_to_list
                   (BaseCatalog.data (BaseCatalog.copy_local cols self))).*1
                self ∅)
      as (self_f & d_f & Hfold & Hs & _ & _ & _ & Hdata & Hd).
    { intros c Hc. apply Hget; [done|]. by apply Hkeys in Hc. }
    { done. }
    exists {| BaseCatalog.data := d_f;
              BaseCatalog.attrs := BaseCatalog.attrs self;
              BaseCatalog._source := BaseCatalog._source self |}, self_f.
    split.
    { unfold BaseCatalog.deepcopy_local. cbv zeta in Hfold |- *.
      rewrite Hfold, bind_Ok. done. }
    split; [done|]. split; [done|]. split; [|split; [|done]].
    - intros c. cbn. rewrite Hd, lookup_empty.
      destruct (decide (c ∈ cols)) as [Hc|Hc].
      + rewrite decide_True; [done|]. by apply Hkeys.
      + rewrite decide_False; [done|]. by rewrite Hkeys.
    - intros c Hc. apply Hdata. by apply Hkeys. }
  set (f := fun self : BaseCatalog.t A V =>
              match BaseCatalog.deepcopy_local cols self with
              | Ok out => out
              | Raise _ => (self, self)
              end).
  exists (f <$> W). split; [|split].
  - unfold BaseCatalog.deepcopy. rewrite Hcols, bind_Ok.
    apply mapM_Ok_fmap. intros self Hself.
    destruct (Hlocal self Hself) as (new & self' & Hd & _).
    unfold f. by rewrite Hd.
  - by rewrite length_fmap.
  - intros r self Hr.
    destruct (Hlocal self (list_elem_of_lookup_2 _ _ _ Hr))
      as (new & self' & Hd & Hrest).
    exists new, self'. split; [|done].
    rewrite list_lookup_fmap, Hr. cbn. unfold f. by rewrite Hd.
Qed.

End deepcopy.

(** ** [BaseCatalog.cslice]: what it does *)
Section cslice.
Context {A V : Type} `{!EqDecision A} `{!BaseFile.Codec A V}.
Implicit Types (self : BaseCatalog.t A V) (W : list (BaseCatalog.t A V)).

(** [cslice] with one to three arguments returns a catalog on the same
    ranks that has all the rows, in order: every column of it, gathered,
    is the column of the catalog, gathered, and rank r holds the piece
    that [scatter_array] gives to rank r of this column; the arguments
    do not matter.  With no argument or more than three, it raises
    [TypeError]. *)
Theorem cslice_rebalances W (cols : list string) (args : list (option Z)) :
  Spec.catalog_with W cols ->
  ((1 <= length args <= 3)%nat ->
   ∃ new,
     BaseCatalog.cslice W args = Ok new
     ∧ length new = length W
     ∧ ∀ c, c ∈ cols ->
         BaseCatalog.cget new c = Ok (Spec.gathered c W)
         ∧ ∀ (r : nat) self, new !! r = Some self ->
             ∃ piece,
               mpi.scatter_array (length W) (Spec.gathered c W) !! r
               = Some piece
               ∧ BaseCatalog.__getitem__ self c
                 = Ok (BaseCatalog.Array piece))
  ∧ (¬ (1 <= length args <= 3)%nat ->
     BaseCatalog.cslice W args
     = Raise (TypeError "slice expected at least 1 argument and at most 3")).
Proof.
  intros Hw. pose proof Hw as (HW & Hcols & Hget). split.
  - intros Hargs.
    assert (Hsl : ∃ sl, py.slice_new args = Ok sl).
    { destruct args as [|a [|b [|c [|d args]]]]; cbn in Hargs; try lia;
        eexists; reflexivity. }
    destruct Hsl as [sl Hsl].
    assert (HP : (0 < length W)%nat) by (destruct W; [done|cbn; lia]).
    destruct (column_loop
                (fun new col =>
                   self_value ← BaseCatalog.cget W col;
                   Ok (BaseCatalog.set_column col
                         (mpi.scatter_array (length W) self_value) new))
                (BaseCatalog.copy_local cols <$> W) cols
                (fun c => mpi.scatter_array (length W) (Spec.gathered c W)))
      as (new & Hnew & Hlength & Hranks).
    { intros c. by rewrite scatter_array_length, length_fmap. }
    { intros new c Hc _. by rewrite (cget_catalog_with W cols c Hw Hc). }
    rewrite length_fmap in Hlength.
    exists new. split; [|split; [done|]].
    { unfold BaseCatalog.cslice.
      rewrite Hsl, bind_Ok, (copy_Ok W cols Hcols), bind_Ok, Hcols, bind_Ok.
      exact Hnew. }
    intros c Hc.
    assert (Hat : ∀ (r : nat) self, new !! r = Some self ->
              BaseCatalog.data self !! c
              = BaseCatalog.Array
                  <$> mpi.scatter_array (length W) (Spec.gathered c W) !! r).
    { intros r self Hr.
      destruct (lookup_lt_is_Some_2 (BaseCatalog.copy_local cols <$> W) r)
        as [s0 Hs0].
      { rewrite length_fmap, <- Hlength. by eapply lookup_lt_Some. }
      destruct (Hranks r s0 Hs0) as (self' & Hr' & Hdata & _).
      rewrite Hr in Hr'. injection Hr' as <-. by apply Hdata. }
    split.
    + rewrite <- (gather_scatter (length W) (Spec.gathered c W) HP).
      apply cget_pieces.
      * by rewrite scatter_array_length.
      * intros r self piece Hr Hp. by rewrite (Hat r self Hr), Hp.
    + intros r self Hr.
      destruct (lookup_lt_is_Some_2
                  (mpi.scatter_array (length W) (Spec.gathered c W)) r)
        as [piece Hp].
      { rewrite scatter_array_length, <- Hlength. by eapply lookup_lt_Some. }
      exists piece. split; [done|]. apply getitem_hit.
      by rewrite (Hat r self Hr), Hp.
  - intros Hargs. unfold BaseCatalog.cslice.
    destruct args as [|a [|b [|c [|d args]]]]; cbn in Hargs; try lia; done.
Qed.

End cslice.

(** ** [BaseCatalog.save] and [load]: the attributes *)
Section save_load_more.
Context {A V : Type} `{!EqDecision A} `{!BaseFile.Codec A V}.
Implicit Types (self : BaseCatalog.t A V) (W : list (BaseCatalog.t A V)).

(** A catalog that was saved, and loaded from the file [np.save] wrote,
    has on every rank the attributes the root had when it was saved, and
    no source; [load] of another file, that is not there, raises
    [IOError]: so does [load(filename)] after [save(filename)] for a
    new file name that does not end with [.npy]. *)
Theorem save_load_attrs W root (filename : string)
    (disk disk' : gmap string (BaseCatalog.state A V)) (M : nat) :
  W !! 0%nat = Some root ->
  BaseCatalog.save W filename disk = Ok disk' ->
  (∃ W', BaseCatalog.load M (BaseCatalog.np_save_filename filename) disk'
         = Ok W'
         ∧ length W' = M
         ∧ ∀ self', self' ∈ W' ->
             BaseCatalog.attrs self' = BaseCatalog.attrs root
             ∧ BaseCatalog._source self' = None)
  ∧ (∀ other, other ≠ BaseCatalog.np_save_filename filename ->
       disk !! other = None ->
       BaseCatalog.load M other disk'
       = Raise (IOError ("No such file: " +:+ other))).
Proof.
  intros Hroot Hsave. unfold BaseCatalog.save, py.getitem in Hsave.
  rewrite Hroot, bind_Ok in Hsave.
  apply bind_Ok_inv in Hsave as (cols & Hcols & Hsave).
  apply bind_Ok_inv in Hsave as (data & Hdata & Hsave).
  injection Hsave as <-. split.
  - set (st := {| BaseCatalog.st_data := data;
                  BaseCatalog.st_attrs := BaseCatalog.attrs root |}).
    destruct (load_Ok M (BaseCatalog.np_save_filename filename)
                (<[BaseCatalog.np_save_filename filename := st]> disk) st
                (lookup_insert_eq _ _ _)) as (W' & Hload & Hlen & HW').
    exists W'. split; [done|]. split; [done|].
    intros self' [r Hr]%list_elem_of_lookup.
    rewrite HW' in Hr by (rewrite <- Hlen; by eapply lookup_lt_Some).
    by injection Hr as <-.
  - intros other Hne Hnone. unfold BaseCatalog.load, BaseCatalog.np_load.
    by rewrite lookup_insert_ne, Hnone.
Qed.

End save_load_more.

(** ** [BaseCatalog.extend] *)
Section extend.
Context {A V : Type} `{!EqDecision A} `{!BaseFile.Codec A V}.
Implicit Types (self : BaseCatalog.t A V) (W : list (BaseCatalog.t A V)).

(** What [concatenate], keeping the order, returns: a catalog with the
    columns of its arguments, each column gathered being the gathered
    columns of the arguments one after the other. *)
Lemma concatenate_ordered_catalog (Ws : list (list (BaseCatalog.t A V)))
    (cols : list string) (P : nat) :
  Ws ≠ [] -> cols ≠ [] ->
  Spec.catalogs_with Ws cols P ->
  ∃ new colsN,
    BaseCatalog.concatenate Ws true = Ok new
    ∧ length new = P
    ∧ Spec.catalog_with new colsN
    ∧ list_to_set colsN =@{gset string} list_to_set cols
    ∧ ∀ c, c ∈ cols ->
        Spec.gathered c new = concat (Spec.gathered c <$> Ws).
Proof.
  intros HWs Hne Hall. destruct Ws as [|W0 rest]; [done|].
  destruct (proj1 (Forall_forall _ _) Hall W0 ltac:(by left))
    as (Hlen0 & cols0 & H0 & Hset0).
  pose proof H0 as (HW0 & Hcols0 & _).
  assert (HP : (0 < P)%nat).
  { destruct W0; [done|]. cbn in Hlen0. lia. }
  assert (Hreturn : Forall (fun W => ∃ colsW,
                              BaseCatalog.columns W None None = Ok colsW)
                           (W0 :: rest)).
  { eapply Forall_impl; [exact Hall|]. cbn beta.
    intros W (_ & colsW & (_ & Hc & _) & _). eauto. }
  assert (Hkept : filter (fun W => Spec.has_columns W) (W0 :: rest)
                  = W0 :: rest).
  { clear -Hall Hne. induction Hall as [|W Ws (_ & colsW & (_ & Hc & _) & Hset) _ IH];
      [done|].
    rewrite filter_cons, decide_True, IH; [done|].
    unfold Spec.has_columns. rewrite Hc.
    destruct colsW as [|c colsW]; [|done].
    destruct cols as [|c cols']; [done|].
    assert (c ∈ (list_to_set (c :: cols') : gset string)) as Hin
      by (apply elem_of_list_to_set; by left).
    rewrite <- Hset in Hin. by apply not_elem_of_empty in Hin. }
  rewrite <- Hkept in Hall.
  pose proof (many_start_length (W0 :: rest) W0 rest cols cols0 P
                ltac:(by rewrite <- Hkept) Hset0 Hne) as Hstart.
  assert (Hall' : Spec.catalogs_with (W0 :: rest) cols P)
    by (by rewrite <- Hkept).
  pose proof (concatenate_many_fold (W0 :: rest) W0 rest cols cols0 P
                Hreturn Hkept Hall' H0 Hset0 Hne true) as Hfold.
  destruct (column_loop
              (BaseCatalog.concatenate_column (W0 :: rest) true)
              (Spec.concatenate_start (W0 :: rest) cols0 W0) cols0
              (fun c => mpi.scatter_array P
                          (concat (Spec.gathered c <$> W0 :: rest))))
    as (new & Hnew & Hlength & Hranks).
  { intros c. by rewrite scatter_array_length, Hstart. }
  { intros new c Hc Hl. rewrite Hstart in Hl. rewrite <- Hl.
    by apply (many_column_ordered W0 rest cols cols0 P Hall' Hset0 Hne). }
  rewrite Hstart in Hlength.
  assert (Hrank : ∀ (r : nat) self, new !! r = Some self ->
            ∃ s0, W0 !! r = Some s0
              ∧ BaseCatalog._source self = BaseCatalog._source s0
              ∧ (∀ c, c ∈ cols0 ->
                   BaseCatalog.data self !! c
                   = BaseCatalog.Array
                       <$> mpi.scatter_array P
                             (concat (Spec.gathered c <$> W0 :: rest)) !! r)
              ∧ (∀ c, c ∉ cols0 -> BaseCatalog.data self !! c = None)).
  { intros r self Hr.
    destruct (lookup_lt_is_Some_2 W0 r) as [s0 Hs0].
    { rewrite Hlen0, <- Hlength. by eapply lookup_lt_Some. }
    assert (Hst : Spec.concatenate_start (W0 :: rest) cols0 W0 !! r
                  = Some (BaseCatalog.with_attrs
                            (BaseCatalog.copy_local cols0 s0)
                            (BaseCatalog.concatenate_attrs (W0 :: rest) r))).
    { unfold Spec.concatenate_start.
      by rewrite list_lookup_imap, list_lookup_fmap, Hs0. }
    destruct (Hranks r _ Hst) as (self' & Hr' & Hdata & Hnone & Hsrc & _).
    rewrite Hr in Hr'. injection Hr' as <-.
    exists s0. split; [done|]. split; [done|]. split; [done|].
    intros c Hc. rewrite (Hnone c Hc).
    change (BaseCatalog.data (BaseCatalog.with_attrs ?s ?a))
      with (BaseCatalog.data s).
    by rewrite lookup_copy_local, decide_False. }
  assert (Hpiece : ∀ c (r : nat), (r < P)%nat ->
            ∃ piece, mpi.scatter_array P
                       (concat (Spec.gathered c <$> W0 :: rest)) !! r
                     = Some piece).
  { intros c r Hr. apply lookup_lt_is_Some_2. by rewrite scatter_array_length. }
  assert (Hgetitem : ∀ self c, self ∈ new -> c ∈ cols0 ->
            ∃ a, BaseCatalog.__getitem__ self c = Ok (BaseCatalog.Array a)).
  { intros self c [r Hr]%list_elem_of_lookup Hc.
    destruct (Hrank r self Hr) as (s0 & _ & _ & Hdata & _).
    destruct (Hpiece c r) as [piece Hp].
    { rewrite <- Hlength. by eapply lookup_lt_Some. }
    exists piece. apply getitem_hit. by rewrite (Hdata c Hc), Hp. }
  exists new, cols0. split; [by rewrite Hfold|]. split; [done|].
  split; [|split; [done|]].
  - split; [intros ->; cbn in Hlength; lia|]. split; [|done].
    destruct (lookup_lt_is_Some_2 new 0) as [root Hroot]; [lia|].
    destruct (Hrank 0%nat root Hroot) as (root0 & Hroot0 & Hsrc & Hdata & Hnone).
    destruct (columns_Ok_inv W0 cols0 root0 Hroot0 Hcols0) as (S & HS & Hcols_eq).
    rewrite (columns_root_of new root None None Hroot).
    unfold BaseCatalog.columns_root, BaseCatalog.source_columns.
    unfold BaseCatalog.source_columns in HS. rewrite Hsrc, HS, bind_Ok.
    rewrite ?bind_Ok. f_equal.
    transitivity (elements (dom (BaseCatalog.data root0) ∪ S));
      [|by symmetry].
    f_equal. apply set_eq. intros c.
    rewrite !elem_of_union, !elem_of_dom.
    destruct (decide (c ∈ cols0)) as [Hc|Hc].
    + destruct (Hpiece c 0%nat HP) as [piece Hp].
      rewrite (Hdata c Hc), Hp.
      rewrite Hcols_eq, elem_of_elements, elem_of_union, elem_of_dom in Hc.
      split; [done|]. intros _. left. by eexists.
    + rewrite (Hnone c Hc).
      rewrite Hcols_eq, elem_of_elements, elem_of_union, elem_of_dom in Hc.
      split; [intros [[? ?]|?]; [done|tauto]|tauto].
  - intros c Hc.
    assert (Hc0 : c ∈ cols0) by (by apply (many_in_cols cols cols0 Hset0)).
    rewrite <- (gather_scatter P (concat (Spec.gathered c <$> W0 :: rest)) HP).
    unfold Spec.gathered at 1, mpi.gather_array. f_equal.
    apply list_eq. intros r. rewrite list_lookup_fmap.
    destruct (new !! r) as [self|] eqn:Hr.
    + destruct (Hrank r self Hr) as (s0 & _ & _ & Hdata & _).
      destruct (Hpiece c r) as [piece Hp].
      { rewrite <- Hlength. by eapply lookup_lt_Some. }
      rewrite Hp. cbn. f_equal. apply local_column_Ok, getitem_hit.
      by rewrite (Hdata c Hc0), Hp.
    + symmetry. apply lookup_ge_None. rewrite scatter_array_length.
      rewrite <- Hlength. by apply lookup_ge_None.
Qed.

(** [extend], keeping the order, appends: after [a.extend(b)], every
    column of [a], gathered, is the rows it had followed by those of
    [b]; and two [extend] in a row give the rows that [concatenate] of
    the three catalogs gives. *)
Theorem extend_twice (WA WB WC : list (BaseCatalog.t A V))
    (cols : list string) (P : nat) (column : string) :
  Spec.catalogs_with [WA; WB; WC] cols P ->
  column ∈ cols ->
  ∃ AB ABC,
    BaseCatalog.extend WA WB true = Ok AB
    ∧ BaseCatalog.cget AB column
      = Ok (Spec.gathered column WA ++ Spec.gathered column WB)
    ∧ BaseCatalog.extend AB WC true = Ok ABC
    ∧ BaseCatalog.cget ABC column
      = Ok (Spec.gathered column WA ++ Spec.gathered column WB
            ++ Spec.gathered column WC)
    ∧ ∃ all, BaseCatalog.concatenate [WA; WB; WC] true = Ok all
             ∧ BaseCatalog.cget all column = BaseCatalog.cget ABC column.
Proof.
  intros Hall Hcol.
  assert (Hne : cols ≠ []) by (intros ->; by apply elem_of_nil in Hcol).
  pose proof (proj1 (Forall_cons _ _ _) Hall) as [HA Hall'].
  pose proof (proj1 (Forall_cons _ _ _) Hall') as [HB Hall''].
  pose proof (proj1 (Forall_cons _ _ _) Hall'') as [HC _].
  destruct (concatenate_ordered_catalog [WA; WB] cols P ltac:(done) Hne)
    as (AB & colsAB & HAB & HlenAB & HcatAB & HsetAB & HgAB).
  { constructor; [exact HA|]. constructor; [exact HB|]. constructor. }
  destruct (concatenate_ordered_catalog [AB; WC] cols P ltac:(done) Hne)
    as (ABC & colsABC & HABC & _ & HcatABC & HsetABC & HgABC).
  { constructor; [|constructor; [exact HC|constructor]].
    split; [done|]. by exists colsAB. }
  destruct (concatenate_ordered_catalog [WA; WB; WC] cols P ltac:(done) Hne Hall)
    as (all & colsall & Hallc & _ & Hcatall & Hsetall & Hgall).
  assert (Hin : ∀ colsN, list_to_set colsN =@{gset string} list_to_set cols ->
                  column ∈ colsN).
  { intros colsN Hs. apply (elem_of_list_to_set (C := gset string)).
    rewrite Hs. by apply elem_of_list_to_set. }
  exists AB, ABC. split; [exact HAB|]. split.
  { rewrite (cget_catalog_with AB colsAB column HcatAB (Hin _ HsetAB)).
    rewrite (HgAB column Hcol). cbn. by rewrite app_nil_r. }
  split; [exact HABC|]. split.
  { rewrite (cget_catalog_with ABC colsABC column HcatABC (Hin _ HsetABC)).
    rewrite (HgABC column Hcol). cbn. rewrite (HgAB column Hcol). cbn.
    by rewrite !app_nil_r, <- app_assoc. }
  exists all. split; [exact Hallc|].
  rewrite (cget_catalog_with all colsall column Hcatall (Hin _ Hsetall)).
  rewrite (cget_catalog_with ABC colsABC column HcatABC (Hin _ HsetABC)).
  rewrite (Hgall column Hcol), (HgABC column Hcol). cbn.
  rewrite (HgAB column Hcol). cbn. by rewrite !app_nil_r, <- app_assoc.
Qed.

End extend.

(** ** The theorems above on the small worlds *)
Section more_examples.
Import Examples.

(** The three files go together; the file [e.h5], with a column [Y] that
    [a.h5] has not, does not go with [a.h5]. *)
Lemma read_header_schema_witness :
  (∃ W', BaseFile._read_header (H := HDF5File.codec disk3) (handles 2 names3)
         = Ok W')
  ∧ (∃ fn, fn ∈ ["a.h5"; "e.h5"]
           ∧ BaseFile._read_header (H := HDF5File.codec disk_e)
               (handles 2 ["a.h5"; "e.h5"])
             = Raise (ValueError (fn +:+ " does not contain columns"))).
Proof.
  split.
  - assert (Hhis : ∃ di0 di1 di2,
              Forall2 (fun fn di =>
                         BaseFile._read_file_header (Codec := HDF5File.codec disk3)
                           fn = Ok di) names3 [di0; di1; di2]
              ∧ BaseFile.h_columns di0 = ["X"]
              ∧ BaseFile.h_columns di1 = ["X"]
              ∧ BaseFile.h_columns di2 = ["X"]
              ∧ BaseFile.h_extra di0 = []).
    { eexists _, _, _. split.
      - repeat constructor; vm_compute; reflexivity.
      - repeat split; reflexivity. }
    destruct Hhis as (di0 & di1 & di2 & Hhis & H0 & H1 & H2 & He).
    destruct (read_header_schema (H := HDF5File.codec disk3)
                (handles 2 names3) _ di0 [di1; di2] eq_refl Hhis)
      as [[_ Hgo] _].
    apply Hgo. repeat constructor.
    + rewrite H1, H0. intros c Hc. exact Hc.
    + rewrite He. by intros name ?%elem_of_nil.
    + rewrite H2, H0. intros c Hc. exact Hc.
    + rewrite He. by intros name ?%elem_of_nil.
  - assert (Hhis : ∃ di0 di1,
              Forall2 (fun fn di =>
                         BaseFile._read_file_header (Codec := HDF5File.codec disk_e)
                           fn = Ok di) ["a.h5"; "e.h5"] [di0; di1]
              ∧ BaseFile.h_columns di0 = ["X"]
              ∧ BaseFile.h_columns di1 = ["X"; "Y"]
              ∧ BaseFile.h_extra di0 = []).
    { eexists _, _. split.
      - repeat constructor; vm_compute; reflexivity.
      - repeat split; reflexivity. }
    destruct Hhis as (di0 & di1 & Hhis & H0 & H1 & He).
    destruct (read_header_schema (H := HDF5File.codec disk_e)
                (handles 2 ["a.h5"; "e.h5"]) _ di0 [di1] eq_refl Hhis)
      as (_ & _ & Hbad).
    apply Hbad.
    + repeat constructor. rewrite He. by intros name ?%elem_of_nil.
    + intros Hall. apply Forall_cons in Hall as [Hsub _].
      specialize (Hsub "Y"). rewrite H0, H1 in Hsub.
      specialize (Hsub ltac:(by right; left)).
      apply list_elem_of_singleton in Hsub. done.
Defined.

(** The three files opened with the mode [w] and with the mode [R]. *)
Lemma read_opens_lazily_witness :
  (W ← BaseFile.__init__ (H := HDF5File.codec disk3) 2 names3 None "w";
   BaseFile.read (H := HDF5File.codec disk3) W "X")
  = (W ← BaseFile.__init__ (H := HDF5File.codec disk3) 2 names3 None "R";
     BaseFile.read (H := HDF5File.codec disk3) W "X").
Proof.
  apply (read_opens_lazily (H := HDF5File.codec disk3) 2 names3 None "w" "R");
    apply (bool_decide_unpack _); vm_compute; exact I.
Defined.

(** Five rows on two ranks written to two files: the rows given for the
    files, end to end, are the five rows; and from two files that hold
    the rows given for them, a read on three ranks gathers the five
    rows. *)
Lemma write_then_read_witness :
  ∃ calls R' arrays,
    (∀ log,
       BaseFile.write (handler := log_writer) (handles 2 ["a.h5"; "b.h5"])
         (BaseFile.WDict <$> [[("X", [1; 2; 3])]; [("X", [4; 5])]]) None log
       = Ok (log ++ calls))
    ∧ Spec.handed "X" <$> calls.*2 = [[1; 2]; [3; 4; 5]]
    ∧ BaseFile._read_header (H := HDF5File.codec disk_w)
        (handles 3 ["a.h5"; "b.h5"]) = Ok R'
    ∧ BaseFile.read (H := HDF5File.codec disk_w) R' "X" = Ok (R', arrays)
    ∧ mpi.gather_array arrays = [1; 2; 3; 4; 5].
Proof.
  destruct (write_then_read (H := HDF5File.codec disk_w)
              (handler := log_writer) (handles 2 ["a.h5"; "b.h5"]) _
              ["X"] [[("X", [1; 2; 3])]; [("X", [4; 5])]] "X" eq_refl)
    as (calls & Hrun & _ & _ & Hread).
  - done.
  - split; [done|]. split; [done|].
    constructor; [|constructor; [|constructor]]; (split; [reflexivity|]).
    + exists 3%nat. by repeat constructor.
    + exists 2%nat. by repeat constructor.
  - by left.
  - assert (Hcalls : calls = [("a.h5", [[("X", [1; 2])]; [("X", [])]]);
                              ("b.h5", [[("X", [3])]; [("X", [4; 5])]])]).
    { pose proof (Hrun []) as Hnil. rewrite log_writer_calls in Hnil.
      vm_compute in Hnil. by injection Hnil as <-. }
    assert (HR : ∃ R', BaseFile._read_header (H := HDF5File.codec disk_w)
                         (handles 3 ["a.h5"; "b.h5"]) = Ok R').
    { eexists. vm_compute. reflexivity. }
    destruct HR as [R' HR].
    destruct (Hread (handles 3 ["a.h5"; "b.h5"]) R' _ eq_refl
                (comm_ok_handles 3 _) (handles_filenames 3 _ _ eq_refl) HR)
      as (arrays & Harrays & _ & Hgather).
    { rewrite Hcalls.
      repeat constructor;
        try (eexists; split; [vm_compute; reflexivity|reflexivity]);
        intros a b Ha Hab Hb;
        (eapply hdf5_read_file_slice; [vm_compute; reflexivity|reflexivity|..]);
        done. }
    exists calls, R', arrays. split.
    { intros log. by rewrite Hrun, log_writer_calls. }
    split; [by rewrite Hcalls|]. split; [exact HR|].
    split; [exact Harrays|]. rewrite Hgather. reflexivity.
Defined.

(** The five rows on two ranks, written. *)
Lemma write_only_scattered_dicts_witness :
  @None nat = None
  ∧ [BaseFile.WDict [("X", [1; 2; 3])]; BaseFile.WDict [("X", [4; 5])]] ≠ []
  ∧ ∀ data,
      data ∈ [BaseFile.WDict [("X", [1; 2; 3])]; BaseFile.WDict [("X", [4; 5])]] ->
      ∃ d, data = BaseFile.WDict d ∧ d ≠ [].
Proof.
  apply (write_only_scattered_dicts (handler := log_writer)
           (handles 2 ["a.h5"; "b.h5"]) _ _ None []
           [("a.h5", [[("X", [1; 2])]; [("X", [])]]);
            ("b.h5", [[("X", [3])]; [("X", [4; 5])]])] eq_refl).
  - done.
  - vm_compute. reflexivity.
Defined.

Lemma hdf5_stored3 : Spec.hdf5_stored disk3 names3 "X" blocks3.
Proof.
  assert (Hsub : ∀ (keys : list string) filename0 grp0,
             names3 !! 0%nat = Some filename0 ->
             disk3 !! filename0 = Some grp0 ->
             keys = ["X"] ->
             ∀ c, c ∈ keys -> c ∈ (HDF5File.datasets grp0).*1).
  { intros keys filename0 grp0 [= <-] Hd -> c Hc.
    vm_compute in Hd. injection Hd as <-. exact Hc. }
  constructor; [|constructor; [|constructor; [|constructor]]].
  - exists file_a. split; [vm_compute; reflexivity|]. split; [reflexivity|].
    split; [by repeat constructor|].
    intros filename0 grp0 H0 Hd. by apply (Hsub _ filename0 grp0).
  - exists file_b. split; [vm_compute; reflexivity|]. split; [reflexivity|].
    split; [by repeat constructor|].
    intros filename0 grp0 H0 Hd. by apply (Hsub _ filename0 grp0).
  - exists file_c. split; [vm_compute; reflexivity|]. split; [reflexivity|].
    split; [by repeat constructor|].
    intros filename0 grp0 H0 Hd. by apply (Hsub _ filename0 grp0).
Qed.

(** The catalog over the three files on two ranks: 22 rows, 11 on each
    rank, and the column [X], gathered, is the rows 0 to 21. *)
Lemma load_hdf5_whole_column_witness :
  ∃ W,
    BaseCatalog.load_hdf5 (H := HDF5File.codec disk3) 2 names3 = Ok W
    ∧ BaseCatalog.cget (H := HDF5File.codec disk3) W "X"
      = Ok [0; 1; 2; 3; 4; 5; 6; 7; 8; 9; 10; 11; 12; 13; 14; 15; 16; 17; 18;
            19; 20; 21]
    ∧ BaseCatalog.csize (H := HDF5File.codec disk3) W = Ok 22.
Proof.
  destruct (load_hdf5_whole_column disk3 2 names3 "X" blocks3 ltac:(lia)
              ltac:(done) hdf5_stored3)
    as (W & Hload & _ & _ & Hcget & Hcsize).
  exists W. split; [exact Hload|]. split; [exact Hcget|exact Hcsize].
Defined.

(** Six rows on three ranks: rank 1 has the row number 2, and rank 2
    gets [IndexError]. *)
Lemma cindices_two_ranks_witness :
  BaseCatalog.cindices (H := no_disk) cat6 !! 1%nat = Some (Ok [2])
  ∧ BaseCatalog.cindices (H := no_disk) cat6 !! 2%nat
    = Some (Raise (IndexError "index out of range")).
Proof.
  assert (Hns : mapM (BaseCatalog.__len__ (H := no_disk)) cat6 = Ok [2; 1; 3])
    by (vm_compute; reflexivity).
  split.
  - exact (cindices_two_ranks (H := no_disk) cat6 [2; 1; 3] 1 1 Hns eq_refl).
  - exact (cindices_two_ranks (H := no_disk) cat6 [2; 1; 3] 2 3 Hns eq_refl).
Defined.

Lemma in_memory_cat6 : Forall (Spec.in_memory "x") cat6.
Proof.
  constructor; [|constructor; [|constructor; [|constructor]]];
    (eexists; split; [apply lookup_singleton_eq|]);
    intros c v Hc; cbn [BaseCatalog.data] in Hc;
    apply lookup_singleton_Some in Hc as [_ <-]; eauto.
Qed.

Lemma csize_gathered_witness :
  BaseCatalog.csize (H := no_disk) cat6 = Ok 6.
Proof.
  destruct (csize_gathered (H := no_disk) cat6 "x" in_memory_cat6) as [_ Hc].
  rewrite Hc. reflexivity.
Defined.

Lemma columns_backed3 :
  BaseCatalog.columns [backed3] None None
  = Ok ["X"].
Proof. vm_compute. reflexivity. Qed.

Lemma getitem_backed3 :
  BaseCatalog.__getitem__ (H := HDF5File.codec disk3) backed3 "X"
  = Ok (BaseCatalog.Array [0; 1; 2; 3; 4; 5; 6; 7; 8; 9; 10]).
Proof. vm_compute. reflexivity. Qed.

Lemma catalog_with_backed3 :
  Spec.catalog_with (H := HDF5File.codec disk3) [backed3] ["X"].
Proof.
  split; [done|]. split; [exact columns_backed3|].
  intros self c Hself Hc.
  apply list_elem_of_singleton in Hself as ->.
  apply list_elem_of_singleton in Hc as ->.
  eexists. exact getitem_backed3.
Qed.

(** The catalog over the three files, copied before any column is read:
    [get] of [X] on the copy returns [None]. *)
Lemma copy_unread_is_None_witness :
  ∃ new self',
    BaseCatalog.copy [backed3] None = Ok new
    ∧ new !! 0%nat = Some self'
    ∧ BaseCatalog.returned
        (BaseCatalog.get (H := HDF5File.codec disk3) self' "X" [] [])
      = Ok BaseCatalog.PyNone.
Proof.
  destruct (copy_unread_is_None (H := HDF5File.codec disk3) [backed3] ["X"]
              columns_backed3) as (new & Hcopy & _ & Hranks).
  destruct (Hranks 0%nat backed3 eq_refl)
    as (self' & Hr & _ & _ & _ & _ & Hnone).
  exists new, self'. split; [exact Hcopy|]. split; [exact Hr|].
  destruct (Hnone "X" ltac:(by left) ltac:(reflexivity)) as [_ ->]. done.
Defined.

(** The rows 0..4, a catalog without column, and the rows 10..12: the
    catalog without column is left out. *)
Lemma concatenate_many_witness :
  ∃ new,
    BaseCatalog.concatenate (H := no_disk) [cat_a; cat_empty; cat_b] true
    = Ok new
    ∧ BaseCatalog.cget (H := no_disk) new "v"
      = Ok [0; 1; 2; 3; 4; 10; 11; 12].
Proof.
  assert (Hkept : filter (fun W => Spec.has_columns W)
                    [cat_a; cat_empty; cat_b] = [cat_a; cat_b])
    by (vm_compute; reflexivity).
  destruct (concatenate_many (H := no_disk) [cat_a; cat_empty; cat_b] ["v"] 2
              "v") as [(new & Hnew & _ & Hcget) _].
  - repeat constructor; eexists; vm_compute; reflexivity.
  - by rewrite Hkept.
  - rewrite Hkept. constructor; [|constructor; [|constructor]].
    + split; [done|]. exists ["v"]. split; [exact catalog_with_cat_a|done].
    + split; [done|]. exists ["v"]. split; [exact catalog_with_cat_b|done].
  - by left.
  - exists new. split; [exact Hnew|]. rewrite Hcget, Hkept. vm_compute.
    reflexivity.
Defined.

(** A catalog with the column [v] and one with the columns [x] and
    [y]. *)
Lemma concatenate_mismatch_witness :
  BaseCatalog.concatenate (H := no_disk) [cat_a; cat3] true
  = Raise (ValueError "Cannot extend samples as columns do not match").
Proof.
  apply (concatenate_mismatch (H := no_disk) [cat_a; cat3] cat_a [cat3]
           ["v"] 2 true).
  - repeat constructor; eexists; vm_compute; reflexivity.
  - vm_compute. reflexivity.
  - vm_compute. reflexivity.
  - constructor. exists ["y"; "x"]. split; [vm_compute; reflexivity|].
    apply (bool_decide_unpack _). vm_compute. exact I.
Defined.

Local Ltac cols3_cases Hc :=
  change cols3 with ["y"; "x"] in Hc;
  apply elem_of_cons in Hc as [->|Hc];
  [|apply list_elem_of_singleton in Hc as ->].

Lemma catalog_with_two_columns (W : list (BaseCatalog.t Z string)) :
  W ≠ [] ->
  BaseCatalog.columns W None None = Ok cols3 ->
  Forall (fun self =>
            ∃ x y, BaseCatalog.data self !! "x" = Some (BaseCatalog.Array x)
                   ∧ BaseCatalog.data self !! "y" = Some (BaseCatalog.Array y))
         W ->
  Spec.catalog_with (H := no_disk) W cols3.
Proof.
  intros HW Hcols Hall. split; [done|]. split; [done|].
  intros self c Hself Hc.
  destruct (proj1 (Forall_forall _ _) Hall self Hself) as (x & y & Hx & Hy).
  change cols3 with ["y"; "x"] in Hc.
  apply elem_of_cons in Hc as [->|Hc]; [exists y; by apply getitem_hit|].
  apply list_elem_of_singleton in Hc as ->. exists x. by apply getitem_hit.
Qed.

Lemma catalog_with_cat3_x : Spec.catalog_with (H := no_disk) cat3_x cols3.
Proof.
  apply catalog_with_two_columns; [done|vm_compute; reflexivity|].
  repeat constructor; eexists _, _; split; reflexivity.
Qed.

Lemma catalog_with_cat3_y : Spec.catalog_with (H := no_disk) cat3_y cols3.
Proof.
  apply catalog_with_two_columns; [done|vm_compute; reflexivity|].
  repeat constructor; eexists _, _; split; reflexivity.
Qed.


Lemma catalog_with_cat6 : Spec.catalog_with (H := no_disk) cat6 ["x"].
Proof.
  split; [done|]. split; [vm_compute; reflexivity|].
  intros self c Hself Hc. apply list_elem_of_singleton in Hc as ->.
  destruct (proj1 (Forall_forall _ _) in_memory_cat6 self Hself)
    as (a & Ha & _).
  exists a. by apply getitem_hit.
Qed.

(** The three rows of two columns on two ranks, saved to one file: the
    handler is called once, and is given the rows of both columns, rank
    by rank. *)
Lemma save_hdf5_gathers_witness :
  ∃ tmps,
    (∀ log,
       BaseCatalog.save_hdf5 (H := no_disk) (handler := log_writer) cat3
         "out.h5" log
       = Ok (log ++ [("out.h5", tmps)]))
    ∧ Spec.handed "x" tmps = [1; 2; 3]
    ∧ Spec.handed "y" tmps = [10; 20; 30].
Proof.
  destruct (save_hdf5_gathers (H := no_disk) (handler := log_writer) cat3
              cols3 "out.h5" catalog_with_cat3) as [_ Hsave].
  destruct Hsave as (tmps & Hrun & _ & _ & Hcols); [done| |].
  - intros self Hself. unfold cat3 in Hself.
    apply elem_of_cons in Hself as [->|Hself];
      [exists 2%nat|apply list_elem_of_singleton in Hself as ->; exists 1%nat];
      intros c Hc; change cols3 with ["y"; "x"] in Hc;
      (apply elem_of_cons in Hc as [->|Hc];
       [|apply list_elem_of_singleton in Hc as ->]); reflexivity.
  - exists tmps. split; [|split].
    + intros log. by rewrite Hrun.
    + rewrite (Hcols "x") by (right; by left). reflexivity.
    + rewrite (Hcols "y") by (by left). reflexivity.
Defined.

Lemma source_opened_backed3 :
  Spec.source_opened backed3.
Proof.
  intros source Hsrc. vm_compute in Hsrc. injection Hsrc as <-. eexists.
  reflexivity.
Qed.

(** The catalog over the three files lists the column of the files. *)
Lemma columns_lists_root_witness :
  ∃ cols,
    BaseCatalog.columns [backed3] None None
    = Ok cols
    ∧ "X" ∈ cols.
Proof.
  destruct (columns_lists_root [backed3] backed3
              eq_refl source_opened_backed3) as (cols & Hcols & _ & Hmem).
  exists cols. split; [exact Hcols|].
  rewrite columns_backed3 in Hcols. injection Hcols as <-. by left.
Defined.

(** The catalog over the three files, deep-copied before any column is
    read: the copy holds the rows of the rank. *)
Lemma deepcopy_reads_witness :
  ∃ outs new self',
    BaseCatalog.deepcopy (H := HDF5File.codec disk3) [backed3] None = Ok outs
    ∧ outs !! 0%nat = Some (new, self')
    ∧ BaseCatalog.data new !! "X"
      = Some (BaseCatalog.Array [0; 1; 2; 3; 4; 5; 6; 7; 8; 9; 10]).
Proof.
  destruct (deepcopy_reads (H := HDF5File.codec disk3) [backed3] ["X"]
              catalog_with_backed3) as (outs & Hrun & _ & Hranks).
  destruct (Hranks 0%nat backed3 eq_refl)
    as (new & self' & Hr & _ & _ & Hdata & _).
  exists outs, new, self'. split; [exact Hrun|]. split; [exact Hr|].
  rewrite (Hdata "X"), decide_True by (by left).
  by rewrite (local_column_Ok _ _ _ getitem_backed3).
Defined.

End more_examples.

(** ** [cslice], [save], [load] and [extend] on the small worlds *)
Section more_examples_2.
Import Examples.

(** The six rows held 2, 1 and 3 by three ranks: after [cslice(2, 4)]
    all six rows are there, on three ranks. *)
Lemma cslice_rebalances_witness :
  ∃ new,
    BaseCatalog.cslice (H := no_disk) cat6 [Some 2; Some 4] = Ok new
    ∧ length new = 3%nat
    ∧ BaseCatalog.cget (H := no_disk) new "x" = Ok [1; 2; 3; 4; 5; 6].
Proof.
  destruct (cslice_rebalances (H := no_disk) cat6 ["x"] [Some 2; Some 4]
              catalog_with_cat6) as [Hrun _].
  destruct Hrun as (new & Hrun & Hlen & Hcols); [cbn; lia|].
  destruct (Hcols "x" ltac:(by left)) as [Hcget _].
  exists new. split; [exact Hrun|]. split; [exact Hlen|exact Hcget].
Defined.

(** The six rows on three ranks, saved as [catalog]: the file is
    [catalog.npy], which loads on two ranks, and [load] of [catalog]
    finds no file. *)
Lemma save_load_attrs_witness :
  ∃ disk' W',
    BaseCatalog.save (H := no_disk) cat6 "catalog" ∅ = Ok disk'
    ∧ BaseCatalog.load 2 "catalog.npy" disk' = Ok W'
    ∧ length W' = 2%nat
    ∧ BaseCatalog.load 2 "catalog" disk'
      = Raise (IOError "No such file: catalog").
Proof.
  assert (Hsave : ∃ disk', BaseCatalog.save (H := no_disk) cat6 "catalog" ∅
                           = Ok disk').
  { eexists. vm_compute. reflexivity. }
  destruct Hsave as [disk' Hsave].
  destruct cat6 as [|root W6] eqn:Hcat; [discriminate|].
  destruct (save_load_attrs (H := no_disk) (root :: W6) root "catalog" ∅
              disk' 2 eq_refl Hsave) as [(W' & Hload & Hlen & _) Hother].
  exists disk', W'. split; [exact Hsave|]. split; [exact Hload|].
  split; [exact Hlen|].
  exact (Hother "catalog" ltac:(done) (lookup_empty _)).
Defined.

(** The rows 0..4, then 10..12, then 0..4 again. *)
Lemma extend_twice_witness :
  ∃ AB ABC,
    BaseCatalog.extend (H := no_disk) cat_a cat_b true = Ok AB
    ∧ BaseCatalog.extend (H := no_disk) AB cat_a true = Ok ABC
    ∧ BaseCatalog.cget (H := no_disk) ABC "v"
      = Ok [0; 1; 2; 3; 4; 10; 11; 12; 0; 1; 2; 3; 4].
Proof.
  destruct (extend_twice (H := no_disk) cat_a cat_b cat_a ["v"] 2 "v")
    as (AB & ABC & HAB & _ & HABC & Hcget & _).
  - constructor; [|constructor; [|constructor; [|constructor]]];
      (split; [done|]; exists ["v"]; split; [|done]).
    + exact catalog_with_cat_a.
    + exact catalog_with_cat_b.
    + exact catalog_with_cat_a.
  - by left.
  - exists AB, ABC. split; [exact HAB|]. split; [exact HABC|].
    rewrite Hcget. vm_compute. reflexivity.
Defined.

End more_examples_2.
